(** * Bond calculator (src/App.tsx): formula evaluator, rate pipeline,
      configuration commit and quick calculator.

    The development embeds the functional core of [src/App.tsx]:
    [evaluateFormula], [validateFormula], the memoised rate results
    ([withoutPgaAmount], [withoutPgaResults], [testResults]), the
    calculator handler [handleCalcBtn] and the admin commit [saveSettings].

    - JavaScript strings are lists of UTF-16 code units.
    - JavaScript numbers are IEEE-754 binary64 values: Rocq's primitive
      floats, whose operations round to nearest-even as the language does.
    - [try { ... } catch] is an error monad.
    - What the host engine does with a source text ([eval],
      [new Function], [new RegExp]) is an [Engine] the theorems quantify
      over; [reference_engine] is an executable one for closed examples. *)

From Stdlib Require Import ZArith NArith List Bool Lia String Ascii.
From Stdlib Require Import PrimFloat FloatOps SpecFloat FloatAxioms.
From Stdlib Require Uint63.
Import ListNotations.

Set Implicit Arguments.
Set Warnings "-inexact-float".

(* ================================================================== *)
(** ** Strings *)

Module JsString.

(** One UTF-16 code unit. *)
Definition code_unit := N.

Definition t := list code_unit.

(** The string denoted by an ASCII literal of the source. *)
Definition lit (s : string) : t :=
  List.map N_of_ascii (list_ascii_of_string s).

Fixpoint eqb (a b : t) : bool :=
  match a, b with
  | [], [] => true
  | x :: a', y :: b' => N.eqb x y && eqb a' b'
  | _, _ => false
  end.

(** [a] is a prefix of [b]. *)
Fixpoint starts_with (a b : t) : bool :=
  match a, b with
  | [], _ => true
  | x :: a', y :: b' => N.eqb x y && starts_with a' b'
  | _ :: _, [] => false
  end.

(** [String.prototype.includes]: [needle] occurs in [hay]. *)
Fixpoint includes (hay needle : t) : bool :=
  starts_with needle hay ||
  match hay with
  | [] => false
  | _ :: hay' => includes hay' needle
  end.

(** [s.slice(0, -1)]: all but the last code unit. *)
Definition drop_last (s : t) : t := removelast s.

(** [String.prototype.replace(pattern, by)] with a string pattern:
    only the first occurrence is replaced. *)
Fixpoint replace_first (pattern by_ s : t) : t :=
  if starts_with pattern s then by_ ++ skipn (List.length pattern) s
  else match s with
       | [] => []
       | c :: s' => c :: replace_first pattern by_ s'
       end.

(** [s.replace(/c/g, by)] for a one-code-unit pattern. *)
Definition replace_all_unit (c : code_unit) (by_ : t) (s : t) : t :=
  flat_map (fun x => if N.eqb x c then by_ else [x]) s.

(** [s.split(/[...]/)] for a character class [sep]: the pieces between
    separators, never an empty list. *)
Fixpoint split_on (sep : code_unit -> bool) (s : t) : list t :=
  match s with
  | [] => [[]]
  | c :: s' =>
      if sep c then [] :: split_on sep s'
      else match split_on sep s' with
           | piece :: rest => (c :: piece) :: rest
           | [] => [[c]]
           end
  end.

Definition is_digit (c : code_unit) : bool := (48 <=? c)%N && (c <=? 57)%N.

(** The class [\s]: WhiteSpace and LineTerminator of the language. *)
Definition is_space (c : code_unit) : bool :=
  existsb (N.eqb c)
    [9; 10; 11; 12; 13; 32; 160; 5760; 8232; 8233; 8239; 8287; 12288; 65279]%N
  || ((8192 <=? c)%N && (c <=? 8202)%N).

End JsString.

Abbreviation jsstring := JsString.t.
Notation "'js' s" := (JsString.lit s%string) (at level 5, s at level 0, only parsing).

(* ================================================================== *)
(** ** Numbers *)

Abbreviation number := float.

Module JsNumber.

Open Scope Z_scope.

(** *** Exact values *)

(** The double nearest to the positive rational [n / d] (ties to even),
    [infinity] past the largest finite double. *)
Definition nearest_pos (n d : Z) : number :=
  let e1 := Z.log2 n - Z.log2 d - 52 in
  let q1 := if 0 <=? e1 then n / (d * 2 ^ e1) else (n * 2 ^ (- e1)) / d in
  let e2 := if q1 <? 2 ^ 52 then e1 - 1 else e1 in
  let e := Z.max e2 (-1074) in
  let num := if 0 <=? e then n else n * 2 ^ (- e) in
  let den := if 0 <=? e then d * 2 ^ e else d in
  let q := num / den in
  let r := num mod den in
  let q' := if (den <? 2 * r) || ((den =? 2 * r) && Z.odd q) then q + 1 else q in
  if 971 <? e then infinity
  else Z.ldexp (of_uint63 (Uint63.of_Z q')) e.

(** A positive finite double as the exact fraction [(n, d)]. *)
Definition fraction_of (m : positive) (e : Z) : Z * Z :=
  if 0 <=? e then (Z.pos m * 2 ^ e, 1) else (Z.pos m, 2 ^ (- e)).

Definition isNaN (x : number) : bool := is_nan x.
Definition isFinite (x : number) : bool := is_finite x.

(** [Number.isInteger]. *)
Definition isInteger (x : number) : bool :=
  match Prim2SF x with
  | S754_zero _ => true
  | S754_finite _ m e => let (n, d) := fraction_of m e in n mod d =? 0
  | _ => false
  end.

(** [Math.max] of two numbers: NaN is contagious, [+0] is above [-0]. *)
Definition max (a b : number) : number :=
  if is_nan a || is_nan b then nan
  else if (a <? b)%float then b
  else if (b <? a)%float then a
  else if get_sign a then b else a.

(** *** Decimal digits *)

Fixpoint digits_fuel (fuel : nat) (z : Z) (acc : jsstring) : jsstring :=
  match fuel with
  | O => acc
  | S fuel' =>
      let d := Z.to_N (z mod 10 + 48) in
      if z <? 10 then d :: acc else digits_fuel fuel' (z / 10) (d :: acc)
  end.

(** The decimal digits of [z >= 0], most significant first. *)
Definition digits (z : Z) : jsstring :=
  digits_fuel (S (Z.to_nat (Z.log2 z))) z [].

Definition zeros (n : Z) : jsstring := repeat 48%N (Z.to_nat n).

(** The value of a run of decimal digits. *)
Definition digits_value (ds : jsstring) : Z :=
  fold_left (fun acc c => 10 * acc + (Z.of_N c - 48)) ds 0.

(** The double for [(-1)^neg * m * 10^e10], where [m] was written with
    [len] digits: the value is computed exactly, then rounded once. *)
Definition of_decimal (neg : bool) (m len e10 : Z) : number :=
  let x :=
    if m =? 0 then zero
    else if 310 <=? e10 then infinity
    else if e10 + len <=? -330 then zero
    else if 0 <=? e10 then nearest_pos (m * 10 ^ e10) 1
    else nearest_pos m (10 ^ (- e10)) in
  if neg then (- x)%float else x.

(** *** Number::toString *)

(** The [n] with [10^(n-1) <= vn/vd < 10^n], for a positive fraction. *)
Fixpoint small_exponent (fuel : nat) (vn vd j : Z) : Z :=
  match fuel with
  | O => 1 - j
  | S fuel' =>
      if vd <=? vn * 10 ^ j then 1 - j else small_exponent fuel' vn vd (j + 1)
  end.

Definition decimal_exponent (vn vd : Z) : Z :=
  if vd <=? vn then Z.of_nat (List.length (digits (vn / vd)))
  else small_exponent 400 vn vd 1.

(** [s * 10^p] read back as a double. *)
Definition read_back (s p : Z) : number :=
  if 0 <=? p then nearest_pos (s * 10 ^ p) 1 else nearest_pos s (10 ^ (- p)).

(** The shortest digit string [s] (of [k] digits, decimal exponent [n])
    that reads back as [x]; among the two [k]-digit neighbours of the
    exact value the nearer one is preferred, the even one on a tie. *)
Fixpoint shortest (fuel : nat) (x : number) (vn vd n k : Z) : Z * Z * Z :=
  let p := n - k in
  let num := if 0 <=? p then vn else vn * 10 ^ (- p) in
  let den := if 0 <=? p then vd * 10 ^ p else vd in
  let lo := num / den in
  let r := num mod den in
  let lo_first := (2 * r <? den) || ((2 * r =? den) && Z.even lo) in
  let norm s := if s =? 10 ^ k then (n + 1, k, 10 ^ (k - 1)) else (n, k, s) in
  let ok s := (read_back s p =? x)%float in
  let first := if lo_first then lo else lo + 1 in
  let second := if lo_first then lo + 1 else lo in
  match fuel with
  | O => norm first
  | S fuel' =>
      if ok first then norm first
      else if ok second then norm second
      else shortest fuel' x vn vd n (k + 1)
  end.

(** The text of a positive finite double from its digits. *)
Definition render (n k s : Z) : jsstring :=
  let ds := digits s in
  if (k <=? n) && (n <=? 21) then ds ++ zeros (n - k)
  else if (0 <? n) && (n <=? 21) then
    firstn (Z.to_nat n) ds ++ js "." ++ skipn (Z.to_nat n) ds
  else if (-6 <? n) && (n <=? 0) then js "0." ++ zeros (- n) ++ ds
  else
    let e := n - 1 in
    let es := (if 0 <=? e then js "+" else js "-") ++ digits (Z.abs e) in
    if k =? 1 then ds ++ js "e" ++ es
    else firstn 1 ds ++ js "." ++ skipn 1 ds ++ js "e" ++ es.

Definition toString_pos (x : number) (m : positive) (e : Z) : jsstring :=
  let (vn, vd) := fraction_of m e in
  let '(n, k, s) := shortest 17 x vn vd (decimal_exponent vn vd) 1 in
  render n k s.

(** [Number.prototype.toString()] and [String(x)] for a number. *)
Definition toString (x : number) : jsstring :=
  match Prim2SF x with
  | S754_nan => js "NaN"
  | S754_zero _ => js "0"
  | S754_infinity false => js "Infinity"
  | S754_infinity true => js "-Infinity"
  | S754_finite neg m e =>
      (if neg then js "-" else []) ++ toString_pos (abs x) m e
  end.

(** *** Number.prototype.toFixed *)

(** The integer [n] (nearest to the value times [10^f], the larger one on
    a tie) written with [f] digits after the point. *)
Definition fixed_digits (f n : Z) : jsstring :=
  let m := if n =? 0 then js "0" else digits n in
  if f =? 0 then m
  else
    let k := Z.of_nat (List.length m) in
    let m' := if k <=? f then zeros (f + 1 - k) ++ m else m in
    let k' := Z.of_nat (List.length m') in
    firstn (Z.to_nat (k' - f)) m' ++ js "." ++ skipn (Z.to_nat (k' - f)) m'.

(** [x.toFixed(f)], for [0 <= f <= 100]. *)
Definition toFixed (f : Z) (x : number) : jsstring :=
  match Prim2SF x with
  | S754_nan => js "NaN"
  | S754_infinity false => js "Infinity"
  | S754_infinity true => js "-Infinity"
  | S754_zero _ => fixed_digits f 0
  | S754_finite neg m e =>
      let (vn, vd) := fraction_of m e in
      (if neg then js "-" else []) ++
      (if 10 ^ 21 * vd <=? vn then toString_pos (abs x) m e
       else fixed_digits f ((2 * vn * 10 ^ f + vd) / (2 * vd)))
  end.

(** *** parseFloat *)

Fixpoint trim_start (s : jsstring) : jsstring :=
  match s with
  | c :: s' => if JsString.is_space c then trim_start s' else s
  | [] => []
  end.

(** The leading run of digits and what follows it. *)
Fixpoint span_digits (s : jsstring) : jsstring * jsstring :=
  match s with
  | c :: s' =>
      if JsString.is_digit c
      then let (ds, rest) := span_digits s' in (c :: ds, rest)
      else ([], s)
  | [] => ([], [])
  end.

(** An optional sign: whether it is [-], and what follows it. *)
Definition take_sign (s : jsstring) : bool * jsstring :=
  match s with
  | 45%N :: s' => (true, s')
  | 43%N :: s' => (false, s')
  | _ => (false, s)
  end.

(** The exponent part [e[+-]digits] at the head of [s], 0 without one. *)
Definition exponent_part (s : jsstring) : Z :=
  match s with
  | c :: s' =>
      if (c =? 101)%N || (c =? 69)%N then
        let (eneg, s'') := take_sign s' in
        let (ds, _) := span_digits s'' in
        match ds with
        | [] => 0
        | _ => if eneg then - digits_value ds else digits_value ds
        end
      else 0
  | [] => 0
  end.

(** [parseFloat(s)]: the longest prefix of the trimmed text that is a
    decimal literal, [NaN] when there is none. *)
Definition parseFloat (s : jsstring) : number :=
  let (neg, s1) := take_sign (trim_start s) in
  if JsString.starts_with (js "Infinity") s1
  then (if neg then neg_infinity else infinity)
  else
    let (ip, r1) := span_digits s1 in
    let (fp, r2) :=
      match r1 with
      | 46%N :: r1' => span_digits r1'
      | _ => ([], r1)
      end in
    match ip ++ fp with
    | [] => nan
    | ds =>
        of_decimal neg (digits_value ds) (Z.of_nat (List.length ds))
          (exponent_part r2 - Z.of_nat (List.length fp))
    end.

(** [x || 0] for a number [x]: NaN and both zeros are falsy. *)
Definition or_zero (x : number) : number :=
  if is_nan x || is_zero x then zero else x.

End JsNumber.

(* ================================================================== *)
(** ** Objects used as string-keyed maps *)

Module JsObject.

Open Scope Z_scope.

(** The own properties of a [Record<string, number>], in creation order. *)
Definition t := list (jsstring * number).

Definition empty : t := [].

Fixpoint has (k : jsstring) (o : t) : bool :=
  match o with
  | [] => false
  | (k', _) :: o' => JsString.eqb k k' || has k o'
  end.

Fixpoint update (k : jsstring) (v : number) (o : t) : t :=
  match o with
  | [] => []
  | (k', v') :: o' =>
      if JsString.eqb k k' then (k', v) :: o' else (k', v') :: update k v o'
  end.

(** [o[k] = v] on an object created by [{}]: an existing property keeps
    its place, a new one goes last. The key [__proto__] reaches the
    inherited setter, which ignores a number and creates no property. *)
Definition set (k : jsstring) (v : number) (o : t) : t :=
  if JsString.eqb k (js "__proto__") then o
  else if has k o then update k v o
  else o ++ [(k, v)].

(** The array index a key denotes, if it is the canonical text of an
    integer below [2^32 - 1]. *)
Definition array_index (k : jsstring) : option Z :=
  match k with
  | [] => None
  | _ =>
      if forallb JsString.is_digit k
         && JsString.eqb (JsNumber.digits (JsNumber.digits_value k)) k
         && (JsNumber.digits_value k <? 2 ^ 32 - 1)
      then Some (JsNumber.digits_value k) else None
  end.

Fixpoint insert_indexed (i : Z) (e : jsstring * number)
    (l : list (Z * (jsstring * number))) : list (Z * (jsstring * number)) :=
  match l with
  | [] => [(i, e)]
  | (j, e') :: l' =>
      if i <? j then (i, e) :: l else (j, e') :: insert_indexed i e l'
  end.

Definition indexed (o : t) : list (Z * (jsstring * number)) :=
  fold_left
    (fun acc e => match array_index (fst e) with
                  | Some i => insert_indexed i e acc
                  | None => acc
                  end) o [].

Definition named (o : t) : t :=
  filter (fun e => match array_index (fst e) with Some _ => false | None => true end) o.

(** [Object.entries(o)]: array-index keys in ascending order, then the
    other keys in creation order. *)
Definition entries (o : t) : list (jsstring * number) :=
  List.map snd (indexed o) ++ named o.

End JsObject.

(* ================================================================== *)
(** ** Completions and the host engine *)

(** The outcome of a statement list inside [try]: a value, or a throw. *)
Inductive completion (A : Type) : Type :=
| Normal (a : A)
| Throw.

Arguments Normal {A} a.
Arguments Throw {A}.

Definition bind {A B : Type} (c : completion A) (k : A -> completion B) : completion B :=
  match c with
  | Normal a => k a
  | Throw => Throw
  end.

(** [try { body } catch { handler }]. *)
Definition try_catch {A : Type} (body : completion A) (handler : A) : A :=
  match body with
  | Normal a => a
  | Throw => handler
  end.

Declare Scope completion_scope.
Delimit Scope completion_scope with completion.
Notation "x <- c ;; k" := (bind c (fun x => k))
  (at level 61, c at next level, right associativity) : completion_scope.

(** What a source text can evaluate to. *)
Inductive jsvalue : Type :=
| JNumber (x : number)
| JString (s : jsstring)
| JUndefined
| JObject.

(** The three places where [App.tsx] hands a text to the engine. *)
Record Engine : Type := {
  (** [eval(src)] *)
  run_eval : jsstring -> completion jsvalue;
  (** [new Function(body)()] *)
  run_function : jsstring -> completion jsvalue;
  (** [subject.replace(new RegExp(source, 'g'), by)] *)
  regexp_replace : jsstring -> jsstring -> jsstring -> completion jsstring
}.

(* ================================================================== *)
(** ** A reference engine for closed examples *)

Module Reference.

Open Scope Z_scope.

(** *** Regular expressions made of literals and [c?] *)

Inductive atom : Type :=
| Lit (c : JsString.code_unit)
| Opt (c : JsString.code_unit).

(** The syntax characters of a pattern: [^ $ \ . * + ? ( ) [ ] { } |]. *)
Definition is_syntax_char (c : JsString.code_unit) : bool :=
  existsb (N.eqb c) [94; 36; 92; 46; 42; 43; 63; 40; 41; 91; 93; 123; 125; 124]%N.

Fixpoint compile (source : jsstring) : option (list atom) :=
  match source with
  | [] => Some []
  | c :: rest =>
      if is_syntax_char c then None
      else match rest with
           | 63%N :: rest' => option_map (cons (Opt c)) (compile rest')
           | _ => option_map (cons (Lit c)) (compile rest)
           end
  end.

(** The length of the match of [pat] at the head of [s], the optional
    atoms being greedy. *)
Fixpoint match_here (pat : list atom) (s : jsstring) : option nat :=
  match pat with
  | [] => Some O
  | Lit c :: pat' =>
      match s with
      | x :: s' => if N.eqb x c then option_map S (match_here pat' s') else None
      | [] => None
      end
  | Opt c :: pat' =>
      match s with
      | x :: s' =>
          if N.eqb x c then
            match match_here pat' s' with
            | Some n => Some (S n)
            | None => match_here pat' s
            end
          else match_here pat' s
      | [] => match_here pat' s
      end
  end.

(** Every match replaced, left to right; [skip] code units of the
    current match are still to be dropped. *)
Fixpoint replace_from (pat : list atom) (by_ : jsstring) (skip : nat)
    (s : jsstring) : jsstring :=
  match skip with
  | S k => match s with
           | _ :: s' => replace_from pat by_ k s'
           | [] => []
           end
  | O =>
      match match_here pat s with
      | Some (S n) =>
          by_ ++ match s with
                 | _ :: s' => replace_from pat by_ n s'
                 | [] => []
                 end
      | Some O =>
          by_ ++ match s with
                 | c :: s' => c :: replace_from pat by_ O s'
                 | [] => []
                 end
      | None =>
          match s with
          | c :: s' => c :: replace_from pat by_ O s'
          | [] => []
          end
      end
  end.

Definition replace (source subject by_ : jsstring) : completion jsstring :=
  match compile source with
  | Some pat => Normal (replace_from pat by_ O subject)
  | None => Throw
  end.

End Reference.

(** *** Arithmetic expressions

    The fragment of the expression grammar made of decimal literals,
    [+ - * /] (binary and unary) and parentheses, separated by blanks, and
    evaluated on doubles with the usual precedence. A text outside the
    fragment (among them [++], [--], [**], comments, a leading-zero
    integer, a [/] where an operand is due) has no value here. *)

Module Arithmetic.

Open Scope Z_scope.

Inductive token : Type :=
| TNum (x : number)
| TPlus | TMinus | TStar | TSlash | TLParen | TRParen.

(** The numeric literal at the head of [s] (which starts with a digit
    or a point) and what follows it. *)
Definition literal (s : jsstring) : option (number * jsstring) :=
  let (ip, r1) := JsNumber.span_digits s in
  let (fp, r2) :=
    match r1 with
    | 46%N :: r1' => JsNumber.span_digits r1'
    | _ => ([], r1)
    end in
  match ip ++ fp with
  | [] => None
  | ds =>
      match ip with
      | 48%N :: _ :: _ => None
      | _ => Some (JsNumber.of_decimal false (JsNumber.digits_value ds)
                     (Z.of_nat (List.length ds)) (- Z.of_nat (List.length fp)), r2)
      end
  end.

Definition next_is (c : JsString.code_unit) (s : jsstring) : bool :=
  match s with
  | x :: _ => N.eqb x c
  | [] => false
  end.

Fixpoint lex (fuel : nat) (s : jsstring) : option (list token) :=
  match fuel with
  | O => None
  | S fuel' =>
      match s with
      | [] => Some []
      | c :: s' =>
          if (c =? 32)%N || (c =? 9)%N then lex fuel' s'
          else if JsString.is_digit c || (c =? 46)%N then
            match literal s with
            | Some (x, rest) =>
                if (List.length rest <? List.length s)%nat
                then option_map (cons (TNum x)) (lex fuel' rest) else None
            | None => None
            end
          else if (c =? 43)%N then
            if next_is 43%N s' then None else option_map (cons TPlus) (lex fuel' s')
          else if (c =? 45)%N then
            if next_is 45%N s' then None else option_map (cons TMinus) (lex fuel' s')
          else if (c =? 42)%N then
            if next_is 42%N s' then None else option_map (cons TStar) (lex fuel' s')
          else if (c =? 47)%N then
            if next_is 47%N s' || next_is 42%N s' then None
            else option_map (cons TSlash) (lex fuel' s')
          else if (c =? 40)%N then option_map (cons TLParen) (lex fuel' s')
          else if (c =? 41)%N then option_map (cons TRParen) (lex fuel' s')
          else None
      end
  end.

(** Recursive descent: additive over multiplicative over unary over
    primary, each returning the value and the tokens left. *)
Fixpoint additive (fuel : nat) (ts : list token) : option (number * list token) :=
  match fuel with
  | O => None
  | S fuel' =>
      match multiplicative fuel' ts with
      | Some (x, rest) => additive_rest fuel' x rest
      | None => None
      end
  end
with additive_rest (fuel : nat) (acc : number) (ts : list token)
    : option (number * list token) :=
  match fuel with
  | O => None
  | S fuel' =>
      match ts with
      | TPlus :: ts' =>
          match multiplicative fuel' ts' with
          | Some (y, rest) => additive_rest fuel' (acc + y)%float rest
          | None => None
          end
      | TMinus :: ts' =>
          match multiplicative fuel' ts' with
          | Some (y, rest) => additive_rest fuel' (acc - y)%float rest
          | None => None
          end
      | _ => Some (acc, ts)
      end
  end
with multiplicative (fuel : nat) (ts : list token) : option (number * list token) :=
  match fuel with
  | O => None
  | S fuel' =>
      match unary fuel' ts with
      | Some (x, rest) => multiplicative_rest fuel' x rest
      | None => None
      end
  end
with multiplicative_rest (fuel : nat) (acc : number) (ts : list token)
    : option (number * list token) :=
  match fuel with
  | O => None
  | S fuel' =>
      match ts with
      | TStar :: ts' =>
          match unary fuel' ts' with
          | Some (y, rest) => multiplicative_rest fuel' (acc * y)%float rest
          | None => None
          end
      | TSlash :: ts' =>
          match unary fuel' ts' with
          | Some (y, rest) => multiplicative_rest fuel' (acc / y)%float rest
          | None => None
          end
      | _ => Some (acc, ts)
      end
  end
with unary (fuel : nat) (ts : list token) : option (number * list token) :=
  match fuel with
  | O => None
  | S fuel' =>
      match ts with
      | TPlus :: ts' => unary fuel' ts'
      | TMinus :: ts' =>
          match unary fuel' ts' with
          | Some (x, rest) => Some ((- x)%float, rest)
          | None => None
          end
      | TNum x :: ts' => Some (x, ts')
      | TLParen :: ts' =>
          match additive fuel' ts' with
          | Some (x, TRParen :: rest) => Some (x, rest)
          | _ => None
          end
      | _ => None
      end
  end.

(** The value of an arithmetic text, when it is one. *)
Definition value (src : jsstring) : option number :=
  match lex (S (List.length src)) src with
  | Some ts =>
      match additive (6 * List.length ts + 6) ts with
      | Some (x, []) => Some x
      | _ => None
      end
  | None => None
  end.

(** A text with nothing but blanks. *)
Definition blank (src : jsstring) : bool :=
  forallb JsString.is_space src.

End Arithmetic.

(** The engine that evaluates the arithmetic fragment and the patterns of
    [Reference], and rejects every other text. *)
Definition reference_eval (src : jsstring) : completion jsvalue :=
  if Arithmetic.blank src then Normal JUndefined
  else match Arithmetic.value src with
       | Some x => Normal (JNumber x)
       | None => Throw
       end.

Definition reference_engine : Engine := {|
  run_eval := reference_eval;
  run_function body :=
    if JsString.starts_with (js "return ") body
    then reference_eval (skipn 7 body) else Throw;
  regexp_replace := Reference.replace
|}.

(** An engine agrees with the language on the arithmetic fragment. *)
Definition evaluates_arithmetic (E : Engine) : Prop :=
  forall src x, Arithmetic.value src = Some x ->
    run_eval E src = Normal (JNumber x) /\
    run_function E (js "return " ++ src) = Normal (JNumber x).

(** An engine replaces the patterns of [Reference] as the language does,
    for a replacement text without [$]. *)
Definition replaces_patterns (E : Engine) : Prop :=
  forall source subject by_ pat,
    Reference.compile source = Some pat ->
    forallb (fun c => negb (c =? 36)%N) by_ = true ->
    regexp_replace E source subject by_ = Normal (Reference.replace_from pat by_ O subject).

(* ================================================================== *)
(** ** The formula evaluator and validator *)

Section Formula.

Variable E : Engine.

Open Scope completion_scope.

(** The loop of [evaluateFormula]: each entry's key, its first [_] made
    optional, is a global pattern replaced by the value's text. *)
Fixpoint substitute (expression : jsstring)
    (entries : list (jsstring * number)) : completion jsstring :=
  match entries with
  | [] => Normal expression
  | (key, value) :: entries' =>
      expression' <- regexp_replace E
                       (JsString.replace_first (js "_") (js "_?") key)
                       expression (JsNumber.toString value) ;;
      substitute expression' entries'
  end.

(** The class [[\d\s+\-*/().]]. *)
Definition formula_char (c : JsString.code_unit) : bool :=
  JsString.is_digit c || JsString.is_space c
  || existsb (N.eqb c) [43; 45; 42; 47; 40; 41; 46]%N.

(** [/^[\d\s+\-*/().]+$/.test(s)] *)
Definition formula_test (s : jsstring) : bool :=
  match s with
  | [] => false
  | _ => forallb formula_char s
  end.

(** [s.replace(/\s/g, '')] *)
Definition strip_spaces (s : jsstring) : jsstring :=
  filter (fun c => negb (JsString.is_space c)) s.

(** The body of the [try] block of [evaluateFormula]. *)
Definition evaluateFormula_body (formula : jsstring)
    (variables : JsObject.t) : completion number :=
  expression <- substitute formula (JsObject.entries variables) ;;
  if negb (formula_test (strip_spaces expression)) then Throw
  else
    result <- run_function E (js "return " ++ expression) ;;
    Normal (match result with
            | JNumber r => if JsNumber.isFinite r then r else zero
            | _ => zero
            end).

Definition evaluateFormula (formula : jsstring) (variables : JsObject.t) : number :=
  try_catch (evaluateFormula_body formula variables) zero.

(** [requiredVars.forEach(v => testVars[v] = 100)] *)
Definition testVars (requiredVars : list jsstring) : JsObject.t :=
  fold_left (fun o v => JsObject.set v 100%float o) requiredVars JsObject.empty.

(** The first loop of [validateFormula]: [false] is returned at the first
    required name the formula does not include. *)
Fixpoint all_included (formula : jsstring) (requiredVars : list jsstring) : bool :=
  match requiredVars with
  | [] => true
  | varName :: rest =>
      if negb (JsString.includes formula varName) then false
      else all_included formula rest
  end.

Definition validateFormula (formula : jsstring) (requiredVars : list jsstring) : bool :=
  if negb (all_included formula requiredVars) then false
  else
    let result := evaluateFormula formula (testVars requiredVars) in
    negb (JsNumber.isNaN result) && JsNumber.isFinite result.

End Formula.

(* ================================================================== *)
(** ** Rate configuration and the rate pipeline *)

Record Settings : Type := {
  logo : jsstring;
  minBilling : number;
  sellRatePercent : number;
  buyRateMultiplier : number;
  pgaMultiplier : number;
  standardBuyFormula : jsstring;
  standardSellFormula : jsstring;
  pgaBuyFormula : jsstring;
  pgaSellFormula : jsstring
}.

Definition DEFAULT_SETTINGS : Settings := {|
  logo := js "logo.png";
  minBilling := 65.00;
  sellRatePercent := 0.40;
  buyRateMultiplier := 0.99;
  pgaMultiplier := 3;
  standardBuyFormula := js "((invoice_value + duties) * 0.99) / 1000";
  standardSellFormula := js "((invoice_value + duties) * 0.40) / 100";
  pgaBuyFormula :=
    js "(((invoice_value_with_pga * 3) + invoice_value_without_pga) * 0.99) / 1000";
  pgaSellFormula :=
    js "(((invoice_value_with_pga * 3) + invoice_value_without_pga) * 0.40) / 100"
|}.

(** The memo [withoutPgaAmount]: the text of the sum of the two fields. *)
Definition withoutPgaAmount (invoiceWithoutPga dutiesWithoutPga : jsstring) : jsstring :=
  let inv := JsNumber.or_zero (JsNumber.parseFloat invoiceWithoutPga) in
  let dut := JsNumber.or_zero (JsNumber.parseFloat dutiesWithoutPga) in
  JsNumber.toString (inv + dut)%float.

Record SellResults : Type := {
  buy : jsstring;
  sell : jsstring;
  isBelowMin : bool;
  sellWarning : option jsstring
}.

(** The template literal of the warning. *)
Definition warning_text (adminSettings : Settings) : jsstring :=
  js "Note: A minimum billing of $"
  ++ JsNumber.toFixed 2 (minBilling adminSettings)
  ++ js " usually applies.".

(** The memo [withoutPgaResults]. *)
Definition withoutPgaResults (adminSettings : Settings)
    (withoutPgaAmount : jsstring) : SellResults :=
  let amount := JsNumber.or_zero (JsNumber.parseFloat withoutPgaAmount) in
  let sellVal := ((amount * sellRatePercent adminSettings) / 100)%float in
  let isBelowMin := (0 <? amount)%float && (sellVal <? minBilling adminSettings)%float in
  {| buy := JsNumber.toFixed 6 ((amount * buyRateMultiplier adminSettings) / 1000)%float;
     sell := JsNumber.toFixed 6 sellVal;
     isBelowMin := isBelowMin;
     sellWarning := if isBelowMin then Some (warning_text adminSettings) else None |}.

(** The standard-entry pipeline: the two memos in sequence. *)
Definition standard_entry (adminSettings : Settings)
    (invoiceWithoutPga dutiesWithoutPga : jsstring) : SellResults :=
  withoutPgaResults adminSettings (withoutPgaAmount invoiceWithoutPga dutiesWithoutPga).

Record TestResults : Type := {
  test_buy : jsstring;
  test_sell : jsstring
}.

(** The memo [testResults] of the admin sandbox. *)
Definition testResults (tempSettings : Settings) : TestResults :=
  let testValue := 10000%float in
  let buy := JsNumber.toFixed 6 ((testValue * buyRateMultiplier tempSettings) / 1000)%float in
  let sellVal := ((testValue * sellRatePercent tempSettings) / 100)%float in
  let sell := JsNumber.toFixed 6 (JsNumber.max (minBilling tempSettings) sellVal) in
  {| test_buy := buy; test_sell := sell |}.

(* ================================================================== *)
(** ** The admin commit *)

(** The part of the component state [saveSettings] reads and writes. *)
Record AdminState : Type := {
  adminSettings : Settings;
  tempSettings : Settings;
  (** the item [teu_admin_settings] of [localStorage], before serialisation *)
  stored : option Settings;
  showAdminPanel : bool;
  isLoading : bool;
  (** the messages shown by [alert], oldest first *)
  alerts : list jsstring
}.

Record Validation : Type := {
  formula : jsstring;
  vars : list jsstring;
  name : jsstring
}.

Definition validations (tempSettings : Settings) : list Validation :=
  [ {| formula := standardBuyFormula tempSettings;
       vars := [js "invoice_value"; js "duties"];
       name := js "Standard Buy Formula" |};
    {| formula := standardSellFormula tempSettings;
       vars := [js "invoice_value"; js "duties"];
       name := js "Standard Sell Formula" |};
    {| formula := pgaBuyFormula tempSettings;
       vars := [js "invoice_value_with_pga"; js "invoice_value_without_pga"];
       name := js "PGA Buy Formula" |};
    {| formula := pgaSellFormula tempSettings;
       vars := [js "invoice_value_with_pga"; js "invoice_value_without_pga"];
       name := js "PGA Sell Formula" |} ].

(** The validation loop: the name of the first formula that fails. *)
Fixpoint first_invalid (E : Engine) (vs : list Validation) : option jsstring :=
  match vs with
  | [] => None
  | v :: vs' =>
      if negb (validateFormula E (formula v) (vars v)) then Some (name v)
      else first_invalid E vs'
  end.

Definition invalid_message (name : jsstring) : jsstring :=
  js "Invalid " ++ name
  ++ js ". Please check the formula syntax and ensure all required variables are included.".

Definition saveSettings (E : Engine) (st : AdminState) : AdminState :=
  match first_invalid E (validations (tempSettings st)) with
  | Some name =>
      {| adminSettings := adminSettings st;
         tempSettings := tempSettings st;
         stored := stored st;
         showAdminPanel := showAdminPanel st;
         isLoading := isLoading st;
         alerts := alerts st ++ [invalid_message name] |}
  | None =>
      {| adminSettings := tempSettings st;
         tempSettings := tempSettings st;
         stored := Some (tempSettings st);
         showAdminPanel := false;
         isLoading := true;
         alerts := alerts st |}
  end.

(* ================================================================== *)
(** ** The quick calculator *)

Record CalcState : Type := {
  calcDisplay : jsstring;
  calcExpression : jsstring;
  calcMemory : option number;
  calcHistory : list jsstring
}.

Definition initial_calc : CalcState := {|
  calcDisplay := js "0";
  calcExpression := [];
  calcMemory := None;
  calcHistory := []
|}.

Definition with_display_expression (st : CalcState) (d e : jsstring) : CalcState :=
  {| calcDisplay := d; calcExpression := e;
     calcMemory := calcMemory st; calcHistory := calcHistory st |}.

Definition with_memory (st : CalcState) (m : option number) : CalcState :=
  {| calcDisplay := calcDisplay st; calcExpression := calcExpression st;
     calcMemory := m; calcHistory := calcHistory st |}.

(** The glyphs of the multiplication and division keys. *)
Definition times_glyph : JsString.code_unit := 215%N.
Definition divide_glyph : JsString.code_unit := 247%N.

(** The class [[+\-×÷*/]] that splits the expression into tokens. *)
Definition token_separator (c : JsString.code_unit) : bool :=
  existsb (N.eqb c) [43; 45; times_glyph; divide_glyph; 42; 47]%N.

(** [calcExpression.split(/[+\-×÷*/]/).pop() || ''] *)
Definition lastToken (calcExpression : jsstring) : jsstring :=
  last (JsString.split_on token_separator calcExpression) [].

(** The class [[0-9+\-*/.]]; [=] throws on any character outside it. *)
Definition calc_char (c : JsString.code_unit) : bool :=
  JsString.is_digit c || existsb (N.eqb c) [43; 45; 42; 47; 46]%N.

(** [calcExpression.replace(/×/g, '*').replace(/÷/g, '/')] *)
Definition cleanExpr (calcExpression : jsstring) : jsstring :=
  JsString.replace_all_unit divide_glyph (js "/")
    (JsString.replace_all_unit times_glyph (js "*") calcExpression).

(** The [try] block of the [=] branch: the text shown on success. *)
Definition equals_body (E : Engine) (calcExpression : jsstring) : completion jsstring :=
  (let clean := cleanExpr calcExpression in
   if existsb (fun c => negb (calc_char c)) clean then Throw
   else
     result <- run_eval E clean ;;
     match result with
     | JNumber r =>
         let roundedResult :=
           if JsNumber.isInteger r then r
           else JsNumber.parseFloat (JsNumber.toFixed 8 r) in
         Normal (JsNumber.toString roundedResult)
     | _ => Throw
     end)%completion.

Definition is_operator (val : jsstring) : bool :=
  existsb (JsString.eqb val)
    [js "+"; js "-"; [times_glyph]; [divide_glyph]].

Definition handleCalcBtn (E : Engine) (val : jsstring) (st : CalcState) : CalcState :=
  if JsString.eqb val (js "C") then
    with_display_expression st (js "0") []
  else if JsString.eqb val (js "Backspace") then
    with_display_expression st
      (if (1 <? List.length (calcDisplay st))%nat
       then JsString.drop_last (calcDisplay st) else js "0")
      (JsString.drop_last (calcExpression st))
  else if JsString.eqb val (js "MC") then
    with_memory st None
  else if JsString.eqb val (js "MR") then
    match calcMemory st with
    | Some m => with_display_expression st (JsNumber.toString m) (JsNumber.toString m)
    | None => st
    end
  else if JsString.eqb val (js "MS") then
    let value := JsNumber.parseFloat (calcDisplay st) in
    if negb (JsNumber.isNaN value) then with_memory st (Some value) else st
  else if JsString.eqb val (js "M+") then
    let value := JsNumber.parseFloat (calcDisplay st) in
    if negb (JsNumber.isNaN value) then
      with_memory st (Some match calcMemory st with
                           | Some prev => (prev + value)%float
                           | None => value
                           end)
    else st
  else if JsString.eqb val (js ".") then
    if negb (JsString.includes (lastToken (calcExpression st)) (js ".")) then
      with_display_expression st
        (if JsString.eqb (calcDisplay st) (js "0")
            || JsString.eqb (calcDisplay st) (js "Error")
         then js "0." else calcDisplay st ++ js ".")
        (if JsString.eqb (calcExpression st) [] then js "0."
         else calcExpression st ++ js ".")
    else st
  else if JsString.eqb val (js "=") then
    match equals_body E (calcExpression st) with
    | Normal shown => with_display_expression st shown shown
    | Throw => with_display_expression st (js "Error") []
    end
  else
    if JsString.eqb (calcDisplay st) (js "0") && negb (is_operator val) then
      with_display_expression st val val
    else
      with_display_expression st
        (if JsString.eqb (calcDisplay st) (js "Error") then val
         else calcDisplay st ++ val)
        (calcExpression st ++ val).

(** A sequence of button presses, first to last. *)
Definition press (E : Engine) (vals : list jsstring) (st : CalcState) : CalcState :=
  fold_left (fun s v => handleCalcBtn E v s) vals st.


(* ================================================================== *)
(** ** The statements of the specification

    The definitions below follow the words of the specification, to be
    compared with the definitions above, which follow the source. *)

(** Standard entry (section 4.3) for a base amount: sell, buy, the
    advisory flag and its warning, nothing clamped. *)
Definition sell_value (config : Settings) (baseAmount : number) : number :=
  ((baseAmount * sellRatePercent config) / 100)%float.

Definition buy_value (config : Settings) (baseAmount : number) : number :=
  ((baseAmount * buyRateMultiplier config) / 1000)%float.

Definition below_minimum (config : Settings) (baseAmount : number) : bool :=
  (0 <? baseAmount)%float && (sell_value config baseAmount <? minBilling config)%float.

Definition standard_results_for (config : Settings) (baseAmount : number) : SellResults :=
  {| buy := JsNumber.toFixed 6 (buy_value config baseAmount);
     sell := JsNumber.toFixed 6 (sell_value config baseAmount);
     isBelowMin := below_minimum config baseAmount;
     sellWarning := if below_minimum config baseAmount
                    then Some (warning_text config) else None |}.

(** A finite number of magnitude below [10^21]: the range in which
    [toFixed] writes plain decimals. *)
Definition plain_range (x : number) : bool :=
  match Prim2SF x with
  | S754_zero _ => true
  | S754_finite _ m e =>
      let (vn, vd) := JsNumber.fraction_of m e in (vn <? 10 ^ 21 * vd)%Z
  | _ => false
  end.

(** A text with exactly six digits after its decimal point: an optional
    minus sign, at least one digit, the point, six digits. *)
Definition six_decimals (s : jsstring) : Prop :=
  exists sign whole frac,
    s = sign ++ whole ++ js "." ++ frac
    /\ (sign = [] \/ sign = js "-")
    /\ whole <> []
    /\ forallb JsString.is_digit whole = true
    /\ forallb JsString.is_digit frac = true
    /\ List.length frac = 6%nat.

(** The standard-entry results of the example of section 8. *)
Definition example_results : SellResults := {|
  buy := js "0.990000";
  sell := js "4.000000";
  isBelowMin := true;
  sellWarning := Some (js "Note: A minimum billing of $65.00 usually applies.")
|}.

(** [baseAmount = invoiceValue + duties] (unparseable inputs -> 0). *)
Definition claimed_base_amount (invoice duties : jsstring) : number :=
  (JsNumber.or_zero (JsNumber.parseFloat invoice) + JsNumber.or_zero (JsNumber.parseFloat duties))%float.

(** A number printed and read again, an unreadable text counting as 0:
    what a memo that keeps a number as text hands to the next one. *)
Definition reread (x : number) : number :=
  JsNumber.or_zero (JsNumber.parseFloat (JsNumber.toString x)).

(** The character set the specification gives for the evaluator's gate:
    digits, whitespace, [+ - * / ( )]. *)
Definition claimed_formula_char (c : JsString.code_unit) : bool :=
  JsString.is_digit c || JsString.is_space c
  || existsb (N.eqb c) [43; 45; 42; 47; 40; 41]%N.

(** The gate as claimed, for one call of the evaluator. *)
Definition gate_as_claimed (E : Engine) (formula : jsstring) (variables : JsObject.t) : Prop :=
  forall expression,
    substitute E formula (JsObject.entries variables) = Normal expression ->
    existsb (fun c => negb (claimed_formula_char c)) expression = true ->
    evaluateFormula E formula variables = zero.

(** The text [evaluateFormula] hands to [new Function], when it gets
    that far. *)
Definition evaluated_expression (E : Engine) (formula : jsstring)
    (variables : JsObject.t) : option jsstring :=
  match substitute E formula (JsObject.entries variables) with
  | Normal expression =>
      if formula_test (strip_spaces expression) then Some expression else None
  | Throw => None
  end.

(** Every occurrence of a name replaced by a text. *)
Definition replace_name (name by_ s : jsstring) : jsstring :=
  Reference.replace_from (List.map Reference.Lit name) by_ O s.

Fixpoint insert_longest_first (e : jsstring * number)
    (l : list (jsstring * number)) : list (jsstring * number) :=
  match l with
  | [] => [e]
  | e' :: l' =>
      if (List.length (fst e') <? List.length (fst e))%nat then e :: l
      else e' :: insert_longest_first e l'
  end.

(** Substitution as the specification requires it (section 4.1): every
    occurrence of each name, the longest name first. *)
Definition intended_substitute (formula : jsstring)
    (entries : list (jsstring * number)) : jsstring :=
  fold_left (fun s e => replace_name (fst e) (JsNumber.toString (snd e)) s)
    (fold_right insert_longest_first [] entries) formula.

(** The calculator's error state: the sentinel on the display, the
    expression cleared, memory and history as they were. *)
Definition error_state (st : CalcState) : CalcState :=
  with_display_expression st (js "Error") [].

(** The text of a result: an integer as it is, any other number rounded
    to 8 decimals. *)
Definition shown (r : number) : jsstring :=
  JsNumber.toString
    (if JsNumber.isInteger r then r
     else JsNumber.parseFloat (JsNumber.toFixed 8 r)).

(** The [=] event as claimed: an illegal character gives the error
    state, any other expression a numeric result. *)
Definition equals_as_claimed (E : Engine) (st : CalcState) : Prop :=
  let clean := cleanExpr (calcExpression st) in
  if existsb (fun c => negb (calc_char c)) clean
  then handleCalcBtn E (js "=") st = error_state st
  else exists r, run_eval E clean = Normal (JNumber r) /\
                 handleCalcBtn E (js "=") st = with_display_expression st (shown r) (shown r).

(** A token as the specification defines it: the run of characters
    since the last operator or parenthesis. *)
Definition claimed_separator (c : JsString.code_unit) : bool :=
  token_separator c || (c =? 40)%N || (c =? 41)%N.

Definition claimed_token (calcExpression : jsstring) : jsstring :=
  last (JsString.split_on claimed_separator calcExpression) [].

(** The expression once a decimal point is accepted. *)
Definition with_point (calcExpression : jsstring) : jsstring :=
  if JsString.eqb calcExpression [] then js "0." else calcExpression ++ js ".".

(** The decimal-point event as claimed. *)
Definition point_as_claimed (E : Engine) (st : CalcState) : Prop :=
  if JsString.includes (claimed_token (calcExpression st)) (js ".")
  then handleCalcBtn E (js ".") st = st
  else calcExpression (handleCalcBtn E (js ".") st) = with_point (calcExpression st).

(** The fragment injected by the square-root quick function. *)
Definition sqrt_fragment : jsstring := js "Math.sqrt(".

(** The square-root key as claimed: the fragment is appended. *)
Definition sqrt_appends_as_claimed (E : Engine) (st : CalcState) : Prop :=
  calcExpression (handleCalcBtn E sqrt_fragment st) = calcExpression st ++ sqrt_fragment.

(** The four validations of the commit, one by one. *)
Definition all_four_valid (E : Engine) (draft : Settings) : bool :=
  validateFormula E (standardBuyFormula draft) [js "invoice_value"; js "duties"]
  && validateFormula E (standardSellFormula draft) [js "invoice_value"; js "duties"]
  && validateFormula E (pgaBuyFormula draft)
       [js "invoice_value_with_pga"; js "invoice_value_without_pga"]
  && validateFormula E (pgaSellFormula draft)
       [js "invoice_value_with_pga"; js "invoice_value_without_pga"].

(** The result test of the validator: [!isNaN(result) && isFinite(result)]. *)
Definition finite_number (result : number) : bool :=
  negb (JsNumber.isNaN result) && JsNumber.isFinite result.

(** States and bindings of the examples. *)
Definition after_seven_plus : CalcState :=
  {| calcDisplay := js "7+"; calcExpression := js "7+";
     calcMemory := None; calcHistory := [] |}.

Definition after_zero : CalcState :=
  {| calcDisplay := js "0"; calcExpression := js "0";
     calcMemory := None; calcHistory := [] |}.

Definition after_sqrt : CalcState :=
  {| calcDisplay := sqrt_fragment; calcExpression := sqrt_fragment;
     calcMemory := None; calcHistory := [] |}.

Definition colliding_variables : JsObject.t :=
  JsObject.set (js "invoice_value_with_pga") 7%float
    (JsObject.set (js "invoice_value") 5%float JsObject.empty).

Definition draft_without_duties : Settings := {|
  logo := logo DEFAULT_SETTINGS;
  minBilling := 10;
  sellRatePercent := 1;
  buyRateMultiplier := 2;
  pgaMultiplier := 4;
  standardBuyFormula := js "invoice_value * 2";
  standardSellFormula := standardSellFormula DEFAULT_SETTINGS;
  pgaBuyFormula := pgaBuyFormula DEFAULT_SETTINGS;
  pgaSellFormula := pgaSellFormula DEFAULT_SETTINGS
|}.

Definition editing_state : AdminState := {|
  adminSettings := DEFAULT_SETTINGS;
  tempSettings := draft_without_duties;
  stored := None;
  showAdminPanel := true;
  isLoading := false;
  alerts := []
|}.


(* ================================================================== *)
(** ** The PGA entry, the input form and the result panel *)

(** The memo [withPgaBuyBondValue]. *)
Definition withPgaBuyBondValue (adminSettings : Settings)
    (buyInvoiceWithPga buyInvoiceWithoutPga : jsstring) : jsstring :=
  let withVal := JsNumber.or_zero (JsNumber.parseFloat buyInvoiceWithPga) in
  let withoutVal := JsNumber.or_zero (JsNumber.parseFloat buyInvoiceWithoutPga) in
  JsNumber.toString ((withVal * pgaMultiplier adminSettings) + withoutVal)%float.

(** The memo [withPgaSellBondValue]. *)
Definition withPgaSellBondValue (adminSettings : Settings)
    (sellInvoiceWithPga sellInvoiceWithoutPga : jsstring) : jsstring :=
  let withVal := JsNumber.or_zero (JsNumber.parseFloat sellInvoiceWithPga) in
  let withoutVal := JsNumber.or_zero (JsNumber.parseFloat sellInvoiceWithoutPga) in
  JsNumber.toString ((withVal * pgaMultiplier adminSettings) + withoutVal)%float.

Record BuyResults : Type := {
  pga_buy : jsstring
}.

(** The memo [withPgaBuyResults]. *)
Definition withPgaBuyResults (adminSettings : Settings)
    (withPgaBuyBondValue : jsstring) : BuyResults :=
  let base := JsNumber.or_zero (JsNumber.parseFloat withPgaBuyBondValue) in
  {| pga_buy := JsNumber.toFixed 6 ((base * buyRateMultiplier adminSettings) / 1000)%float |}.

Record PgaSellResults : Type := {
  pga_sell : jsstring;
  pga_isBelowMin : bool;
  pga_sellWarning : option jsstring
}.

(** The memo [withPgaSellResults]. *)
Definition withPgaSellResults (adminSettings : Settings)
    (withPgaSellBondValue : jsstring) : PgaSellResults :=
  let base := JsNumber.or_zero (JsNumber.parseFloat withPgaSellBondValue) in
  let sellVal := ((base * sellRatePercent adminSettings) / 100)%float in
  let isBelowMin := (0 <? base)%float && (sellVal <? minBilling adminSettings)%float in
  {| pga_sell := JsNumber.toFixed 6 sellVal;
     pga_isBelowMin := isBelowMin;
     pga_sellWarning := if isBelowMin then Some (warning_text adminSettings) else None |}.

(** The six input fields and the busy indicator. *)
Record Inputs : Type := {
  invoiceWithoutPga : jsstring;
  dutiesWithoutPga : jsstring;
  buyInvoiceWithoutPga : jsstring;
  buyInvoiceWithPga : jsstring;
  sellInvoiceWithoutPga : jsstring;
  sellInvoiceWithPga : jsstring;
  inputsLoading : bool
}.

(** [handleClear]: every field emptied, the busy indicator raised. *)
Definition handleClear (inputs : Inputs) : Inputs := {|
  invoiceWithoutPga := [];
  dutiesWithoutPga := [];
  buyInvoiceWithoutPga := [];
  buyInvoiceWithPga := [];
  sellInvoiceWithoutPga := [];
  sellInvoiceWithPga := [];
  inputsLoading := true
|}.

(** The state [activeTab]. *)
Inductive Tab : Type := TabWithout | TabWith.

(** The buy amount of the result panel:
    [activeTab === 'without' ? withoutPgaResults.buy : withPgaBuyResults.buy]. *)
Definition shown_buy (activeTab : Tab) (adminSettings : Settings) (inputs : Inputs) : jsstring :=
  match activeTab with
  | TabWithout =>
      buy (withoutPgaResults adminSettings
             (withoutPgaAmount (invoiceWithoutPga inputs) (dutiesWithoutPga inputs)))
  | TabWith =>
      pga_buy (withPgaBuyResults adminSettings
                 (withPgaBuyBondValue adminSettings
                    (buyInvoiceWithPga inputs) (buyInvoiceWithoutPga inputs)))
  end.

(** The sell amount of the result panel. *)
Definition shown_sell (activeTab : Tab) (adminSettings : Settings) (inputs : Inputs) : jsstring :=
  match activeTab with
  | TabWithout =>
      sell (withoutPgaResults adminSettings
              (withoutPgaAmount (invoiceWithoutPga inputs) (dutiesWithoutPga inputs)))
  | TabWith =>
      pga_sell (withPgaSellResults adminSettings
                  (withPgaSellBondValue adminSettings
                     (sellInvoiceWithPga inputs) (sellInvoiceWithoutPga inputs)))
  end.

(** The warning of the result panel, when there is one. *)
Definition shown_warning (activeTab : Tab) (adminSettings : Settings)
    (inputs : Inputs) : option jsstring :=
  match activeTab with
  | TabWithout =>
      sellWarning (withoutPgaResults adminSettings
                     (withoutPgaAmount (invoiceWithoutPga inputs) (dutiesWithoutPga inputs)))
  | TabWith =>
      pga_sellWarning (withPgaSellResults adminSettings
                         (withPgaSellBondValue adminSettings
                            (sellInvoiceWithPga inputs) (sellInvoiceWithoutPga inputs)))
  end.

(** A configuration whose three rates and multiplier are finite numbers. *)
Definition finite_rates (config : Settings) : Prop :=
  JsNumber.isFinite (sellRatePercent config) = true
  /\ JsNumber.isFinite (buyRateMultiplier config) = true
  /\ JsNumber.isFinite (pgaMultiplier config) = true.

(* ================================================================== *)
(** ** The admin panel: password prompt and reset *)

(** The admin state together with the password prompt. *)
Record PanelState : Type := {
  panel : AdminState;
  adminPassword : jsstring;
  showPasswordPrompt : bool
}.

Definition checkPassword (p : PanelState) : PanelState :=
  if JsString.eqb (adminPassword p) (js "332") then
    {| panel :=
         {| adminSettings := adminSettings (panel p);
            tempSettings := adminSettings (panel p);
            stored := stored (panel p);
            showAdminPanel := true;
            isLoading := isLoading (panel p);
            alerts := alerts (panel p) |};
       adminPassword := [];
       showPasswordPrompt := false |}
  else
    {| panel :=
         {| adminSettings := adminSettings (panel p);
            tempSettings := tempSettings (panel p);
            stored := stored (panel p);
            showAdminPanel := showAdminPanel (panel p);
            isLoading := isLoading (panel p);
            alerts := alerts (panel p) ++ [js "Unauthorized access attempt logged."] |};
       adminPassword := [];
       showPasswordPrompt := showPasswordPrompt p |}.

(** [resetToDefault], [confirmed] being the answer to the confirmation. *)
Definition resetToDefault (confirmed : bool) (st : AdminState) : AdminState :=
  if confirmed then
    {| adminSettings := adminSettings st;
       tempSettings := DEFAULT_SETTINGS;
       stored := stored st;
       showAdminPanel := showAdminPanel st;
       isLoading := isLoading st;
       alerts := alerts st |}
  else st.

(** The eight textual tests a draft has to pass. *)
Definition names_present (draft : Settings) : bool :=
  JsString.includes (standardBuyFormula draft) (js "invoice_value")
  && JsString.includes (standardBuyFormula draft) (js "duties")
  && JsString.includes (standardSellFormula draft) (js "invoice_value")
  && JsString.includes (standardSellFormula draft) (js "duties")
  && JsString.includes (pgaBuyFormula draft) (js "invoice_value_with_pga")
  && JsString.includes (pgaBuyFormula draft) (js "invoice_value_without_pga")
  && JsString.includes (pgaSellFormula draft) (js "invoice_value_with_pga")
  && JsString.includes (pgaSellFormula draft) (js "invoice_value_without_pga").

(* ================================================================== *)
(** ** The keyboard of the calculator *)

(** [key.toLowerCase() === 'c']: the only texts whose lower case is [c]
    are [c] and [C]. *)
Definition lower_case_is_c (key : jsstring) : bool :=
  JsString.eqb key (js "c") || JsString.eqb key (js "C").

(** The [keydown] listener; [targetIsInput] tells whether the event
    comes from an input field. *)
Definition handleKeydown (E : Engine) (targetIsInput : bool) (key : jsstring)
    (st : CalcState) : CalcState :=
  if targetIsInput then st
  else if existsb JsString.is_digit key then handleCalcBtn E key st
  else if JsString.eqb key (js "+") then handleCalcBtn E (js "+") st
  else if JsString.eqb key (js "-") then handleCalcBtn E (js "-") st
  else if JsString.eqb key (js "*") then handleCalcBtn E [times_glyph] st
  else if JsString.eqb key (js "/") then handleCalcBtn E [divide_glyph] st
  else if JsString.eqb key (js "Enter") || JsString.eqb key (js "=")
  then handleCalcBtn E (js "=") st
  else if lower_case_is_c key || JsString.eqb key (js "Escape")
  then handleCalcBtn E (js "C") st
  else if JsString.eqb key (js "Backspace") then handleCalcBtn E (js "Backspace") st
  else st.

(** The three keys that write the memory. *)
Definition writes_memory (val : jsstring) : bool :=
  JsString.eqb val (js "MC") || JsString.eqb val (js "MS") || JsString.eqb val (js "M+").

(** The four memory keys. *)
Definition memory_key (val : jsstring) : bool :=
  writes_memory val || JsString.eqb val (js "MR").

(** A one-unit key that enters its character: not [C], [.] or [=]. *)
Definition entry_unit (c : JsString.code_unit) : bool :=
  negb ((c =? 67)%N || (c =? 46)%N || (c =? 61)%N).

(** Two configurations with the same four numeric parameters. *)
Definition same_numbers (c1 c2 : Settings) : Prop :=
  minBilling c1 = minBilling c2
  /\ sellRatePercent c1 = sellRatePercent c2
  /\ buyRateMultiplier c1 = buyRateMultiplier c2
  /\ pgaMultiplier c1 = pgaMultiplier c2.

(** A field whose text does not read as a number. *)
Definition unreadable (text : jsstring) : Prop :=
  JsNumber.isNaN (JsNumber.parseFloat text) = true.

(** A form in which no field reads as a number. *)
Definition nothing_readable (inputs : Inputs) : Prop :=
  unreadable (invoiceWithoutPga inputs) /\ unreadable (dutiesWithoutPga inputs)
  /\ unreadable (buyInvoiceWithoutPga inputs) /\ unreadable (buyInvoiceWithPga inputs)
  /\ unreadable (sellInvoiceWithoutPga inputs) /\ unreadable (sellInvoiceWithPga inputs).

(* ================================================================== *)
(** ** Amounts beyond the plain range *)

(** The code units of a plain decimal text: digits, the point, the
    minus sign. *)
Definition decimal_char (c : JsString.code_unit) : bool :=
  JsString.is_digit c || (c =? 46)%N || (c =? 45)%N.

(** The standard entry as claimed (section 4.3): the results of the sum
    of the two fields, both amounts with six decimals. *)
Definition standard_entry_as_claimed (config : Settings)
    (invoice duties : jsstring) : Prop :=
  standard_entry config invoice duties
  = standard_results_for config (claimed_base_amount invoice duties)
  /\ six_decimals (sell (standard_entry config invoice duties))
  /\ six_decimals (buy (standard_entry config invoice duties)).

(** The sandbox as claimed: the clamped sell and the buy of the probe
    amount, both with six decimals. *)
Definition sandbox_as_claimed (draft : Settings) : Prop :=
  test_sell (testResults draft)
  = JsNumber.toFixed 6 (JsNumber.max (minBilling draft) (sell_value draft 10000))
  /\ six_decimals (test_sell (testResults draft))
  /\ test_buy (testResults draft) = JsNumber.toFixed 6 (buy_value draft 10000)
  /\ six_decimals (test_buy (testResults draft)).

(** A draft an operator can type into the admin panel: the default one
    with a minimum billing of [1e21]. *)
Definition draft_with_large_minimum : Settings := {|
  logo := logo DEFAULT_SETTINGS;
  minBilling := 1e21;
  sellRatePercent := sellRatePercent DEFAULT_SETTINGS;
  buyRateMultiplier := buyRateMultiplier DEFAULT_SETTINGS;
  pgaMultiplier := pgaMultiplier DEFAULT_SETTINGS;
  standardBuyFormula := standardBuyFormula DEFAULT_SETTINGS;
  standardSellFormula := standardSellFormula DEFAULT_SETTINGS;
  pgaBuyFormula := pgaBuyFormula DEFAULT_SETTINGS;
  pgaSellFormula := pgaSellFormula DEFAULT_SETTINGS
|}.

(* ================================================================== *)
(** ** Names and their replacement *)

(** The texts a pattern of [Reference] matches. *)
Fixpoint words (pat : list Reference.atom) : list jsstring :=
  match pat with
  | [] => [[]]
  | Reference.Lit c :: pat' => List.map (cons c) (words pat')
  | Reference.Opt c :: pat' => List.map (cons c) (words pat') ++ words pat'
  end.

(** The two spellings the pattern of a variable matches: the name, and
    the name without its first underscore. *)
Definition spellings (name : jsstring) : list jsstring :=
  [name; JsString.replace_first (js "_") [] name].

(** [replaced names by_ s r]: the text [r] is the text [s] in which some
    occurrences of the [names] are replaced by [by_], everything else
    being kept. *)
Inductive replaced (names : list jsstring) (by_ : jsstring) : jsstring -> jsstring -> Prop :=
| replaced_end : replaced names by_ [] []
| replaced_keep (c : JsString.code_unit) (s r : jsstring) :
    replaced names by_ s r -> replaced names by_ (c :: s) (c :: r)
| replaced_name (w s r : jsstring) :
    In w names -> replaced names by_ s r -> replaced names by_ (w ++ s) (by_ ++ r).

(** No code unit of [by_] occurs in [w]. *)
Definition apart (by_ w : jsstring) : bool :=
  forallb (fun c => negb (existsb (N.eqb c) w)) by_.

Definition nonempty (w : jsstring) : bool :=
  match w with [] => false | _ => true end.

(** Every text of [W] is one of [W']. *)
Definition listed (W W' : list jsstring) : bool :=
  forallb (fun w => existsb (JsString.eqb w) W') W.

(** The first entry of [table] whose name heads [s]. *)
Fixpoint heading (table : list (jsstring * jsstring)) (s : jsstring)
    : option (jsstring * jsstring) :=
  match table with
  | [] => None
  | (w, t) :: table' =>
      if JsString.starts_with w s then Some (w, t) else heading table' s
  end.

(** Every occurrence of a name of [table] replaced by its text, in one
    pass from left to right; [skip] code units of the current occurrence
    are still to be dropped. *)
Fixpoint replace_occurrences (table : list (jsstring * jsstring)) (skip : nat)
    (s : jsstring) : jsstring :=
  match skip with
  | S k => match s with
           | _ :: s' => replace_occurrences table k s'
           | [] => []
           end
  | O =>
      match s with
      | [] => []
      | c :: s' =>
          match heading table s with
          | Some ([], t) => t ++ c :: replace_occurrences table O s'
          | Some (_ :: w, t) => t ++ replace_occurrences table (List.length w) s'
          | None => c :: replace_occurrences table O s'
          end
      end
  end.

(** The names of a binding, the longest first, each in its two spellings
    and with the decimal text of its value. *)
Definition occurrences_table (entries : list (jsstring * number))
    : list (jsstring * jsstring) :=
  flat_map (fun e => List.map (fun w => (w, JsNumber.toString (snd e))) (spellings (fst e)))
    (fold_right insert_longest_first [] entries).

(** No text of [W] is a proper prefix of another one. *)
Definition prefix_free (W : list jsstring) : bool :=
  forallb (fun w => forallb (fun w' =>
    implb (JsString.starts_with w w') (List.length w =? List.length w')%nat) W) W.

(** No text of [W1] starts inside a text of [W2]. *)
Definition no_overlap (W1 W2 : list jsstring) : bool :=
  forallb (fun w2 => forallb (fun i => forallb (fun w1 =>
    negb (JsString.starts_with w1 (skipn i w2))
    && negb (JsString.starts_with (skipn i w2) w1)) W1)
    (seq 1 (List.length w2 - 1))) W2.

(** The substitution step as claimed (section 4.1): the result is the
    text in which every name is replaced by its value, a longer name
    before a shorter one. *)
Definition substitution_as_claimed (E : Engine) (text : jsstring)
    (variables : JsObject.t) : Prop :=
  substitute E text (JsObject.entries variables)
  = Normal (intended_substitute text (JsObject.entries variables)).


(* ================================================================== *)
(** * Properties *)

(** ** Strings *)

Lemma jsstring_eqb_eq (a b : jsstring) : JsString.eqb a b = true <-> a = b.
Proof.
  revert b; induction a as [|x a IH]; intros [|y b]; simpl; split;
    try discriminate; try reflexivity.
  - intros H. apply andb_true_iff in H as [Hx Hab].
    apply N.eqb_eq in Hx. apply IH in Hab. now subst.
  - intros H. injection H as -> ->.
    apply andb_true_iff. split; [apply N.eqb_refl | now apply IH].
Qed.

Lemma starts_with_In (needle hay : jsstring) :
  JsString.starts_with needle hay = true -> forall c, In c needle -> In c hay.
Proof.
  revert hay; induction needle as [|x needle IH]; intros hay H c Hc.
  - destruct Hc.
  - destruct hay as [|y hay]; [discriminate|]. simpl in H.
    apply andb_true_iff in H as [Hx Hrest]. apply N.eqb_eq in Hx. subst y.
    destruct Hc as [->|Hc]; [now left | right; eauto].
Qed.

(** A text that includes another one holds each of its code units. *)
Lemma includes_In (hay needle : jsstring) :
  JsString.includes hay needle = true -> forall c, In c needle -> In c hay.
Proof.
  induction hay as [|y hay IH]; simpl; intros H c Hc.
  - rewrite orb_false_r in H. eapply starts_with_In in H; eauto.
  - apply orb_true_iff in H as [H|H].
    + eapply starts_with_In in H; eauto.
    + right. eauto.
Qed.

Lemma existsb_negb_forallb {A : Type} (p : A -> bool) (l : list A) :
  existsb (fun x => negb (p x)) l = negb (forallb p l).
Proof.
  induction l as [|x l IH]; simpl; [reflexivity|].
  rewrite IH. now destruct (p x).
Qed.

(** ** The evaluator's gate *)

Section GateFacts.

Variable E : Engine.

Lemma space_is_formula_char (c : JsString.code_unit) :
  JsString.is_space c = true -> formula_char c = true.
Proof.
  intros H. unfold formula_char. rewrite H. now rewrite orb_true_r.
Qed.

Lemma forallb_strip_spaces (s : jsstring) :
  forallb formula_char (strip_spaces s) = forallb formula_char s.
Proof.
  induction s as [|c s IH]; simpl; [reflexivity|].
  destruct (JsString.is_space c) eqn:Hc; simpl.
  - now rewrite (space_is_formula_char _ Hc).
  - now rewrite IH.
Qed.

Lemma formula_test_forallb (s : jsstring) :
  formula_test s = true -> forallb formula_char s = true.
Proof. destruct s; [discriminate | trivial]. Qed.

(** A text that passes the gate is made of gate characters only. *)
Lemma gate_passed_chars (expression : jsstring) :
  formula_test (strip_spaces expression) = true ->
  forallb formula_char expression = true.
Proof.
  intros H. apply formula_test_forallb in H. now rewrite forallb_strip_spaces in H.
Qed.

(** A character outside the class stops the text at the gate. *)
Lemma gate_rejects (expression : jsstring) :
  existsb (fun c => negb (formula_char c)) expression = true ->
  formula_test (strip_spaces expression) = false.
Proof.
  intros H. rewrite existsb_negb_forallb in H. apply negb_true_iff in H.
  destruct (formula_test (strip_spaces expression)) eqn:Ht; [|reflexivity].
  apply gate_passed_chars in Ht. congruence.
Qed.

(** What [evaluateFormula] returns, by what reached the engine. *)
Lemma evaluateFormula_cases (formula : jsstring) (variables : JsObject.t) :
  evaluateFormula E formula variables =
  match evaluated_expression E formula variables with
  | Some expression =>
      match run_function E (js "return " ++ expression) with
      | Normal (JNumber r) => if JsNumber.isFinite r then r else zero
      | _ => zero
      end
  | None => zero
  end.
Proof.
  unfold evaluateFormula, evaluateFormula_body, evaluated_expression, try_catch, bind.
  destruct (substitute E formula (JsObject.entries variables)) as [expression|];
    [|reflexivity].
  destruct (formula_test (strip_spaces expression)); [|reflexivity].
  cbn [negb].
  destruct (run_function E (js "return " ++ expression)) as [[r| | |]|]; reflexivity.
Qed.

Lemma finite_not_nan (x : number) :
  JsNumber.isFinite x = true -> JsNumber.isNaN x = false.
Proof.
  unfold JsNumber.isFinite, JsNumber.isNaN, is_finite. intros H.
  apply negb_true_iff, orb_false_iff in H. tauto.
Qed.

(** The evaluator is total and its result is always a finite number. *)
Lemma evaluateFormula_finite (formula : jsstring) (variables : JsObject.t) :
  JsNumber.isFinite (evaluateFormula E formula variables) = true.
Proof.
  rewrite evaluateFormula_cases.
  destruct (evaluated_expression E formula variables) as [expression|];
    [|reflexivity].
  destruct (run_function E (js "return " ++ expression)) as [[r| | |]|];
    try reflexivity.
  destruct (JsNumber.isFinite r) eqn:Hr; [exact Hr | reflexivity].
Qed.

Lemma all_included_forallb (formula : jsstring) (requiredVars : list jsstring) :
  all_included formula requiredVars = forallb (JsString.includes formula) requiredVars.
Proof.
  induction requiredVars as [|v rest IH]; simpl; [reflexivity|].
  destruct (JsString.includes formula v); simpl; [exact IH | reflexivity].
Qed.

End GateFacts.

(** ** The probe bindings of the validator *)

Lemma update_In (k : jsstring) (v : number) (o : JsObject.t) (k' : jsstring) (x : number) :
  In (k', x) (JsObject.update k v o) -> In (k', x) o \/ (k' = k /\ x = v).
Proof.
  induction o as [|[k0 v0] o IH]; simpl; [tauto|].
  destruct (JsString.eqb k k0) eqn:Hk; simpl.
  - apply jsstring_eqb_eq in Hk. subst k0.
    intros [H|H]; [injection H as <- <-; now right | left; now right].
  - intros [H|H]; [left; now left|].
    destruct (IH H) as [H'|H']; [left; now right | now right].
Qed.

Lemma set_In (k : jsstring) (v : number) (o : JsObject.t) (k' : jsstring) (x : number) :
  In (k', x) (JsObject.set k v o) -> In (k', x) o \/ (k' = k /\ x = v).
Proof.
  unfold JsObject.set.
  destruct (JsString.eqb k (js "__proto__")); [now left|].
  destruct (JsObject.has k o).
  - apply update_In.
  - intros H. apply in_app_or in H as [H|[H|[]]]; [now left|].
    injection H as <- <-. now right.
Qed.

Lemma fold_set_In (requiredVars : list jsstring) (o : JsObject.t) (k : jsstring) (x : number) :
  In (k, x) (fold_left (fun o v => JsObject.set v 100%float o) requiredVars o) ->
  In (k, x) o \/ (In k requiredVars /\ x = 100%float).
Proof.
  revert o; induction requiredVars as [|v rest IH]; simpl; intros o H; [now left|].
  destruct (IH _ H) as [H'|[H' ->]].
  - destruct (set_In _ _ _ _ _ H') as [H''|[-> ->]]; [now left | right; auto].
  - right; auto.
Qed.

Lemma insert_indexed_In (i : Z) (e : jsstring * number)
    (l : list (Z * (jsstring * number))) (p : Z * (jsstring * number)) :
  In p (JsObject.insert_indexed i e l) -> p = (i, e) \/ In p l.
Proof.
  induction l as [|[j e'] l IH]; simpl.
  - intros [H|[]]; now left.
  - destruct (i <? j)%Z; simpl.
    + intros [H|H]; [now left | now right].
    + intros [H|H]; [right; now left|].
      destruct (IH H); [now left | right; now right].
Qed.

Lemma indexed_In (o : JsObject.t) (acc : list (Z * (jsstring * number)))
    (p : Z * (jsstring * number)) :
  In p (fold_left
          (fun acc e => match JsObject.array_index (fst e) with
                        | Some i => JsObject.insert_indexed i e acc
                        | None => acc
                        end) o acc) ->
  In (snd p) o \/ In p acc.
Proof.
  revert acc; induction o as [|e o IH]; simpl; intros acc H; [now right|].
  destruct (IH _ H) as [H'|H']; [left; now right|].
  destruct (JsObject.array_index (fst e)); [|now right].
  destruct (insert_indexed_In _ _ _ _ H') as [->|H'']; [left; now left | now right].
Qed.

(** [Object.entries] lists properties of the object, nothing else. *)
Lemma entries_In (o : JsObject.t) (e : jsstring * number) :
  In e (JsObject.entries o) -> In e o.
Proof.
  unfold JsObject.entries, JsObject.indexed, JsObject.named. intros H.
  apply in_app_or in H as [H|H].
  - apply in_map_iff in H as [p [<- Hp]].
    destruct (indexed_In _ _ _ Hp) as [H'|[]]. exact H'.
  - apply filter_In in H. tauto.
Qed.

(** Every binding the validator hands to the evaluator gives the probe
    value 100 to a required variable. *)
Lemma testVars_bindings (requiredVars : list jsstring) (k : jsstring) (x : number) :
  In (k, x) (JsObject.entries (testVars requiredVars)) ->
  In k requiredVars /\ x = 100%float.
Proof.
  intros H. apply entries_In in H. unfold testVars in H.
  destruct (fold_set_In _ _ _ _ H) as [[]|H']. exact H'.
Qed.

(** A required variable is bound once the loop has run, the inherited
    name [__proto__] apart. *)
Lemma testVars_has (requiredVars : list jsstring) (v : jsstring) :
  In v requiredVars -> v <> js "__proto__" ->
  JsObject.has v (testVars requiredVars) = true.
Proof.
  unfold testVars. generalize JsObject.empty.
  assert (Hset : forall k o, k <> js "__proto__" ->
               JsObject.has k (JsObject.set k 100%float o) = true).
  { intros k o Hk. unfold JsObject.set.
    destruct (JsString.eqb k (js "__proto__")) eqn:Hp;
      [apply jsstring_eqb_eq in Hp; contradiction|].
    destruct (JsObject.has k o) eqn:Hh.
    - clear Hp. induction o as [|[k0 v0] o IH]; [discriminate|]. simpl in *.
      destruct (JsString.eqb k k0) eqn:Hk0; simpl; rewrite Hk0; [reflexivity|].
      simpl in Hh. now apply IH.
    - clear Hp Hh. induction o as [|[k0 v0] o IH]; simpl.
      + assert (Hr : JsString.eqb k k = true) by now apply jsstring_eqb_eq.
        now rewrite Hr.
      + rewrite IH. apply orb_true_r. }
  assert (Hkeep : forall k k' o, JsObject.has k o = true ->
               JsObject.has k (JsObject.set k' 100%float o) = true).
  { intros k k' o Hh. unfold JsObject.set.
    destruct (JsString.eqb k' (js "__proto__")); [exact Hh|].
    destruct (JsObject.has k' o).
    - induction o as [|[k0 v0] o IH]; [discriminate|]. simpl in *.
      destruct (JsString.eqb k' k0); simpl;
        destruct (JsString.eqb k k0); simpl in *; auto.
    - induction o as [|[k0 v0] o IH]; [discriminate|]. simpl in *.
      destruct (JsString.eqb k k0); simpl in *; auto. }
  assert (Hfold : forall l o, JsObject.has v o = true ->
               JsObject.has v (fold_left (fun o v => JsObject.set v 100%float o) l o) = true).
  { induction l as [|w l IH]; simpl; intros o Hh; [exact Hh|]. apply IH, Hkeep, Hh. }
  induction requiredVars as [|w rest IH]; intros o Hin Hv; [destruct Hin|].
  destruct Hin as [->|Hin]; simpl.
  - apply Hfold, Hset, Hv.
  - now apply IH.
Qed.

Lemma update_binds (k : jsstring) (v : number) (o : JsObject.t) :
  JsObject.has k o = true -> In (k, v) (JsObject.update k v o).
Proof.
  induction o as [|[k0 v0] o IH]; simpl; [discriminate|].
  destruct (JsString.eqb k k0) eqn:Hk; simpl.
  - intros _. apply jsstring_eqb_eq in Hk. subst k0. now left.
  - intros H. right. now apply IH.
Qed.

Lemma update_keeps (k k' : jsstring) (v : number) (o : JsObject.t) :
  In (k, v) o -> In (k, v) (JsObject.update k' v o).
Proof.
  induction o as [|[k0 v0] o IH]; simpl; [tauto|].
  destruct (JsString.eqb k' k0) eqn:Hk; simpl.
  - intros [H|H]; [injection H as -> ->; now left | now right].
  - intros [H|H]; [now left | right; now apply IH].
Qed.

Lemma set_binds (k : jsstring) (v : number) (o : JsObject.t) :
  k <> js "__proto__" -> In (k, v) (JsObject.set k v o).
Proof.
  intros Hk. unfold JsObject.set.
  destruct (JsString.eqb k (js "__proto__")) eqn:Hp;
    [apply jsstring_eqb_eq in Hp; contradiction|].
  destruct (JsObject.has k o) eqn:Hh; [now apply update_binds|].
  apply in_or_app. right. now left.
Qed.

Lemma set_keeps (k k' : jsstring) (v : number) (o : JsObject.t) :
  In (k, v) o -> In (k, v) (JsObject.set k' v o).
Proof.
  intros H. unfold JsObject.set.
  destruct (JsString.eqb k' (js "__proto__")); [exact H|].
  destruct (JsObject.has k' o); [now apply update_keeps|].
  apply in_or_app. now left.
Qed.

Lemma insert_indexed_keeps (i : Z) (e : jsstring * number)
    (l : list (Z * (jsstring * number))) (p : Z * (jsstring * number)) :
  p = (i, e) \/ In p l -> In p (JsObject.insert_indexed i e l).
Proof.
  induction l as [|[j e'] l IH]; simpl.
  - intros [H|[]]. now left.
  - destruct (i <? j)%Z; simpl.
    + intros [H|H]; [now left | now right].
    + intros [H|[H|H]]; [right; apply IH; now left | now left | right; apply IH; now right].
Qed.

Lemma indexed_keeps (o : JsObject.t) (acc : list (Z * (jsstring * number)))
    (e : jsstring * number) :
  (In e o /\ JsObject.array_index (fst e) <> None) \/ In e (List.map snd acc) ->
  In e (List.map snd
          (fold_left
             (fun acc e => match JsObject.array_index (fst e) with
                           | Some i => JsObject.insert_indexed i e acc
                           | None => acc
                           end) o acc)).
Proof.
  revert acc; induction o as [|e0 o IH]; simpl; intros acc H.
  - destruct H as [[[] _]|H]. exact H.
  - apply IH. destruct H as [[[->|H] Hi]|H].
    + right. destruct (JsObject.array_index (fst e)) as [i|]; [|contradiction].
      apply in_map_iff. exists (i, e). split; [reflexivity|].
      apply insert_indexed_keeps. now left.
    + left. now split.
    + right. destruct (JsObject.array_index (fst e0)) as [i|]; [|exact H].
      apply in_map_iff in H as [p [<- Hp]]. apply in_map.
      apply insert_indexed_keeps. now right.
Qed.

(** [Object.entries] lists every property of the object. *)
Lemma In_entries (o : JsObject.t) (e : jsstring * number) :
  In e o -> In e (JsObject.entries o).
Proof.
  intros H. unfold JsObject.entries, JsObject.indexed, JsObject.named.
  apply in_or_app.
  destruct (JsObject.array_index (fst e)) as [i|] eqn:Hi.
  - left. apply indexed_keeps. left. split; [exact H | congruence].
  - right. apply filter_In. split; [exact H | now rewrite Hi].
Qed.

(** Once the loop has run, every required variable is bound to the
    probe value, the inherited name [__proto__] apart. *)
Lemma testVars_binds (requiredVars : list jsstring) (v : jsstring) :
  In v requiredVars -> v <> js "__proto__" ->
  In (v, 100%float) (JsObject.entries (testVars requiredVars)).
Proof.
  intros Hin Hv. apply In_entries. unfold testVars. generalize JsObject.empty.
  assert (Hfold : forall l o, In (v, 100%float) o ->
            In (v, 100%float) (fold_left (fun o v => JsObject.set v 100%float o) l o)).
  { induction l as [|w l IH]; simpl; intros o H; [exact H|]. apply IH. now apply set_keeps. }
  induction requiredVars as [|w rest IH]; intros o; [destruct Hin|].
  destruct Hin as [->|Hin]; simpl.
  - apply Hfold. now apply set_binds.
  - now apply IH.
Qed.

Lemma program_vars_bound (draft : Settings) (val : Validation) (v : jsstring) :
  In val (validations draft) -> In v (vars val) ->
  In (v, 100%float) (JsObject.entries (testVars (vars val))).
Proof.
  intros Hval Hv. apply testVars_binds; [exact Hv|].
  intros ->. destruct Hval as [<-|[<-|[<-|[<-|[]]]]]; cbn [vars] in Hv;
    destruct Hv as [Hv|[Hv|[]]]; discriminate Hv.
Qed.

(** ** Claims on the evaluator and the validator *)

Lemma float_neq_by_eqb (x y : number) : (x =? y)%float = false -> (y =? y)%float = true -> x <> y.
Proof. intros Hxy Hyy ->. congruence. Qed.

(** C2, as stated, fails: the gate's class also holds the decimal point.
    The formula [1.5], with no variable, has a character outside the
    claimed set, is evaluated all the same, and yields 1.5, not 0. *)
Lemma gate_claimed_set_too_small :
  ~ gate_as_claimed reference_engine (js "1.5") JsObject.empty
  /\ evaluated_expression reference_engine (js "1.5") JsObject.empty = Some (js "1.5")
  /\ forallb claimed_formula_char (js "1.5") = false.
Proof.
  split; [|split; reflexivity].
  intros H. specialize (H (js "1.5") eq_refl eq_refl).
  revert H. apply float_neq_by_eqb; reflexivity.
Qed.

(** C2 (amended): for every formula text and variable binding, once the
    variables are substituted, [evaluateFormula] returns 0 whenever the
    expression holds a character outside digits, whitespace and
    [+ - * / ( ) .]; every expression it hands to the engine is made of
    those characters only; and it returns 0 when the substitution itself
    throws. The function is total: nothing is thrown outward. *)
Theorem evaluateFormula_gate (E : Engine) (formula : jsstring) (variables : JsObject.t) :
  (forall expression,
      substitute E formula (JsObject.entries variables) = Normal expression ->
      existsb (fun c => negb (formula_char c)) expression = true ->
      evaluateFormula E formula variables = zero)
  /\ (forall expression,
      evaluated_expression E formula variables = Some expression ->
      substitute E formula (JsObject.entries variables) = Normal expression
      /\ forallb formula_char expression = true)
  /\ (substitute E formula (JsObject.entries variables) = Throw ->
      evaluateFormula E formula variables = zero).
Proof.
  repeat split.
  - intros expression Hs Hbad. rewrite evaluateFormula_cases.
    unfold evaluated_expression. rewrite Hs, (gate_rejects _ Hbad). reflexivity.
  - revert H. unfold evaluated_expression.
    destruct (substitute E formula (JsObject.entries variables)) as [e|]; [|discriminate].
    destruct (formula_test (strip_spaces e)); [|discriminate]. congruence.
  - revert H. unfold evaluated_expression.
    destruct (substitute E formula (JsObject.entries variables)) as [e|]; [|discriminate].
    destruct (formula_test (strip_spaces e)) eqn:Ht; [|discriminate].
    intros [= <-]. now apply gate_passed_chars.
  - intros Hs. rewrite evaluateFormula_cases. unfold evaluated_expression.
    now rewrite Hs.
Qed.

(** The gate at work: a letter left in the expression gives 0, and the
    default standard-buy formula reaches the engine. *)
Lemma evaluateFormula_gate_witness :
  evaluateFormula reference_engine (js "rate * 2") JsObject.empty = zero
  /\ forallb formula_char (js "((100 + 100) * 0.99) / 1000") = true.
Proof.
  pose proof (evaluateFormula_gate reference_engine (js "rate * 2") JsObject.empty)
    as [Hreject _].
  pose proof (evaluateFormula_gate reference_engine
                (standardBuyFormula DEFAULT_SETTINGS)
                (testVars [js "invoice_value"; js "duties"])) as [_ [Hpass _]].
  split.
  - exact (Hreject (js "rate * 2") eq_refl eq_refl).
  - exact (proj2 (Hpass (js "((100 + 100) * 0.99) / 1000") eq_refl)).
Defined.

(** C9: for every formula text and required-variable list, [validate]
    returns true if and only if every required variable name is a
    literal substring of the formula text; the probe evaluation cannot
    make it fail, because the evaluator always returns a finite number. *)
Theorem validateFormula_iff_included (E : Engine) (formula : jsstring)
    (requiredVars : list jsstring) :
  (validateFormula E formula requiredVars = true <->
   forall v, In v requiredVars -> JsString.includes formula v = true)
  /\ validateFormula E formula requiredVars
     = forallb (JsString.includes formula) requiredVars
  /\ forall f variables, finite_number (evaluateFormula E f variables) = true.
Proof.
  assert (Hfin : forall f variables, finite_number (evaluateFormula E f variables) = true).
  { intros f variables. unfold finite_number.
    pose proof (evaluateFormula_finite E f variables) as H.
    now rewrite H, (finite_not_nan _ H). }
  assert (Heq : validateFormula E formula requiredVars
                = forallb (JsString.includes formula) requiredVars).
  { unfold validateFormula. rewrite all_included_forallb.
    destruct (forallb (JsString.includes formula) requiredVars); [|reflexivity].
    apply (Hfin formula (testVars requiredVars)). }
  split; [|split; assumption].
  rewrite Heq. apply forallb_forall.
Qed.

(** C4: for every formula text and required-variable list, [validate]
    returns false if any required variable name is not a literal
    substring of the formula text; otherwise it binds every required
    variable to the probe value 100 and nothing else, calls the
    evaluator on that binding, and returns true if and only if the
    result is a finite, non-NaN number. Every name of the lists the
    program passes is bound; of an arbitrary list, every name but
    [__proto__], which names the inherited accessor of the language and
    creates no property. *)
Theorem validateFormula_spec (E : Engine) (formula : jsstring)
    (requiredVars : list jsstring) :
  ((exists v, In v requiredVars /\ JsString.includes formula v = false) ->
   validateFormula E formula requiredVars = false)
  /\ ((forall v, In v requiredVars -> JsString.includes formula v = true) ->
      validateFormula E formula requiredVars
      = finite_number (evaluateFormula E formula (testVars requiredVars)))
  /\ (validateFormula E formula requiredVars = true <->
      (forall v, In v requiredVars -> JsString.includes formula v = true)
      /\ finite_number (evaluateFormula E formula (testVars requiredVars)) = true)
  /\ (forall v, In v requiredVars -> v <> js "__proto__" ->
      In (v, 100%float) (JsObject.entries (testVars requiredVars)))
  /\ (forall k x, In (k, x) (JsObject.entries (testVars requiredVars)) ->
      In k requiredVars /\ x = 100%float)
  /\ (forall draft val v, In val (validations draft) -> In v (vars val) ->
      In (v, 100%float) (JsObject.entries (testVars (vars val)))).
Proof.
  assert (Hmissing : (exists v, In v requiredVars /\ JsString.includes formula v = false) ->
            validateFormula E formula requiredVars = false).
  { intros [v [Hin Hv]]. unfold validateFormula. rewrite all_included_forallb.
    assert (Hall : forallb (JsString.includes formula) requiredVars = false).
    { destruct (forallb (JsString.includes formula) requiredVars) eqn:Hf; [|reflexivity].
      rewrite forallb_forall in Hf. rewrite (Hf v Hin) in Hv. discriminate. }
    now rewrite Hall. }
  assert (Hpresent : (forall v, In v requiredVars -> JsString.includes formula v = true) ->
            validateFormula E formula requiredVars
            = finite_number (evaluateFormula E formula (testVars requiredVars))).
  { intros Hall. unfold validateFormula. rewrite all_included_forallb.
    apply forallb_forall in Hall. now rewrite Hall. }
  split; [exact Hmissing|]. split; [exact Hpresent|]. split; [|split; [|split]].
  - split.
    + intros Hv.
      assert (Hall : forall v, In v requiredVars -> JsString.includes formula v = true).
      { intros v Hin. destruct (JsString.includes formula v) eqn:Hi; [reflexivity|].
        rewrite Hmissing in Hv by (exists v; now split). discriminate Hv. }
      split; [exact Hall|]. now rewrite <- (Hpresent Hall).
    + intros [Hall Hfin]. now rewrite (Hpresent Hall).
  - apply testVars_binds.
  - apply testVars_bindings.
  - apply program_vars_bound.
Qed.

(** Both branches of the validator on the default standard-buy formula,
    and the binding of [duties]. *)
Lemma validateFormula_spec_witness :
  validateFormula reference_engine (js "invoice_value * 2") [js "invoice_value"; js "duties"]
  = false
  /\ validateFormula reference_engine (standardBuyFormula DEFAULT_SETTINGS)
       [js "invoice_value"; js "duties"]
     = finite_number
         (evaluateFormula reference_engine (standardBuyFormula DEFAULT_SETTINGS)
            (testVars [js "invoice_value"; js "duties"]))
  /\ In (js "duties", 100%float)
       (JsObject.entries (testVars [js "invoice_value"; js "duties"])).
Proof.
  split; [|split].
  - apply (proj1 (validateFormula_spec reference_engine (js "invoice_value * 2")
                    [js "invoice_value"; js "duties"])).
    exists (js "duties"). split; [right; left; reflexivity | reflexivity].
  - apply (proj1 (proj2 (validateFormula_spec reference_engine
                           (standardBuyFormula DEFAULT_SETTINGS)
                           [js "invoice_value"; js "duties"]))).
    intros v [<-|[<-|[]]]; reflexivity.
  - apply (proj1 (proj2 (proj2 (proj2 (validateFormula_spec reference_engine
                                         (standardBuyFormula DEFAULT_SETTINGS)
                                         [js "invoice_value"; js "duties"]))))).
    + right; left; reflexivity.
    + discriminate.
Defined.

(** ** The admin commit *)

(** The loop of [saveSettings] finds no invalid formula exactly when the
    four validations, each with its own variables, all succeed. *)
Lemma first_invalid_all_four (E : Engine) (draft : Settings) :
  first_invalid E (validations draft) = None <-> all_four_valid E draft = true.
Proof.
  unfold validations, all_four_valid, first_invalid.
  cbv beta iota delta [formula vars name].
  set (a := validateFormula E (standardBuyFormula draft) _).
  set (b := validateFormula E (standardSellFormula draft) _).
  set (c := validateFormula E (pgaBuyFormula draft) _).
  set (d := validateFormula E (pgaSellFormula draft) _).
  destruct a, b, c, d; simpl; split; intros H; try reflexivity; discriminate.
Qed.

Lemma first_invalid_named (E : Engine) (vs : list Validation) (n : jsstring) :
  first_invalid E vs = Some n ->
  exists v, In v vs /\ name v = n /\ validateFormula E (formula v) (vars v) = false.
Proof.
  induction vs as [|v vs IH]; simpl; [discriminate|].
  destruct (validateFormula E (formula v) (vars v)) eqn:Hv; simpl.
  - intros H. destruct (IH H) as [w [Hin Hw]]. exists w. split; [now right | exact Hw].
  - intros [= <-]. exists v. split; [now left | split; [reflexivity | exact Hv]].
Qed.

(** C3: for every draft configuration, the commit runs the validator on
    the four formula slots, each with its required variables; when all
    four pass the draft becomes the active configuration and is stored,
    and when any one fails the commit is rejected whole: the active
    configuration (its four formulas and four numeric parameters) and
    the stored one are exactly as before, and the alert names a formula
    that failed. *)
Theorem saveSettings_all_or_nothing (E : Engine) (st : AdminState) :
  (all_four_valid E (tempSettings st) = true ->
   adminSettings (saveSettings E st) = tempSettings st
   /\ stored (saveSettings E st) = Some (tempSettings st))
  /\ (all_four_valid E (tempSettings st) = false ->
      adminSettings (saveSettings E st) = adminSettings st
      /\ stored (saveSettings E st) = stored st
      /\ tempSettings (saveSettings E st) = tempSettings st
      /\ exists v, In v (validations (tempSettings st))
                   /\ validateFormula E (formula v) (vars v) = false
                   /\ alerts (saveSettings E st) = alerts st ++ [invalid_message (name v)]).
Proof.
  unfold saveSettings. split; intros Hall.
  - apply first_invalid_all_four in Hall. rewrite Hall. split; reflexivity.
  - destruct (first_invalid E (validations (tempSettings st))) as [n|] eqn:Hf.
    + cbn [adminSettings stored tempSettings alerts]. repeat split.
      destruct (first_invalid_named _ _ Hf) as [v [Hin [Hn Hv]]].
      exists v. subst n. auto.
    + apply first_invalid_all_four in Hf. congruence.
Qed.

(** A draft whose standard-buy formula lacks [duties] is rejected and
    the default configuration stays active. *)
Lemma saveSettings_all_or_nothing_witness :
  adminSettings (saveSettings reference_engine editing_state) = DEFAULT_SETTINGS
  /\ stored (saveSettings reference_engine editing_state) = None.
Proof.
  destruct (proj2 (saveSettings_all_or_nothing reference_engine editing_state) eq_refl)
    as [Ha [Hs _]].
  split; [exact Ha | exact Hs].
Defined.

(** The same draft with the default configuration as draft is accepted. *)
Lemma saveSettings_accepts_defaults :
  adminSettings
    (saveSettings reference_engine
       {| adminSettings := draft_without_duties; tempSettings := DEFAULT_SETTINGS;
          stored := None; showAdminPanel := true; isLoading := false; alerts := [] |})
  = DEFAULT_SETTINGS.
Proof. vm_compute. reflexivity. Qed.

(** ** Comparison of doubles *)

Lemma SFltb_irrefl (x : spec_float) : SFltb x x = false.
Proof.
  destruct x as [s|s| |s m e]; try reflexivity; try (now destruct s).
  unfold SFltb, SFcompare. rewrite Z.compare_refl, Pos.compare_cont_refl.
  now destruct s.
Qed.

Lemma SFltb_asym (x y : spec_float) : SFltb x y = true -> SFltb y x = false.
Proof.
  destruct x as [s|s| |s m e], y as [s'|s'| |s' m' e']; simpl;
    try discriminate; try reflexivity;
    try (now destruct s); try (now destruct s'); try (now destruct s, s').
  unfold SFltb, SFcompare.
  assert (Hp : Pos.compare_cont Eq m' m = CompOpp (Pos.compare_cont Eq m m'))
    by (rewrite Pos.compare_cont_antisym; reflexivity).
  rewrite (Z.compare_antisym e e'), Hp.
  destruct s, s'; try discriminate; try reflexivity;
    destruct (e ?= e')%Z; simpl; try discriminate; try reflexivity;
    destruct (Pos.compare_cont Eq m m'); simpl; try discriminate; reflexivity.
Qed.

Lemma ltb_irrefl (x : number) : (x <? x)%float = false.
Proof. rewrite ltb_spec. apply SFltb_irrefl. Qed.

Lemma ltb_asym (x y : number) : (x <? y)%float = true -> (y <? x)%float = false.
Proof. rewrite !ltb_spec. apply SFltb_asym. Qed.

Lemma nan_ltb (x : number) : (nan <? x)%float = false.
Proof. rewrite ltb_spec. reflexivity. Qed.

(** [Math.max] is never below either argument. *)
Lemma max_not_below (a b : number) :
  (JsNumber.max a b <? a)%float = false /\ (JsNumber.max a b <? b)%float = false.
Proof.
  unfold JsNumber.max.
  destruct (is_nan a || is_nan b); [split; apply nan_ltb|].
  destruct (a <? b)%float eqn:Hab; [split; [now apply ltb_asym | apply ltb_irrefl]|].
  destruct (b <? a)%float eqn:Hba; [split; [apply ltb_irrefl | exact Hab]|].
  destruct (get_sign a); split;
    first [apply ltb_irrefl | assumption].
Qed.

(** [Math.max] returns one of its arguments, or NaN when one is NaN. *)
Lemma max_cases (a b : number) :
  JsNumber.max a b = a \/ JsNumber.max a b = b \/ JsNumber.max a b = nan.
Proof.
  unfold JsNumber.max.
  destruct (is_nan a || is_nan b); [tauto|].
  destruct (a <? b)%float; [tauto|].
  destruct (b <? a)%float; [tauto|].
  destruct (get_sign a); tauto.
Qed.

(** ** The shape of [toFixed(6)] *)

Lemma digits_fuel_digits (fuel : nat) (z : Z) (acc : jsstring) :
  forallb JsString.is_digit acc = true ->
  forallb JsString.is_digit (JsNumber.digits_fuel fuel z acc) = true.
Proof.
  revert z acc; induction fuel as [|fuel IH]; intros z acc Hacc; [exact Hacc|].
  assert (Hd : JsString.is_digit (Z.to_N (z mod 10 + 48)) = true).
  { pose proof (Z.mod_pos_bound z 10 ltac:(lia)) as Hm.
    unfold JsString.is_digit. apply andb_true_iff. split; apply N.leb_le; lia. }
  cbn [JsNumber.digits_fuel]. destruct (z <? 10)%Z.
  - simpl. now rewrite Hd.
  - apply IH. simpl. now rewrite Hd.
Qed.

Lemma digits_fuel_nonempty (fuel : nat) (z : Z) (acc : jsstring) :
  JsNumber.digits_fuel (S fuel) z acc <> [].
Proof.
  revert z acc; induction fuel as [|fuel IH]; intros z acc.
  - cbn [JsNumber.digits_fuel]. destruct (z <? 10)%Z; discriminate.
  - change (JsNumber.digits_fuel (S (S fuel)) z acc)
      with (let d := Z.to_N (z mod 10 + 48) in
            if (z <? 10)%Z then d :: acc
            else JsNumber.digits_fuel (S fuel) (z / 10) (d :: acc)).
    cbv zeta. destruct (z <? 10)%Z; [discriminate | apply IH].
Qed.

Lemma digits_are_digits (z : Z) : forallb JsString.is_digit (JsNumber.digits z) = true.
Proof. apply digits_fuel_digits. reflexivity. Qed.

Lemma digits_nonempty (z : Z) : JsNumber.digits z <> [].
Proof. apply digits_fuel_nonempty. Qed.

Lemma zeros_are_digits (n : Z) : forallb JsString.is_digit (JsNumber.zeros n) = true.
Proof.
  unfold JsNumber.zeros. induction (Z.to_nat n) as [|k IH]; simpl; [reflexivity | exact IH].
Qed.

Lemma forallb_firstn {A : Type} (p : A -> bool) (n : nat) (l : list A) :
  forallb p l = true -> forallb p (firstn n l) = true.
Proof.
  revert l; induction n as [|n IH]; intros [|x l]; simpl; try reflexivity.
  intros H. apply andb_true_iff in H as [Hx Hl]. now rewrite Hx, IH.
Qed.

Lemma forallb_skipn {A : Type} (p : A -> bool) (n : nat) (l : list A) :
  forallb p l = true -> forallb p (skipn n l) = true.
Proof.
  revert l; induction n as [|n IH]; intros [|x l]; simpl; try reflexivity; auto.
  intros H. apply andb_true_iff in H as [_ Hl]. now apply IH.
Qed.

(** An integer written with six digits after the point. *)
Lemma fixed_digits_six (n : Z) :
  exists whole frac,
    JsNumber.fixed_digits 6 n = whole ++ js "." ++ frac
    /\ whole <> []
    /\ forallb JsString.is_digit whole = true
    /\ forallb JsString.is_digit frac = true
    /\ List.length frac = 6%nat.
Proof.
  unfold JsNumber.fixed_digits. change (6 =? 0)%Z with false. cbv iota.
  set (m := if (n =? 0)%Z then js "0" else JsNumber.digits n).
  assert (Hm : forallb JsString.is_digit m = true)
    by (unfold m; destruct (n =? 0)%Z; [reflexivity | apply digits_are_digits]).
  assert (Hne : m <> [])
    by (unfold m; destruct (n =? 0)%Z; [discriminate | apply digits_nonempty]).
  set (m' := if (Z.of_nat (List.length m) <=? 6)%Z
             then JsNumber.zeros (6 + 1 - Z.of_nat (List.length m)) ++ m else m).
  assert (Hm' : forallb JsString.is_digit m' = true).
  { unfold m'. destruct (Z.of_nat (List.length m) <=? 6)%Z; [|exact Hm].
    rewrite forallb_app, zeros_are_digits. exact Hm. }
  assert (Hlen : (7 <= List.length m')%nat).
  { unfold m'. destruct (Z.of_nat (List.length m) <=? 6)%Z eqn:Hk.
    - apply Z.leb_le in Hk. rewrite length_app. unfold JsNumber.zeros.
      rewrite repeat_length. lia.
    - apply Z.leb_gt in Hk. lia. }
  exists (firstn (Z.to_nat (Z.of_nat (List.length m') - 6)) m'),
         (skipn (Z.to_nat (Z.of_nat (List.length m') - 6)) m').
  split; [reflexivity|]. split; [|split; [|split]].
  - destruct m' as [|c m'']; [simpl in Hlen; lia|].
    replace (Z.to_nat (Z.of_nat (List.length (c :: m'')) - 6))
      with (S (List.length m'' - 6)) by (simpl List.length in *; lia).
    discriminate.
  - now apply forallb_firstn.
  - now apply forallb_skipn.
  - rewrite length_skipn. lia.
Qed.

(** In the plain range, [toFixed(6)] writes exactly six decimals. *)
Lemma toFixed_six_decimals (x : number) :
  plain_range x = true -> six_decimals (JsNumber.toFixed 6 x).
Proof.
  unfold plain_range, JsNumber.toFixed, six_decimals.
  destruct (Prim2SF x) as [s|s| |s m e]; try discriminate.
  - intros _. destruct (fixed_digits_six 0) as [whole [frac [Heq H]]].
    exists [], whole, frac. rewrite Heq. simpl. tauto.
  - destruct (JsNumber.fraction_of m e) as [vn vd]. intros Hr.
    assert (Hb : (10 ^ 21 * vd <=? vn)%Z = false)
      by (apply Z.leb_gt; now apply Z.ltb_lt in Hr).
    rewrite Hb.
    destruct (fixed_digits_six ((2 * vn * 10 ^ 6 + vd) / (2 * vd)))
      as [whole [frac [Heq H]]].
    exists (if s then js "-" else []), whole, frac. rewrite Heq.
    split; [reflexivity|]. split; [destruct s; auto | exact H].
Qed.

(** Beyond the plain range [toFixed] writes what [toString] writes: the
    exponent form, [Infinity] or [NaN]. *)
Lemma toFixed_beyond_plain_range (f : Z) (x : number) :
  plain_range x = false -> JsNumber.toFixed f x = JsNumber.toString x.
Proof.
  unfold plain_range, JsNumber.toFixed, JsNumber.toString.
  destruct (Prim2SF x) as [s|s| |s m e]; try discriminate; try reflexivity.
  destruct (JsNumber.fraction_of m e) as [vn vd]. intros Hr.
  assert (Hb : (10 ^ 21 * vd <=? vn)%Z = true)
    by (apply Z.leb_le; apply Z.ltb_ge in Hr; exact Hr).
  now rewrite Hb.
Qed.

(** A text with six decimals is made of digits, a point and a sign. *)
Lemma six_decimals_chars (s : jsstring) :
  six_decimals s -> forallb decimal_char s = true.
Proof.
  assert (Hd : forall l, forallb JsString.is_digit l = true -> forallb decimal_char l = true).
  { intros l Hl. rewrite forallb_forall in *. intros c Hc.
    unfold decimal_char. now rewrite (Hl c Hc). }
  intros [sign [whole [frac [-> [Hsign [_ [Hw [Hf _]]]]]]]].
  rewrite !forallb_app, (Hd _ Hw), (Hd _ Hf).
  destruct Hsign as [->| ->]; reflexivity.
Qed.

(** ** The rate pipeline *)

(** The text [10000] reads as the number 10000. *)
Lemma read_probe_amount : JsNumber.or_zero (JsNumber.parseFloat (js "10000")) = 10000%float.
Proof. vm_compute. reflexivity. Qed.

(** The live path for an amount text: nothing is clamped. *)
Lemma withoutPgaResults_unfold (config : Settings) (amountText : jsstring) :
  withoutPgaResults config amountText
  = standard_results_for config (JsNumber.or_zero (JsNumber.parseFloat amountText)).
Proof. reflexivity. Qed.

(** Where the printed sum reads back as itself, the base amount is the
    sum of the two inputs. *)
Lemma standard_entry_of_sum (config : Settings) (invoice duties : jsstring) :
  reread (claimed_base_amount invoice duties) = claimed_base_amount invoice duties ->
  standard_entry config invoice duties
  = standard_results_for config (claimed_base_amount invoice duties).
Proof.
  intros H.
  change (standard_entry config invoice duties)
    with (standard_results_for config (reread (claimed_base_amount invoice duties))).
  now rewrite H.
Qed.

(** The sum is kept as text between the two memos. Where it is NaN,
    which takes two texts that read as infinities of opposite signs (a
    number field delivers no such text), [NaN] reads back as 0 and the
    results are those of 0, not of NaN. *)
Lemma standard_entry_nan_sum :
  standard_entry DEFAULT_SETTINGS (js "Infinity") (js "-Infinity")
  <> standard_results_for DEFAULT_SETTINGS
       (claimed_base_amount (js "Infinity") (js "-Infinity"))
  /\ sell (standard_entry DEFAULT_SETTINGS (js "Infinity") (js "-Infinity")) = js "0.000000"
  /\ sell (standard_results_for DEFAULT_SETTINGS
             (claimed_base_amount (js "Infinity") (js "-Infinity"))) = js "NaN"
  /\ standard_entry DEFAULT_SETTINGS (js "1e999") (js "-1e999")
     <> standard_results_for DEFAULT_SETTINGS
          (claimed_base_amount (js "1e999") (js "-1e999")).
Proof.
  split; [|split; [|split]]; try (vm_compute; reflexivity);
    intros H; apply (f_equal sell) in H; vm_compute in H; discriminate H.
Qed.

(** C1, as stated, fails on a large invoice: with the invoice [1e25], no
    duties and the default configuration, the base amount is the sum of
    the two inputs and sell is (base * 0.40) / 100, but [toFixed(6)]
    writes a value of 10^21 or more in exponent form: sell is
    [4.000000000000001e+22] and buy is [9.9e+21], neither with six
    decimals. *)
Lemma standard_entry_large_invoice :
  ~ standard_entry_as_claimed DEFAULT_SETTINGS (js "1e25") []
  /\ standard_entry DEFAULT_SETTINGS (js "1e25") []
     = standard_results_for DEFAULT_SETTINGS (claimed_base_amount (js "1e25") [])
  /\ sell (standard_entry DEFAULT_SETTINGS (js "1e25") []) = js "4.000000000000001e+22"
  /\ buy (standard_entry DEFAULT_SETTINGS (js "1e25") []) = js "9.9e+21"
  /\ ~ six_decimals (sell (standard_entry DEFAULT_SETTINGS (js "1e25") []))
  /\ ~ six_decimals (buy (standard_entry DEFAULT_SETTINGS (js "1e25") [])).
Proof.
  assert (Hsell : ~ six_decimals (sell (standard_entry DEFAULT_SETTINGS (js "1e25") []))).
  { intros H. apply six_decimals_chars in H. vm_compute in H. discriminate H. }
  assert (Hbuy : ~ six_decimals (buy (standard_entry DEFAULT_SETTINGS (js "1e25") []))).
  { intros H. apply six_decimals_chars in H. vm_compute in H. discriminate H. }
  split; [intros [_ [H _]]; exact (Hsell H)|].
  repeat split; try assumption; vm_compute; reflexivity.
Qed.

(** C1 (amended): for every pair of raw text inputs and every rate
    configuration, the standard-entry pipeline takes as base amount the
    sum of the two inputs (unparseable text as 0), kept as text between
    the two memos and read again (unparseable text as 0 again), which
    is the sum itself wherever the sum reads back as itself; sell is
    (base * sellRatePercent) / 100 formatted with [toFixed(6)] and never
    clamped to the minimum, buy is (base * buyRateMultiplier) / 1000
    formatted likewise; [toFixed(6)] writes exactly six decimals for a
    finite value below 10^21 in magnitude and the plain text of the
    number (exponent form, [Infinity], [NaN]) for any other; isBelowMin
    is (base > 0 and sell < minBilling), the warning naming the minimum
    exactly when it holds. With invoice 1000, duties 0 and the default
    configuration the base amount is 1000, sell is "4.000000",
    isBelowMin is true and the warning names $65.00. *)
Theorem standard_entry_spec (config : Settings) (invoice duties : jsstring) :
  standard_entry config invoice duties
  = standard_results_for config (reread (claimed_base_amount invoice duties))
  /\ (reread (claimed_base_amount invoice duties) = claimed_base_amount invoice duties ->
      standard_entry config invoice duties
      = standard_results_for config (claimed_base_amount invoice duties))
  /\ (plain_range (sell_value config (reread (claimed_base_amount invoice duties))) = true ->
      six_decimals (sell (standard_entry config invoice duties)))
  /\ (plain_range (buy_value config (reread (claimed_base_amount invoice duties))) = true ->
      six_decimals (buy (standard_entry config invoice duties)))
  /\ (plain_range (sell_value config (reread (claimed_base_amount invoice duties))) = false ->
      sell (standard_entry config invoice duties)
      = JsNumber.toString (sell_value config (reread (claimed_base_amount invoice duties))))
  /\ (plain_range (buy_value config (reread (claimed_base_amount invoice duties))) = false ->
      buy (standard_entry config invoice duties)
      = JsNumber.toString (buy_value config (reread (claimed_base_amount invoice duties))))
  /\ reread nan = zero
  /\ reread (claimed_base_amount (js "1000") (js "0")) = 1000%float
  /\ standard_entry DEFAULT_SETTINGS (js "1000") (js "0") = example_results
  /\ JsString.includes (warning_text DEFAULT_SETTINGS) (js "$65.00") = true.
Proof.
  split; [reflexivity|].
  split; [apply standard_entry_of_sum|].
  split; [apply toFixed_six_decimals|].
  split; [apply toFixed_six_decimals|].
  split; [apply toFixed_beyond_plain_range|].
  split; [apply toFixed_beyond_plain_range|].
  repeat split; vm_compute; reflexivity.
Qed.

(** The example of the specification (invoice 1000, duties 0), and an
    invoice of [1e25] beyond the plain range. *)
Lemma standard_entry_spec_witness :
  standard_entry DEFAULT_SETTINGS (js "1000") (js "0")
  = standard_results_for DEFAULT_SETTINGS (claimed_base_amount (js "1000") (js "0"))
  /\ six_decimals (sell (standard_entry DEFAULT_SETTINGS (js "1000") (js "0")))
  /\ six_decimals (buy (standard_entry DEFAULT_SETTINGS (js "1000") (js "0")))
  /\ sell (standard_entry DEFAULT_SETTINGS (js "1000") (js "0")) = js "4.000000"
  /\ sell (standard_entry DEFAULT_SETTINGS (js "1e25") [])
     = JsNumber.toString
         (sell_value DEFAULT_SETTINGS (reread (claimed_base_amount (js "1e25") [])))
  /\ buy (standard_entry DEFAULT_SETTINGS (js "1e25") [])
     = JsNumber.toString
         (buy_value DEFAULT_SETTINGS (reread (claimed_base_amount (js "1e25") []))).
Proof.
  destruct (standard_entry_spec DEFAULT_SETTINGS (js "1000") (js "0"))
    as [_ [Hsum [Hsell [Hbuy [_ [_ [_ [_ [Hex _]]]]]]]]].
  destruct (standard_entry_spec DEFAULT_SETTINGS (js "1e25") [])
    as [_ [_ [_ [_ [Hsell' [Hbuy' _]]]]]].
  split; [apply Hsum; vm_compute; reflexivity|].
  split; [exact (Hsell eq_refl)|]. split; [exact (Hbuy eq_refl)|].
  split; [rewrite Hex; reflexivity|].
  split; [exact (Hsell' eq_refl) | exact (Hbuy' eq_refl)].
Defined.

(** C6, as stated, fails on a large minimum: with a minimum billing of
    [1e21], which the number field of the admin panel accepts, the
    sandbox's sell output is the clamped value max(1e21, 40) = 1e21, and
    [toFixed(6)] writes it as [1e+21], not with six decimals. *)
Lemma sandbox_large_minimum :
  ~ sandbox_as_claimed draft_with_large_minimum
  /\ test_sell (testResults draft_with_large_minimum) = js "1e+21"
  /\ ~ six_decimals (test_sell (testResults draft_with_large_minimum))
  /\ test_sell (testResults draft_with_large_minimum)
     = JsNumber.toFixed 6 (JsNumber.max (minBilling draft_with_large_minimum)
                             (sell_value draft_with_large_minimum 10000)).
Proof.
  assert (Hsell : ~ six_decimals (test_sell (testResults draft_with_large_minimum))).
  { intros H. apply six_decimals_chars in H. vm_compute in H. discriminate H. }
  split; [intros [_ [H _]]; exact (Hsell H)|].
  split; [vm_compute; reflexivity|]. split; [exact Hsell | reflexivity].
Qed.

(** C6 (amended): for every draft configuration, the sandbox evaluates
    the fixed probe amount 10000; its sell output is
    max(minBilling, (10000 * sellRatePercent) / 100), a value never
    below minBilling, formatted with [toFixed(6)], while its buy output
    (10000 * buyRateMultiplier) / 1000 is formatted likewise and not
    clamped; [toFixed(6)] writes exactly six decimals for a finite value
    below 10^21 in magnitude and the plain text of the number (exponent
    form, [Infinity], [NaN]) for any other; the live path on the same
    amount shows (10000 * sellRatePercent) / 100 unclamped. With the
    default configuration the sandbox shows "65.000000" where the live
    path shows "40.000000". *)
Theorem testResults_clamps_sell (draft : Settings) :
  test_sell (testResults draft)
  = JsNumber.toFixed 6 (JsNumber.max (minBilling draft) (sell_value draft 10000))
  /\ test_buy (testResults draft) = JsNumber.toFixed 6 (buy_value draft 10000)
  /\ (JsNumber.max (minBilling draft) (sell_value draft 10000) <? minBilling draft)%float
     = false
  /\ (JsNumber.max (minBilling draft) (sell_value draft 10000) <? sell_value draft 10000)%float
     = false
  /\ sell (withoutPgaResults draft (js "10000")) = JsNumber.toFixed 6 (sell_value draft 10000)
  /\ buy (withoutPgaResults draft (js "10000")) = test_buy (testResults draft)
  /\ (plain_range (JsNumber.max (minBilling draft) (sell_value draft 10000)) = true ->
      six_decimals (test_sell (testResults draft)))
  /\ (plain_range (buy_value draft 10000) = true ->
      six_decimals (test_buy (testResults draft)))
  /\ (plain_range (JsNumber.max (minBilling draft) (sell_value draft 10000)) = false ->
      test_sell (testResults draft)
      = JsNumber.toString (JsNumber.max (minBilling draft) (sell_value draft 10000)))
  /\ (plain_range (buy_value draft 10000) = false ->
      test_buy (testResults draft) = JsNumber.toString (buy_value draft 10000))
  /\ test_sell (testResults DEFAULT_SETTINGS) = js "65.000000"
  /\ sell (withoutPgaResults DEFAULT_SETTINGS (js "10000")) = js "40.000000".
Proof.
  split; [reflexivity|]. split; [reflexivity|].
  split; [apply max_not_below|]. split; [apply max_not_below|].
  rewrite withoutPgaResults_unfold, read_probe_amount.
  split; [reflexivity|]. split; [reflexivity|].
  split; [apply toFixed_six_decimals|]. split; [apply toFixed_six_decimals|].
  split; [apply toFixed_beyond_plain_range|]. split; [apply toFixed_beyond_plain_range|].
  split; vm_compute; reflexivity.
Qed.

(** The sandbox on the default configuration, and on a minimum billing
    of [1e21]. *)
Lemma testResults_clamps_sell_witness :
  six_decimals (test_sell (testResults DEFAULT_SETTINGS))
  /\ six_decimals (test_buy (testResults DEFAULT_SETTINGS))
  /\ test_sell (testResults draft_with_large_minimum)
     = JsNumber.toString (JsNumber.max (minBilling draft_with_large_minimum)
                            (sell_value draft_with_large_minimum 10000)).
Proof.
  destruct (testResults_clamps_sell DEFAULT_SETTINGS)
    as [_ [_ [_ [_ [_ [_ [Hsell [Hbuy _]]]]]]]].
  destruct (testResults_clamps_sell draft_with_large_minimum)
    as [_ [_ [_ [_ [_ [_ [_ [_ [Hlarge _]]]]]]]]].
  split; [exact (Hsell eq_refl)|]. split; [exact (Hbuy eq_refl) | exact (Hlarge eq_refl)].
Defined.

(** ** The quick calculator *)

Lemma handle_equals (E : Engine) (st : CalcState) :
  handleCalcBtn E (js "=") st
  = match equals_body E (calcExpression st) with
    | Normal text => with_display_expression st text text
    | Throw => error_state st
    end.
Proof. reflexivity. Qed.

Lemma handle_point (E : Engine) (st : CalcState) :
  handleCalcBtn E (js ".") st
  = if negb (JsString.includes (lastToken (calcExpression st)) (js "."))
    then with_display_expression st
           (if JsString.eqb (calcDisplay st) (js "0")
               || JsString.eqb (calcDisplay st) (js "Error")
            then js "0." else calcDisplay st ++ js ".")
           (with_point (calcExpression st))
    else st.
Proof. reflexivity. Qed.

Lemma handle_sqrt (E : Engine) (st : CalcState) :
  handleCalcBtn E sqrt_fragment st
  = if JsString.eqb (calcDisplay st) (js "0")
    then with_display_expression st sqrt_fragment sqrt_fragment
    else with_display_expression st
           (if JsString.eqb (calcDisplay st) (js "Error") then sqrt_fragment
            else calcDisplay st ++ sqrt_fragment)
           (calcExpression st ++ sqrt_fragment).
Proof.
  unfold handleCalcBtn.
  change (JsString.eqb sqrt_fragment (js "C")) with false.
  change (JsString.eqb sqrt_fragment (js "Backspace")) with false.
  change (JsString.eqb sqrt_fragment (js "MC")) with false.
  change (JsString.eqb sqrt_fragment (js "MR")) with false.
  change (JsString.eqb sqrt_fragment (js "MS")) with false.
  change (JsString.eqb sqrt_fragment (js "M+")) with false.
  change (JsString.eqb sqrt_fragment (js ".")) with false.
  change (JsString.eqb sqrt_fragment (js "=")) with false.
  change (is_operator sqrt_fragment) with false.
  cbv iota. rewrite andb_true_r. reflexivity.
Qed.

Lemma press_app (E : Engine) (a b : list jsstring) (st : CalcState) :
  press E (a ++ b) st = press E b (press E a st).
Proof. apply fold_left_app. Qed.

(** The three outcomes of the [=] event. *)
Lemma equals_illegal (E : Engine) (st : CalcState) :
  existsb (fun c => negb (calc_char c)) (cleanExpr (calcExpression st)) = true ->
  handleCalcBtn E (js "=") st = error_state st.
Proof.
  intros H. rewrite handle_equals. unfold equals_body. now rewrite H.
Qed.

Lemma equals_number (E : Engine) (st : CalcState) (r : number) :
  existsb (fun c => negb (calc_char c)) (cleanExpr (calcExpression st)) = false ->
  run_eval E (cleanExpr (calcExpression st)) = Normal (JNumber r) ->
  handleCalcBtn E (js "=") st = with_display_expression st (shown r) (shown r).
Proof.
  intros H Hr. rewrite handle_equals. unfold equals_body, bind. now rewrite H, Hr.
Qed.

Lemma equals_failure (E : Engine) (st : CalcState) :
  (forall r, run_eval E (cleanExpr (calcExpression st)) <> Normal (JNumber r)) ->
  handleCalcBtn E (js "=") st = error_state st.
Proof.
  intros Hr. rewrite handle_equals. unfold equals_body, bind.
  destruct (existsb _ _); [reflexivity|].
  destruct (run_eval E (cleanExpr (calcExpression st))) as [[r| | |]|];
    try reflexivity.
  now destruct (Hr r).
Qed.

(** On a display that shows a legal expression, [=] shows its value. *)
Lemma equals_value (E : Engine) (st : CalcState) (r : number) :
  evaluates_arithmetic E ->
  existsb (fun c => negb (calc_char c)) (cleanExpr (calcExpression st)) = false ->
  Arithmetic.value (cleanExpr (calcExpression st)) = Some r ->
  handleCalcBtn E (js "=") st = with_display_expression st (shown r) (shown r).
Proof.
  intros HE Hlegal Hv. apply equals_number; [exact Hlegal|]. now apply HE.
Qed.

(** Keys followed by [=] on an engine that evaluates arithmetic: the
    keys are pressed by computation, then [=] shows the value [r]. *)
Ltac press_then_equals HE keys r :=
  match goal with
  | |- context [press ?E ?all ?st] =>
      change all with (keys ++ [js "="]);
      rewrite (press_app E keys [js "="] st);
      change (press E [js "="] (press E keys st))
        with (handleCalcBtn E (js "=") (press E keys st));
      rewrite (equals_value (r := r) _ HE); reflexivity
  end.

(** C5, as stated, fails: an expression made of legal characters need
    not have a value. After 7 and +, [=] finds no illegal character in
    [7+], the evaluation throws, and the session goes to the error state
    instead of showing a number. *)
Lemma equals_malformed_goes_to_error :
  press reference_engine [js "7"; js "+"] initial_calc = after_seven_plus
  /\ ~ equals_as_claimed reference_engine after_seven_plus
  /\ handleCalcBtn reference_engine (js "=") after_seven_plus = error_state after_seven_plus.
Proof.
  split; [reflexivity|]. split; [|reflexivity].
  unfold equals_as_claimed.
  change (existsb (fun c => negb (calc_char c)) (cleanExpr (calcExpression after_seven_plus)))
    with false.
  cbv iota. intros [r [Hr _]]. vm_compute in Hr. discriminate Hr.
Qed.

(** C5 (amended): for every calculator session state, the [=] event
    translates the glyphs of the multiplication and division keys to [*]
    and [/], then: if the translated expression holds a character outside
    digits and [+ - * / .], or if its evaluation throws or yields no
    number (malformed arithmetic such as [7+]), the display becomes
    "Error" and the expression becomes empty; if it evaluates to a number,
    that number (an integer as it is, any other number rounded to 8
    decimals) becomes both the new display and the new expression. With
    the usual precedence, from the initial state, 7 + 3 = shows "10",
    then + 2 = shows "12", 2 + 3 x 4 = shows "14", and 10 / 3 = shows
    "3.33333333". *)
Theorem equals_event (E : Engine) (st : CalcState) :
  (existsb (fun c => negb (calc_char c)) (cleanExpr (calcExpression st)) = true ->
   handleCalcBtn E (js "=") st = error_state st)
  /\ (forall r,
      existsb (fun c => negb (calc_char c)) (cleanExpr (calcExpression st)) = false ->
      run_eval E (cleanExpr (calcExpression st)) = Normal (JNumber r) ->
      handleCalcBtn E (js "=") st = with_display_expression st (shown r) (shown r))
  /\ ((forall r, run_eval E (cleanExpr (calcExpression st)) <> Normal (JNumber r)) ->
      handleCalcBtn E (js "=") st = error_state st)
  /\ (evaluates_arithmetic E ->
      calcDisplay (press E [js "7"; js "+"; js "3"; js "="] initial_calc) = js "10"
      /\ calcDisplay (press E [js "7"; js "+"; js "3"; js "="; js "+"; js "2"; js "="]
                        initial_calc) = js "12"
      /\ calcExpression (press E [js "7"; js "+"; js "3"; js "="; js "+"; js "2"; js "="]
                           initial_calc) = js "12"
      /\ calcDisplay (press E [js "2"; js "+"; js "3"; [times_glyph]; js "4"; js "="]
                        initial_calc) = js "14"
      /\ calcDisplay (press E [js "1"; js "0"; [divide_glyph]; js "3"; js "="]
                        initial_calc) = js "3.33333333").
Proof.
  split; [apply equals_illegal|].
  split; [intros r; apply equals_number|].
  split; [apply equals_failure|].
  intros HE.
  assert (H10 : press E [js "7"; js "+"; js "3"; js "="] initial_calc
                = with_display_expression initial_calc (js "10") (js "10"))
    by (press_then_equals HE [js "7"; js "+"; js "3"] 10%float).
  assert (H12 : press E [js "7"; js "+"; js "3"; js "="; js "+"; js "2"; js "="] initial_calc
                = with_display_expression initial_calc (js "12") (js "12")).
  { change [js "7"; js "+"; js "3"; js "="; js "+"; js "2"; js "="]
      with ([js "7"; js "+"; js "3"; js "="] ++ [js "+"; js "2"; js "="]).
    rewrite press_app, H10.
    press_then_equals HE [js "+"; js "2"] 12%float. }
  rewrite H10, H12. repeat split.
  - press_then_equals HE [js "2"; js "+"; js "3"; [times_glyph]; js "4"] 14%float.
  - press_then_equals HE [js "1"; js "0"; [divide_glyph]; js "3"] (10 / 3)%float.
Qed.

(** The reference engine evaluates the arithmetic fragment. *)
Lemma blank_lex (fuel : nat) (src : jsstring) :
  Arithmetic.blank src = true ->
  Arithmetic.lex fuel src = None \/ Arithmetic.lex fuel src = Some [].
Proof.
  revert src; induction fuel as [|fuel IH]; intros src H; [now left|].
  destruct src as [|c src]; [now right|].
  simpl in H. apply andb_true_iff in H as [Hc Hrest].
  cbn [Arithmetic.lex].
  destruct ((c =? 32)%N || (c =? 9)%N) eqn:Hb; [now apply IH|].
  apply orb_false_iff in Hb as [H32 H9].
  assert (Hd : JsString.is_digit c = false).
  { unfold JsString.is_space in Hc. unfold JsString.is_digit.
    apply orb_true_iff in Hc as [Hc|Hc].
    - simpl in Hc. rewrite !orb_true_iff in Hc.
      repeat (destruct Hc as [Hc|Hc]; [apply N.eqb_eq in Hc; subst c; reflexivity|]).
      discriminate.
    - apply andb_true_iff in Hc as [Hlo _]. apply N.leb_le in Hlo.
      apply andb_false_iff. right. apply N.leb_gt. lia. }
  assert (Hne : forall k, In k [46; 43; 45; 42; 47; 40; 41]%N -> (c =? k)%N = false).
  { intros k Hk. apply N.eqb_neq. intros ->.
    simpl in Hk. repeat (destruct Hk as [<-|Hk]; [discriminate Hc|]). destruct Hk. }
  rewrite Hd. cbn [orb].
  rewrite !Hne by (simpl; tauto). now left.
Qed.

Lemma reference_evaluates_arithmetic : evaluates_arithmetic reference_engine.
Proof.
  intros src x Hv.
  assert (Hb : Arithmetic.blank src = false).
  { destruct (Arithmetic.blank src) eqn:Hb; [|reflexivity].
    unfold Arithmetic.value in Hv.
    destruct (blank_lex (S (List.length src)) _ Hb) as [Hl|Hl];
      rewrite Hl in Hv; discriminate Hv. }
  assert (He : reference_eval src = Normal (JNumber x))
    by (unfold reference_eval; now rewrite Hb, Hv).
  split; [exact He|].
  change (run_function reference_engine (js "return " ++ src)) with (reference_eval src).
  exact He.
Qed.

(** The sequences of the example, on the reference engine. *)
Lemma equals_event_witness :
  calcDisplay (press reference_engine [js "7"; js "+"; js "3"; js "="] initial_calc) = js "10"
  /\ calcDisplay
       (press reference_engine [js "7"; js "+"; js "3"; js "="; js "+"; js "2"; js "="]
          initial_calc) = js "12"
  /\ handleCalcBtn reference_engine (js "=") after_sqrt = error_state after_sqrt.
Proof.
  destruct (equals_event reference_engine initial_calc) as [_ [_ [_ Hseq]]].
  destruct (Hseq reference_evaluates_arithmetic) as [H10 [H12 _]].
  destruct (equals_event reference_engine after_sqrt) as [Hbad _].
  split; [exact H10|]. split; [exact H12|]. exact (Hbad eq_refl).
Defined.

(** ** Tokens of the expression *)

Lemma split_on_nonempty (sep : JsString.code_unit -> bool) (s : jsstring) :
  JsString.split_on sep s <> [].
Proof.
  destruct s as [|c s]; simpl; [discriminate|].
  destruct (sep c); [discriminate|].
  destruct (JsString.split_on sep s); discriminate.
Qed.

Lemma last_cons {A : Type} (x : A) (l : list A) (d : A) :
  l <> [] -> last (x :: l) d = last l d.
Proof. destruct l; [contradiction | reflexivity]. Qed.

(** The last piece of a split is the run of characters after the last
    separator: the text is a prefix followed by the piece, the piece has
    no separator, and the prefix is empty (no separator at all) or ends
    with a separator. *)
Lemma last_piece_spec (sep : JsString.code_unit -> bool) (s : jsstring) :
  exists prefix,
    s = prefix ++ last (JsString.split_on sep s) []
    /\ forallb (fun c => negb (sep c)) (last (JsString.split_on sep s) []) = true
    /\ ((List.length (JsString.split_on sep s) = 1%nat /\ prefix = [])
        \/ ((1 < List.length (JsString.split_on sep s))%nat
            /\ exists p c, prefix = p ++ [c] /\ sep c = true)).
Proof.
  induction s as [|c s IH].
  - exists []. simpl. auto.
  - destruct IH as [prefix [Hs [Hno Hcases]]].
    pose proof (split_on_nonempty sep s) as Hne.
    simpl. destruct (sep c) eqn:Hc.
    + rewrite last_cons by exact Hne.
      exists (c :: prefix). split; [simpl; now rewrite <- Hs|]. split; [exact Hno|].
      right. split; [destruct (JsString.split_on sep s); [contradiction | simpl; lia]|].
      destruct Hcases as [[_ ->]|[_ [p [c' [-> Hc']]]]].
      * exists [], c. auto.
      * exists (c :: p), c'. auto.
    + destruct (JsString.split_on sep s) as [|piece rest] eqn:Hsplit; [contradiction|].
      destruct Hcases as [[Hlen ->]|[Hlen [p [c' [-> Hc']]]]].
      * destruct rest; [|discriminate Hlen]. simpl in *.
        exists []. simpl. rewrite Hc, Hno, <- Hs. auto.
      * destruct rest as [|piece' rest]; [simpl in Hlen; lia|].
        exists (c :: p ++ [c']). split; [simpl; now rewrite Hs|].
        split; [exact Hno|]. right. split; [simpl; lia|].
        exists (c :: p), c'. auto.
Qed.

(** C8, as stated, fails: a parenthesis does not end a token. After the
    square-root key the expression is [Math.sqrt(]; the run of characters
    since the parenthesis is empty and holds no point, yet the point
    event is rejected, because the token the code looks at is the whole
    of [Math.sqrt(]. *)
Lemma point_after_parenthesis_rejected :
  press reference_engine [sqrt_fragment] initial_calc = after_sqrt
  /\ claimed_token (calcExpression after_sqrt) = []
  /\ handleCalcBtn reference_engine (js ".") after_sqrt = after_sqrt
  /\ ~ point_as_claimed reference_engine after_sqrt.
Proof.
  split; [reflexivity|]. split; [reflexivity|]. split; [reflexivity|].
  unfold point_as_claimed.
  change (JsString.includes (claimed_token (calcExpression after_sqrt)) (js ".")) with false.
  cbv iota. vm_compute. discriminate.
Qed.

(** C8 (amended): for every calculator session state, the decimal-point
    event is permitted at most once per token, where a token is the run
    of characters since the last operator (one of [+ - * /] and the two
    key glyphs; a parenthesis does not end a token): if the current token
    already holds a point the event changes nothing, and otherwise the
    point is accepted, appended to the expression (which becomes [0.]
    when it was empty) and to the display. *)
Theorem point_event (E : Engine) (st : CalcState) :
  (JsString.includes (lastToken (calcExpression st)) (js ".") = true ->
   handleCalcBtn E (js ".") st = st)
  /\ (JsString.includes (lastToken (calcExpression st)) (js ".") = false ->
      calcExpression (handleCalcBtn E (js ".") st) = with_point (calcExpression st)
      /\ calcDisplay (handleCalcBtn E (js ".") st)
         = (if JsString.eqb (calcDisplay st) (js "0")
               || JsString.eqb (calcDisplay st) (js "Error")
            then js "0." else calcDisplay st ++ js ".")
      /\ calcMemory (handleCalcBtn E (js ".") st) = calcMemory st
      /\ calcHistory (handleCalcBtn E (js ".") st) = calcHistory st)
  /\ (exists prefix,
      calcExpression st = prefix ++ lastToken (calcExpression st)
      /\ forallb (fun c => negb (token_separator c)) (lastToken (calcExpression st)) = true
      /\ (prefix = [] \/ exists p c, prefix = p ++ [c] /\ token_separator c = true)).
Proof.
  split; [|split].
  - intros H. rewrite handle_point, H. reflexivity.
  - intros H. rewrite handle_point, H. cbn [negb]. auto.
  - destruct (last_piece_spec token_separator (calcExpression st))
      as [prefix [Hs [Hno Hcases]]].
    exists prefix. split; [exact Hs|]. split; [exact Hno|].
    destruct Hcases as [[_ Hp]|[_ Hp]]; [now left | now right].
Qed.

(** The point is rejected in [1.5] and accepted after [1.5+]. *)
Lemma point_event_witness :
  handleCalcBtn reference_engine (js ".")
    (with_display_expression initial_calc (js "1.5") (js "1.5"))
  = with_display_expression initial_calc (js "1.5") (js "1.5")
  /\ calcExpression
       (handleCalcBtn reference_engine (js ".")
          (with_display_expression initial_calc (js "1.5+") (js "1.5+")))
     = js "1.5+.".
Proof.
  split.
  - exact (proj1 (point_event reference_engine
                    (with_display_expression initial_calc (js "1.5") (js "1.5"))) eq_refl).
  - exact (proj1 (proj1 (proj2 (point_event reference_engine
                    (with_display_expression initial_calc (js "1.5+") (js "1.5+")))) eq_refl)).
Defined.

(** ** The square-root quick function *)

Lemma starts_with_refl (s : jsstring) : JsString.starts_with s s = true.
Proof. induction s as [|c s IH]; simpl; [reflexivity|]. now rewrite N.eqb_refl. Qed.

Lemma starts_with_app (n rest : jsstring) : JsString.starts_with n (n ++ rest) = true.
Proof. induction n as [|c n IH]; simpl; [reflexivity|]. now rewrite N.eqb_refl. Qed.

Lemma includes_app_right (p n : jsstring) : JsString.includes (p ++ n) n = true.
Proof.
  induction p as [|c p IH]; simpl.
  - destruct n as [|x n]; simpl; [reflexivity|].
    now rewrite N.eqb_refl, starts_with_refl.
  - rewrite IH. apply orb_true_r.
Qed.

(** Translating the glyphs leaves every other code unit in place. *)
Lemma cleanExpr_keeps (c : JsString.code_unit) (e : jsstring) :
  In c e -> c <> times_glyph -> c <> divide_glyph -> In c (cleanExpr e).
Proof.
  intros Hin Ht Hd. unfold cleanExpr, JsString.replace_all_unit.
  apply in_flat_map. exists c. split.
  - apply in_flat_map. exists c. split; [exact Hin|].
    apply N.eqb_neq in Ht. rewrite Ht. now left.
  - apply N.eqb_neq in Hd. rewrite Hd. now left.
Qed.

(** An expression that holds the fragment cannot pass [=]. *)
Lemma fragment_is_illegal (e : jsstring) :
  JsString.includes e sqrt_fragment = true ->
  existsb (fun c => negb (calc_char c)) (cleanExpr e) = true.
Proof.
  intros H. apply existsb_exists. exists 77%N. split; [|reflexivity].
  apply cleanExpr_keeps; [|discriminate|discriminate].
  apply (includes_In _ _ H). now left.
Qed.

(** C10, as stated, fails in its first part: on a display that is
    exactly [0] the key replaces the expression instead of appending to
    it. After the key 0 the display and the expression are both [0]; the
    square-root key then leaves [Math.sqrt(], not [0Math.sqrt(]. *)
Lemma sqrt_replaces_on_zero_display :
  press reference_engine [js "0"] initial_calc = after_zero
  /\ calcExpression (handleCalcBtn reference_engine sqrt_fragment after_zero) = sqrt_fragment
  /\ ~ sqrt_appends_as_claimed reference_engine after_zero.
Proof.
  split; [reflexivity|]. split; [reflexivity|].
  unfold sqrt_appends_as_claimed. vm_compute. discriminate.
Qed.

(** C10 (amended): for every calculator session, pressing the
    square-root quick function leaves the literal fragment [Math.sqrt(] at
    the end of the expression buffer (appended to the buffer, or as the
    whole buffer when the display is exactly [0]), and as long as that
    fragment remains in the expression every [=] event gives the error
    state (display "Error", expression cleared), because the fragment
    holds letters and a parenthesis, which [=] does not accept. *)
Theorem sqrt_key_then_equals (E : Engine) (st : CalcState) :
  calcExpression (handleCalcBtn E sqrt_fragment st)
  = (if JsString.eqb (calcDisplay st) (js "0") then [] else calcExpression st)
    ++ sqrt_fragment
  /\ JsString.includes (calcExpression (handleCalcBtn E sqrt_fragment st)) sqrt_fragment = true
  /\ (forall st' : CalcState,
      JsString.includes (calcExpression st') sqrt_fragment = true ->
      handleCalcBtn E (js "=") st' = error_state st'
      /\ calcDisplay (handleCalcBtn E (js "=") st') = js "Error"
      /\ calcExpression (handleCalcBtn E (js "=") st') = []).
Proof.
  assert (Hexpr : calcExpression (handleCalcBtn E sqrt_fragment st)
                  = (if JsString.eqb (calcDisplay st) (js "0") then [] else calcExpression st)
                    ++ sqrt_fragment).
  { rewrite handle_sqrt. now destruct (JsString.eqb (calcDisplay st) (js "0")). }
  split; [exact Hexpr|]. split.
  - rewrite Hexpr. apply includes_app_right.
  - intros st' H.
    assert (Herr : handleCalcBtn E (js "=") st' = error_state st')
      by (apply equals_illegal, fragment_is_illegal, H).
    rewrite Herr. auto.
Qed.

(** After a digit and the square-root key, [=] gives the error state. *)
Lemma sqrt_key_then_equals_witness :
  calcDisplay (press reference_engine [js "9"; sqrt_fragment; js "="] initial_calc) = js "Error"
  /\ calcExpression (press reference_engine [js "9"; sqrt_fragment; js "="] initial_calc) = [].
Proof.
  destruct (sqrt_key_then_equals reference_engine
              (press reference_engine [js "9"] initial_calc)) as [_ [Hin Herr]].
  destruct (Herr _ Hin) as [_ [Hd He]].
  split; [exact Hd | exact He].
Defined.

(** ** Substitution of variables *)

Lemma reference_replaces_patterns : replaces_patterns reference_engine.
Proof.
  intros source subject by_ pat Hc _. cbn [regexp_replace reference_engine].
  unfold Reference.replace. now rewrite Hc.
Qed.

(** *** Patterns and the texts they match *)

Lemma starts_with_split (w s : jsstring) :
  JsString.starts_with w s = true <-> exists t, s = w ++ t.
Proof.
  revert s; induction w as [|x w IH]; intros s; simpl.
  - split; [intros _; now exists s | reflexivity].
  - destruct s as [|y s]; [split; [discriminate | intros [t Ht]; discriminate]|].
    rewrite andb_true_iff, N.eqb_eq, IH. split.
    + intros [-> [t ->]]. now exists t.
    + intros [t Ht]. injection Ht as -> ->. split; [reflexivity | now exists t].
Qed.

Lemma match_here_word (pat : list Reference.atom) (s : jsstring) (n : nat) :
  Reference.match_here pat s = Some n ->
  exists w, In w (words pat) /\ List.length w = n /\ s = w ++ skipn n s.
Proof.
  revert s n; induction pat as [|[c|c] pat IH]; intros s n; simpl.
  - intros [= <-]. exists []. auto.
  - destruct s as [|x s]; [discriminate|].
    destruct (N.eqb x c) eqn:Hx; [|discriminate]. apply N.eqb_eq in Hx. subst x.
    destruct (Reference.match_here pat s) as [k|] eqn:Hm; [|discriminate].
    intros [= <-]. destruct (IH _ _ Hm) as [w [Hw [Hl Hs]]].
    exists (c :: w). split; [now apply in_map|]. split; [simpl; now rewrite Hl|].
    simpl. now rewrite <- Hs.
  - assert (Hskip : Reference.match_here pat s = Some n ->
              exists w, In w (List.map (cons c) (words pat) ++ words pat)
                        /\ List.length w = n /\ s = w ++ skipn n s).
    { intros Hm. destruct (IH _ _ Hm) as [w [Hw H]]. exists w.
      split; [apply in_or_app; now right | exact H]. }
    destruct s as [|x s]; [exact Hskip|].
    destruct (N.eqb x c) eqn:Hx; [|exact Hskip].
    apply N.eqb_eq in Hx. subst x.
    destruct (Reference.match_here pat s) as [k|] eqn:Hm; [|exact Hskip].
    intros [= <-]. destruct (IH _ _ Hm) as [w [Hw [Hl Hs]]].
    exists (c :: w). split; [apply in_or_app; left; now apply in_map|].
    split; [simpl; now rewrite Hl|]. simpl. now rewrite <- Hs.
Qed.

Lemma word_matches (pat : list Reference.atom) (w s : jsstring) :
  In w (words pat) -> JsString.starts_with w s = true ->
  Reference.match_here pat s <> None.
Proof.
  revert w s; induction pat as [|[c|c] pat IH]; intros w s; simpl.
  - discriminate.
  - intros Hw Hs. apply in_map_iff in Hw as [w' [<- Hw']].
    destruct s as [|x s]; [discriminate|]. simpl in Hs.
    apply andb_true_iff in Hs as [Hx Hs]. rewrite N.eqb_sym in Hx. rewrite Hx.
    specialize (IH _ _ Hw' Hs).
    destruct (Reference.match_here pat s); [discriminate | contradiction].
  - intros Hw Hs. apply in_app_or in Hw as [Hw|Hw].
    + apply in_map_iff in Hw as [w' [<- Hw']].
      destruct s as [|x s]; [discriminate|]. simpl in Hs.
      apply andb_true_iff in Hs as [Hx Hs]. rewrite N.eqb_sym in Hx. rewrite Hx.
      specialize (IH _ _ Hw' Hs).
      destruct (Reference.match_here pat s); [discriminate | contradiction].
    + specialize (IH _ _ Hw Hs).
      destruct s as [|x s]; [exact IH|].
      destruct (N.eqb x c); [|exact IH].
      destruct (Reference.match_here pat s); [discriminate | exact IH].
Qed.

Lemma includes_suffix (w s n : jsstring) :
  JsString.includes s n = true -> JsString.includes (w ++ s) n = true.
Proof.
  intros H. induction w as [|x w IH]; [exact H|].
  simpl. rewrite IH. apply orb_true_r.
Qed.

Lemma includes_skip (by_ n rest : jsstring) :
  apart by_ n = true -> n <> [] ->
  JsString.includes (by_ ++ rest) n = JsString.includes rest n.
Proof.
  intros Ha Hn. induction by_ as [|b by_ IH]; [reflexivity|].
  simpl in Ha. apply andb_true_iff in Ha as [Hb Ha].
  change (JsString.includes ((b :: by_) ++ rest) n)
    with (JsString.starts_with n (b :: by_ ++ rest) || JsString.includes (by_ ++ rest) n).
  rewrite (IH Ha). destruct n as [|x n]; [contradiction|].
  simpl in Hb. apply negb_true_iff, orb_false_iff in Hb as [Hb _].
  simpl. rewrite N.eqb_sym, Hb. reflexivity.
Qed.

Section Replacement.

Variable pat : list Reference.atom.
Variable by_ : jsstring.
Hypothesis words_nonempty : forallb nonempty (words pat) = true.

Lemma match_here_positive (s : jsstring) : Reference.match_here pat s <> Some O.
Proof.
  intros Hm. destruct (match_here_word _ _ Hm) as [w [Hw [Hl _]]].
  rewrite forallb_forall in words_nonempty. specialize (words_nonempty _ Hw).
  destruct w; [discriminate words_nonempty | discriminate Hl].
Qed.

(** What [replace_from] returns comes from its subject by replacing
    texts the pattern matches. *)
Lemma replace_from_replaced (s : jsstring) (k : nat) :
  replaced (words pat) by_ (skipn k s) (Reference.replace_from pat by_ k s).
Proof.
  revert k; induction s as [|c s IH]; intros k.
  - destruct k as [|k]; [|constructor]. cbn [skipn Reference.replace_from].
    destruct (Reference.match_here pat []) as [[|n]|] eqn:Hm; [| |constructor].
    + now apply match_here_positive in Hm.
    + destruct (match_here_word _ _ Hm) as [w [_ [Hl Hs]]].
      destruct w; [discriminate Hl | discriminate Hs].
  - destruct k as [|k]; [|apply IH]. cbn [skipn Reference.replace_from].
    destruct (Reference.match_here pat (c :: s)) as [[|n]|] eqn:Hm.
    + now apply match_here_positive in Hm.
    + destruct (match_here_word _ _ Hm) as [w [Hw [Hl Hs]]].
      cbn [skipn] in Hs. rewrite Hs at 1. apply replaced_name; [exact Hw | apply IH].
    + apply replaced_keep. apply (IH O).
Qed.

(** A text that holds no code unit of the replacement and heads the
    result heads the subject. *)
Lemma kept_prefix (b : JsString.code_unit) (rest w s : jsstring) :
  by_ = b :: rest -> existsb (N.eqb b) w = false ->
  JsString.starts_with w (Reference.replace_from pat by_ O s) = true ->
  JsString.starts_with w s = true.
Proof.
  intros Hby. revert s; induction w as [|x w IH]; intros s Hb; [reflexivity|].
  simpl in Hb. apply orb_false_iff in Hb as [Hbx Hbw].
  assert (Hhead : forall t, JsString.starts_with (x :: w) (by_ ++ t) = false).
  { intros t. rewrite Hby. cbn [app JsString.starts_with].
    now rewrite N.eqb_sym, Hbx. }
  destruct s as [|c s]; cbn [Reference.replace_from].
  - destruct (Reference.match_here pat []) as [[|n]|]; [| |discriminate];
      now rewrite Hhead.
  - destruct (Reference.match_here pat (c :: s)) as [[|n]|]; [| |];
      try now rewrite Hhead.
    cbn [JsString.starts_with].
    intros H. apply andb_true_iff in H as [Hx H]. rewrite Hx. now apply IH.
Qed.

(** Nothing the pattern matches is left in the result. *)
Lemma no_match_left (n : jsstring) (s : jsstring) (k : nat) :
  In n (words pat) -> apart by_ n = true -> by_ <> [] ->
  JsString.includes (Reference.replace_from pat by_ k s) n = false.
Proof.
  intros Hn Ha Hby.
  assert (Hne : n <> []).
  { rewrite forallb_forall in words_nonempty. specialize (words_nonempty _ Hn).
    destruct n; [discriminate | discriminate]. }
  assert (Hnil : JsString.includes [] n = false) by (destruct n; [contradiction | reflexivity]).
  destruct by_ as [|b rest] eqn:Hbeq; [contradiction|]. rewrite <- Hbeq in *.
  assert (Hb : existsb (N.eqb b) n = false).
  { rewrite Hbeq in Ha. simpl in Ha. apply andb_true_iff in Ha as [Ha _].
    now apply negb_true_iff in Ha. }
  revert k; induction s as [|c s IH]; intros k.
  - destruct k as [|k]; [|exact Hnil]. cbn [Reference.replace_from].
    destruct (Reference.match_here pat []) as [[|m]|]; [| |exact Hnil];
      now rewrite includes_skip.
  - destruct k as [|k]; [|apply IH]. cbn [Reference.replace_from].
    destruct (Reference.match_here pat (c :: s)) as [[|m]|] eqn:Hm.
    + now apply match_here_positive in Hm.
    + rewrite includes_skip by assumption. apply IH.
    + change (JsString.includes (c :: Reference.replace_from pat by_ O s) n)
        with (JsString.starts_with n (c :: Reference.replace_from pat by_ O s)
              || JsString.includes (Reference.replace_from pat by_ O s) n).
      rewrite IH, orb_false_r.
      destruct (JsString.starts_with n (c :: Reference.replace_from pat by_ O s)) eqn:Hs;
        [|reflexivity].
      exfalso. apply (word_matches pat n (c :: s) Hn); [|exact Hm].
      apply (@kept_prefix b rest n (c :: s) Hbeq Hb).
      cbn [Reference.replace_from]. rewrite Hm. exact Hs.
Qed.

End Replacement.

(** ** Replacements in a row *)

(** A piece of the result that holds no code unit of the replacement
    was kept from the subject. *)
Lemma replaced_kept_prefix (W : list jsstring) (b : JsString.code_unit)
    (rest w : jsstring) :
  existsb (N.eqb b) w = false ->
  forall s r t, replaced W (b :: rest) s r -> r = w ++ t ->
  exists s', s = w ++ s' /\ replaced W (b :: rest) s' t.
Proof.
  induction w as [|x w IH]; intros Hb s r t H Hr.
  - exists s. subst r. now split.
  - simpl in Hb. apply orb_false_iff in Hb as [Hbx Hbw].
    destruct H as [|c s r H|w' s r Hw' H].
    + discriminate Hr.
    + injection Hr as -> ->. destruct (IH Hbw _ _ _ H eq_refl) as [s' [-> H']].
      now exists s'.
    + injection Hr as -> _. now rewrite N.eqb_refl in Hbx.
Qed.

(** A replacement brings in no name that holds no code unit of the
    replacement text. *)
Lemma replaced_no_new (W : list jsstring) (b : JsString.code_unit) (rest n : jsstring) :
  apart (b :: rest) n = true -> n <> [] ->
  forall r1 r2, replaced W (b :: rest) r1 r2 ->
  JsString.includes r1 n = false -> JsString.includes r2 n = false.
Proof.
  intros Ha Hn r1 r2 H.
  assert (Hb : existsb (N.eqb b) n = false).
  { simpl in Ha. apply andb_true_iff in Ha as [Ha _]. now apply negb_true_iff in Ha. }
  induction H as [|c s r H IH|w s r Hw H IH]; intros Hr1.
  - exact Hr1.
  - change (JsString.includes (c :: s) n)
      with (JsString.starts_with n (c :: s) || JsString.includes s n) in Hr1.
    apply orb_false_iff in Hr1 as [Hhead Htail].
    change (JsString.includes (c :: r) n)
      with (JsString.starts_with n (c :: r) || JsString.includes r n).
    rewrite (IH Htail), orb_false_r.
    destruct (JsString.starts_with n (c :: r)) eqn:Hs; [|reflexivity].
    apply starts_with_split in Hs as [t Ht].
    destruct (@replaced_kept_prefix W b rest n Hb (c :: s) (c :: r) t
                ltac:(now constructor) Ht) as [s0 [Hs0 _]].
    assert (Hc : JsString.starts_with n (c :: s) = true)
      by (apply starts_with_split; now exists s0).
    congruence.
  - rewrite includes_skip by assumption. apply IH.
    destruct (JsString.includes s n) eqn:Hs; [|reflexivity].
    now rewrite (includes_suffix w _ _ Hs) in Hr1.
Qed.

Lemma listed_incl (W W' : list jsstring) : listed W W' = true -> incl W W'.
Proof.
  unfold listed. rewrite forallb_forall. intros H w Hw.
  specialize (H _ Hw). apply existsb_exists in H as [w' [Hw' He]].
  apply jsstring_eqb_eq in He. now subst w'.
Qed.

Lemma probe_text : JsNumber.toString 100 = js "100".
Proof. vm_compute. reflexivity. Qed.

(** *** The two passes of the loop as one pass *)

Lemma prefixes_comparable (w w' s : jsstring) :
  JsString.starts_with w s = true -> JsString.starts_with w' s = true ->
  JsString.starts_with w w' = true \/ JsString.starts_with w' w = true.
Proof.
  revert w' s; induction w as [|x w IH]; intros w' s Hw Hw'; [now left|].
  destruct w' as [|y w']; [now right|].
  destruct s as [|c s]; [discriminate|]. simpl in Hw, Hw'.
  apply andb_true_iff in Hw as [Hx Hw]. apply andb_true_iff in Hw' as [Hy Hw'].
  apply N.eqb_eq in Hx, Hy. subst x y. simpl. rewrite N.eqb_refl. simpl.
  exact (IH _ _ Hw Hw').
Qed.

Lemma prefix_free_spec (W : list jsstring) (w w' : jsstring) :
  prefix_free W = true -> In w W -> In w' W ->
  JsString.starts_with w w' = true -> List.length w = List.length w'.
Proof.
  unfold prefix_free. rewrite forallb_forall. intros H Hw Hw' Hs.
  specialize (H _ Hw). rewrite forallb_forall in H. specialize (H _ Hw').
  rewrite Hs in H. now apply Nat.eqb_eq in H.
Qed.

(** Two texts of a prefix-free list that head the same text have the
    same length. *)
Lemma same_heading_length (W : list jsstring) (w w' s : jsstring) :
  prefix_free W = true -> In w W -> In w' W ->
  JsString.starts_with w s = true -> JsString.starts_with w' s = true ->
  List.length w = List.length w'.
Proof.
  intros Hpf Hw Hw' Hs Hs'.
  destruct (prefixes_comparable _ _ _ Hs Hs') as [H|H].
  - exact (prefix_free_spec _ _ _ Hpf Hw Hw' H).
  - symmetry. exact (prefix_free_spec _ _ _ Hpf Hw' Hw H).
Qed.

Lemma skipn_heading (w s : jsstring) :
  JsString.starts_with w s = true -> s = w ++ skipn (List.length w) s.
Proof.
  intros H. apply starts_with_split in H as [t ->].
  now rewrite skipn_app, skipn_all, Nat.sub_diag.
Qed.

Lemma heading_some (table : list (jsstring * jsstring)) (s w t : jsstring) :
  heading table s = Some (w, t) -> In (w, t) table /\ JsString.starts_with w s = true.
Proof.
  induction table as [|[w0 t0] table IH]; simpl; [discriminate|].
  destruct (JsString.starts_with w0 s) eqn:Hs.
  - intros [= <- <-]. split; [now left | exact Hs].
  - intros H. destruct (IH H) as [Hin Hw]. split; [now right | exact Hw].
Qed.

Lemma heading_none (table : list (jsstring * jsstring)) (s w : jsstring) :
  heading table s = None -> In w (List.map fst table) -> JsString.starts_with w s = false.
Proof.
  induction table as [|[w0 t0] table IH]; simpl; [intros _ []|].
  destruct (JsString.starts_with w0 s) eqn:Hs; [discriminate|].
  intros H [<-|Hin]; [exact Hs | now apply IH].
Qed.

Lemma replace_from_skip (pat : list Reference.atom) (by_ pre t : jsstring) :
  Reference.replace_from pat by_ (List.length pre) (pre ++ t)
  = Reference.replace_from pat by_ O t.
Proof. induction pre as [|x pre IH]; [reflexivity | exact IH]. Qed.

Lemma replace_occurrences_skip (table : list (jsstring * jsstring)) (pre t : jsstring) :
  replace_occurrences table (List.length pre) (pre ++ t) = replace_occurrences table O t.
Proof. induction pre as [|x pre IH]; [reflexivity | exact IH]. Qed.

Lemma replace_from_match (pat : list Reference.atom) (by_ : jsstring)
    (c : JsString.code_unit) (s : jsstring) (n : nat) :
  Reference.match_here pat (c :: s) = Some (S n) ->
  Reference.replace_from pat by_ O (c :: s) = by_ ++ Reference.replace_from pat by_ n s.
Proof. intros H. cbn [Reference.replace_from]. now rewrite H. Qed.

Lemma replace_from_no_match (pat : list Reference.atom) (by_ : jsstring)
    (c : JsString.code_unit) (s : jsstring) :
  Reference.match_here pat (c :: s) = None ->
  Reference.replace_from pat by_ O (c :: s) = c :: Reference.replace_from pat by_ O s.
Proof. intros H. cbn [Reference.replace_from]. now rewrite H. Qed.

(** A pattern whose words are prefix-free matches the word that heads
    the text. *)
Lemma match_here_heading (pat : list Reference.atom) (W : list jsstring) (w s : jsstring) :
  prefix_free W = true -> incl (words pat) W ->
  In w (words pat) -> JsString.starts_with w s = true ->
  Reference.match_here pat s = Some (List.length w).
Proof.
  intros Hpf Hi Hw Hs.
  destruct (Reference.match_here pat s) as [n|] eqn:Hm;
    [|now apply (word_matches pat w s Hw Hs) in Hm].
  destruct (match_here_word _ _ Hm) as [w' [Hw' [Hl Hs']]].
  f_equal. rewrite <- Hl. symmetry.
  apply (same_heading_length W w w' s Hpf (Hi _ Hw) (Hi _ Hw') Hs).
  apply starts_with_split. now exists (skipn n s).
Qed.

(** A pattern does not match at a code unit none of its words holds. *)
Lemma no_match_at (pat : list Reference.atom) (c : JsString.code_unit) (t : jsstring) :
  forallb nonempty (words pat) = true ->
  (forall w, In w (words pat) -> existsb (N.eqb c) w = false) ->
  Reference.match_here pat (c :: t) = None.
Proof.
  intros Hne Hc. destruct (Reference.match_here pat (c :: t)) as [n|] eqn:Hm; [|reflexivity].
  destruct (match_here_word _ _ Hm) as [w [Hw [_ Hs]]].
  rewrite forallb_forall in Hne. specialize (Hne _ Hw). specialize (Hc _ Hw).
  destruct w as [|x w]; [discriminate Hne|].
  injection Hs as -> _. simpl in Hc. now rewrite N.eqb_refl in Hc.
Qed.

(** The replacement passes over a text made of such code units. *)
Lemma replace_from_passes (pat : list Reference.atom) (by_ p t : jsstring) :
  forallb nonempty (words pat) = true ->
  (forall c w, In c p -> In w (words pat) -> existsb (N.eqb c) w = false) ->
  Reference.replace_from pat by_ O (p ++ t) = p ++ Reference.replace_from pat by_ O t.
Proof.
  intros Hne. induction p as [|c p IH]; intros Hc; [reflexivity|].
  change ((c :: p) ++ t) with (c :: p ++ t).
  rewrite replace_from_no_match
    by (apply no_match_at; [exact Hne | intros w; apply Hc; now left]).
  rewrite IH; [reflexivity|]. intros c' w Hc'. apply Hc. now right.
Qed.

(** The replacement keeps a piece of text inside which the pattern does
    not match. *)
Lemma replace_from_keeps (pat : list Reference.atom) (by_ pre t : jsstring) :
  (forall i, (i < List.length pre)%nat ->
     Reference.match_here pat (skipn i (pre ++ t)) = None) ->
  Reference.replace_from pat by_ O (pre ++ t) = pre ++ Reference.replace_from pat by_ O t.
Proof.
  induction pre as [|x pre IH]; intros H; [reflexivity|].
  change ((x :: pre) ++ t) with (x :: pre ++ t).
  rewrite replace_from_no_match by (apply (H O); simpl; lia).
  rewrite IH; [reflexivity|]. intros i Hi. apply (H (S i)). simpl. lia.
Qed.

Lemma apart_spec (by_ w : jsstring) (c : JsString.code_unit) :
  apart by_ w = true -> In c by_ -> existsb (N.eqb c) w = false.
Proof.
  unfold apart. rewrite forallb_forall. intros H Hc.
  now apply negb_true_iff, H.
Qed.

Section TwoPasses.

Variables pat1 pat2 : list Reference.atom.
Variable b : JsString.code_unit.
Variable rest : jsstring.
Variable table : list (jsstring * jsstring).

Hypothesis Hne : forallb nonempty (words pat1 ++ words pat2) = true.
Hypothesis Hap : forallb (apart (b :: rest)) (words pat1 ++ words pat2) = true.
Hypothesis Hpf : prefix_free (words pat1 ++ words pat2) = true.
Hypothesis Hno : no_overlap (words pat1) (words pat2) = true.
Hypothesis Hin : listed (List.map fst table) (words pat1 ++ words pat2) = true.
Hypothesis Hout : listed (words pat1 ++ words pat2) (List.map fst table) = true.
Hypothesis Hby : forallb (fun e => JsString.eqb (snd e) (b :: rest)) table = true.

Let first_pass := Reference.replace_from pat1 (b :: rest) O.
Let second_pass := Reference.replace_from pat2 (b :: rest) O.

Lemma words_nonempty1 : forallb nonempty (words pat1) = true.
Proof. rewrite forallb_app in Hne. now apply andb_true_iff in Hne as [H _]. Qed.

Lemma words_nonempty2 : forallb nonempty (words pat2) = true.
Proof. rewrite forallb_app in Hne. now apply andb_true_iff in Hne as [_ H]. Qed.

Lemma word_nonempty (w : jsstring) : In w (words pat1 ++ words pat2) -> w <> [].
Proof.
  intros Hw ->. rewrite forallb_forall in Hne. discriminate (Hne _ Hw).
Qed.

Lemma word_apart (w : jsstring) (c : JsString.code_unit) :
  In w (words pat1 ++ words pat2) -> In c (b :: rest) -> existsb (N.eqb c) w = false.
Proof.
  intros Hw Hc. rewrite forallb_forall in Hap. eapply apart_spec; [apply Hap; exact Hw | exact Hc].
Qed.

(** The second pass goes over the text the first pass has put in. *)
Lemma second_pass_over (t : jsstring) :
  second_pass ((b :: rest) ++ t) = (b :: rest) ++ second_pass t.
Proof.
  apply replace_from_passes; [exact words_nonempty2|].
  intros c w Hc Hw. apply word_apart; [apply in_or_app; now right | exact Hc].
Qed.

(** The first pass brings no match of the second pattern to the head of
    the text. *)
Lemma first_pass_no_new (s : jsstring) :
  Reference.match_here pat2 s = None ->
  Reference.match_here pat2 (first_pass s) = None.
Proof.
  intros Hm. destruct (Reference.match_here pat2 (first_pass s)) as [n|] eqn:Hm';
    [|reflexivity].
  destruct (match_here_word _ _ Hm') as [w [Hw [_ Hs]]].
  exfalso. apply (word_matches pat2 w s Hw); [|exact Hm].
  apply (@kept_prefix pat1 (b :: rest) b rest w s eq_refl).
  - apply word_apart; [apply in_or_app; now right | now left].
  - apply starts_with_split. eexists. exact Hs.
Qed.

(** The first pattern does not match inside an occurrence of a word of
    the second one. *)
Lemma no_match_inside (w2 t : jsstring) (i : nat) :
  In w2 (words pat2) -> (1 <= i < List.length w2)%nat ->
  Reference.match_here pat1 (skipn i (w2 ++ t)) = None.
Proof.
  intros Hw2 Hi.
  destruct (Reference.match_here pat1 (skipn i (w2 ++ t))) as [n|] eqn:Hm; [|reflexivity].
  destruct (match_here_word _ _ Hm) as [w1 [Hw1 [_ Hs]]].
  assert (Hhead : JsString.starts_with w1 (skipn i w2 ++ t) = true).
  { assert (Hsk : skipn i (w2 ++ t) = skipn i w2 ++ t).
    { rewrite skipn_app. replace (i - List.length w2)%nat with O by lia. reflexivity. }
    rewrite Hsk in Hs. apply starts_with_split. eexists. exact Hs. }
  assert (Hself : JsString.starts_with (skipn i w2) (skipn i w2 ++ t) = true)
    by apply starts_with_app.
  unfold no_overlap in Hno. rewrite forallb_forall in Hno. specialize (Hno _ Hw2).
  rewrite forallb_forall in Hno. specialize (Hno i ltac:(apply in_seq; lia)).
  rewrite forallb_forall in Hno. specialize (Hno _ Hw1).
  apply andb_true_iff in Hno as [Ha Hb].
  apply negb_true_iff in Ha, Hb.
  destruct (prefixes_comparable _ _ _ Hhead Hself); congruence.
Qed.

Lemma table_text (w t : jsstring) : In (w, t) table -> t = b :: rest.
Proof.
  intros H. rewrite forallb_forall in Hby. specialize (Hby _ H).
  now apply jsstring_eqb_eq in Hby.
Qed.

Lemma table_word (w t : jsstring) : In (w, t) table -> In w (words pat1 ++ words pat2).
Proof.
  intros H. apply (listed_incl _ _ Hin). apply in_map_iff. now exists (w, t).
Qed.

(** Where a word [w] of one of the patterns heads the text, the one-pass
    replacement writes the replacement text and goes on after [w]. *)
Lemma replace_occurrences_at (w s : jsstring) :
  In w (words pat1 ++ words pat2) -> JsString.starts_with w s = true ->
  replace_occurrences table O s
  = (b :: rest) ++ replace_occurrences table O (skipn (List.length w) s).
Proof.
  intros Hw Hs.
  destruct (heading table s) as [[w' t]|] eqn:Hh.
  - destruct (heading_some _ _ Hh) as [Hin' Hs'].
    pose proof (table_text _ _ Hin') as ->. pose proof (table_word _ _ Hin') as Hw'.
    assert (Hl : List.length w = List.length w')
      by exact (@same_heading_length _ w w' s Hpf Hw Hw' Hs Hs').
    rewrite Hl. pose proof (skipn_heading _ _ Hs') as Heq.
    destruct w' as [|x w']; [now apply word_nonempty in Hw'|].
    destruct s as [|c s]; [discriminate Hs'|].
    cbn [replace_occurrences]. rewrite Hh. f_equal.
    cbn [skipn List.length]. cbn [List.length skipn app] in Heq.
    injection Heq as _ Heq. rewrite Heq at 1. apply replace_occurrences_skip.
  - rewrite (heading_none table s w Hh (listed_incl _ _ Hout _ Hw)) in Hs. discriminate Hs.
Qed.

Lemma replace_from_at (pat : list Reference.atom) (w s : jsstring) :
  incl (words pat) (words pat1 ++ words pat2) ->
  In w (words pat) -> JsString.starts_with w s = true ->
  Reference.replace_from pat (b :: rest) O s
  = (b :: rest) ++ Reference.replace_from pat (b :: rest) O (skipn (List.length w) s).
Proof.
  intros Hi Hw Hs.
  pose proof (@match_here_heading pat _ w s Hpf Hi Hw Hs) as Hm.
  pose proof (skipn_heading _ _ Hs) as Heq.
  destruct w as [|x w]; [now apply Hi, word_nonempty in Hw|].
  destruct s as [|c s]; [discriminate Hs|].
  rewrite (@replace_from_match pat (b :: rest) c s _ Hm). f_equal.
  cbn [skipn List.length]. cbn [List.length skipn app] in Heq.
  injection Heq as _ Heq. rewrite Heq at 1. apply replace_from_skip.
Qed.

(** The two passes of the loop are one pass that replaces every
    occurrence of a word of either pattern. *)
Lemma two_passes (s : jsstring) :
  second_pass (first_pass s) = replace_occurrences table O s.
Proof.
  assert (Hgen : forall n s, (List.length s <= n)%nat ->
            second_pass (first_pass s) = replace_occurrences table O s).
  { clear s. induction n as [|n IH]; intros s Hlen.
    - destruct s; [|simpl in Hlen; lia]. unfold first_pass, second_pass.
      cbn [Reference.replace_from replace_occurrences].
      destruct (Reference.match_here pat1 []) as [k|] eqn:H1.
      + destruct (match_here_word _ _ H1) as [w [Hw [_ Hs]]].
        destruct w; [|discriminate Hs].
        exfalso. apply (@word_nonempty []); [apply in_or_app; now left | reflexivity].
      + cbn [Reference.replace_from].
        destruct (Reference.match_here pat2 []) as [k|] eqn:H2; [|reflexivity].
        destruct (match_here_word _ _ H2) as [w [Hw [_ Hs]]].
        destruct w; [|discriminate Hs].
        exfalso. apply (@word_nonempty []); [apply in_or_app; now right | reflexivity].
    - destruct s as [|c s]; [apply (IH []); simpl; lia|].
      destruct (Reference.match_here pat1 (c :: s)) as [k|] eqn:H1.
      + destruct (match_here_word _ _ H1) as [w [Hw [Hl Hs]]].
        assert (Hhead : JsString.starts_with w (c :: s) = true)
          by (apply starts_with_split; eexists; exact Hs).
        assert (Hw' : In w (words pat1 ++ words pat2)) by (apply in_or_app; now left).
        unfold first_pass.
        rewrite (@replace_from_at pat1 w (c :: s)
                   ltac:(intros x Hx; apply in_or_app; now left) Hw Hhead).
        fold first_pass. rewrite second_pass_over.
        rewrite (@replace_occurrences_at w (c :: s) Hw' Hhead).
        apply (f_equal (app (b :: rest))).
        apply IH. pose proof (@word_nonempty w Hw') as Hn.
        rewrite length_skipn. destruct w; [contradiction | simpl in *; lia].
      + destruct (Reference.match_here pat2 (c :: s)) as [k|] eqn:H2.
        * destruct (match_here_word _ _ H2) as [w [Hw [Hl Hs]]].
          assert (Hhead : JsString.starts_with w (c :: s) = true)
            by (apply starts_with_split; eexists; exact Hs).
          assert (Hw' : In w (words pat1 ++ words pat2)) by (apply in_or_app; now right).
          rewrite (@replace_occurrences_at w (c :: s) Hw' Hhead).
          assert (Hfirst : first_pass (c :: s) = w ++ first_pass (skipn (List.length w) (c :: s))).
          { rewrite (skipn_heading _ _ Hhead) at 1. unfold first_pass.
            apply replace_from_keeps. intros i Hi.
            rewrite <- (skipn_heading _ _ Hhead).
            destruct i as [|i]; [exact H1|].
            rewrite (skipn_heading _ _ Hhead). apply no_match_inside; [exact Hw | lia]. }
          rewrite Hfirst. unfold second_pass.
          rewrite (@replace_from_at pat2 w (w ++ first_pass (skipn (List.length w) (c :: s)))
                     ltac:(intros x Hx; apply in_or_app; now right) Hw
                     ltac:(apply starts_with_app)).
          rewrite skipn_app, skipn_all, Nat.sub_diag. cbn [app skipn].
          fold second_pass. apply (f_equal (app (b :: rest))).
          apply IH. pose proof (@word_nonempty w Hw') as Hn.
          rewrite length_skipn. destruct w; [contradiction | simpl in *; lia].
        * unfold first_pass. rewrite (@replace_from_no_match pat1 (b :: rest) c s H1). fold first_pass.
          assert (H2' : Reference.match_here pat2 (c :: first_pass s) = None).
          { pose proof (@first_pass_no_new (c :: s) H2) as H. unfold first_pass in H.
            rewrite (@replace_from_no_match pat1 (b :: rest) c s H1) in H. exact H. }
          unfold second_pass. rewrite (@replace_from_no_match pat2 (b :: rest) c _ H2'). fold second_pass.
          cbn [replace_occurrences].
          destruct (heading table (c :: s)) as [[w t]|] eqn:Hh.
          -- destruct (heading_some _ _ Hh) as [Hin' Hs'].
             pose proof (table_word _ _ Hin') as Hw'.
             apply in_app_or in Hw' as [Hw'|Hw'].
             ++ now apply (word_matches pat1 w (c :: s) Hw' Hs') in H1.
             ++ now apply (word_matches pat2 w (c :: s) Hw' Hs') in H2.
          -- f_equal. apply IH. simpl in Hlen. lia. }
  apply (Hgen (List.length s)). lia.
Qed.

End TwoPasses.

(** The loop on two names bound to 100, for names whose patterns are in
    the fragment of [Reference], hold no digit of [100] and do not
    overlap: one pass that replaces every occurrence. *)
Lemma substitute_two_names (E : Engine) (n1 n2 : jsstring)
    (pat1 pat2 : list Reference.atom) (table : list (jsstring * jsstring))
    (text : jsstring) :
  replaces_patterns E ->
  Reference.compile (JsString.replace_first (js "_") (js "_?") n1) = Some pat1 ->
  Reference.compile (JsString.replace_first (js "_") (js "_?") n2) = Some pat2 ->
  forallb nonempty (words pat1 ++ words pat2) = true ->
  forallb (apart (js "100")) (words pat1 ++ words pat2) = true ->
  prefix_free (words pat1 ++ words pat2) = true ->
  no_overlap (words pat1) (words pat2) = true ->
  listed (List.map fst table) (words pat1 ++ words pat2) = true ->
  listed (words pat1 ++ words pat2) (List.map fst table) = true ->
  forallb (fun e => JsString.eqb (snd e) (js "100")) table = true ->
  listed (spellings n1 ++ spellings n2) (words pat1 ++ words pat2) = true ->
  substitute E text [(n1, 100%float); (n2, 100%float)]
  = Normal (replace_occurrences table O text)
  /\ forall w, In w (spellings n1 ++ spellings n2) ->
       JsString.includes (replace_occurrences table O text) w = false.
Proof.
  intros HE Hc1 Hc2 Hne Hap Hpf Hno Hin Hout Hby Hsp.
  set (r1 := Reference.replace_from pat1 (js "100") O text).
  set (r := Reference.replace_from pat2 (js "100") O r1).
  assert (Hr : r = replace_occurrences table O text)
    by exact (@two_passes pat1 pat2 49%N [48%N; 48%N] table Hne Hap Hpf Hno Hin Hout Hby text).
  rewrite <- Hr.
  assert (Hne' := Hne). rewrite forallb_app in Hne'.
  apply andb_true_iff in Hne' as [Hne1 Hne2].
  split.
  - cbn [substitute]. rewrite probe_text.
    rewrite (HE _ text (js "100") pat1 Hc1 eq_refl). cbn [bind]. fold r1.
    rewrite (HE _ r1 (js "100") pat2 Hc2 eq_refl). reflexivity.
  - intros w Hw. apply (listed_incl _ _ Hsp) in Hw.
    assert (Hwa : apart (js "100") w = true)
      by (rewrite forallb_forall in Hap; now apply Hap).
    assert (Hwn : w <> []).
    { rewrite forallb_forall in Hne. specialize (Hne _ Hw). now destruct w. }
    assert (Hby' : js "100" <> []) by discriminate.
    apply in_app_or in Hw as [Hw|Hw].
    + apply (@replaced_no_new (words pat2) 49%N [48%N; 48%N] w Hwa Hwn r1 r
               (@replace_from_replaced pat2 (js "100") Hne2 r1 O)).
      now apply no_match_left.
    + now apply no_match_left.
Qed.

(** The loop takes the names in the order of the binding: with
    [invoice_value] bound to 5 before [invoice_value_with_pga] bound to
    7, the text [invoice_value_with_pga] becomes [5_with_pga]. *)
Lemma colliding_substitution (E : Engine) :
  replaces_patterns E ->
  substitute E (js "invoice_value_with_pga") (JsObject.entries colliding_variables)
  = Normal (js "5_with_pga").
Proof.
  intros HE.
  change (JsObject.entries colliding_variables)
    with [(js "invoice_value", 5%float); (js "invoice_value_with_pga", 7%float)].
  cbn [substitute]. unfold bind.
  erewrite HE by reflexivity. erewrite HE by reflexivity.
  vm_compute. reflexivity.
Qed.




(** With the longer name bound first the same formula evaluates to 7. *)
Lemma substitution_order_matters :
  evaluateFormula reference_engine (js "invoice_value_with_pga")
    (JsObject.set (js "invoice_value") 5%float
       (JsObject.set (js "invoice_value_with_pga") 7%float JsObject.empty))
  = 7%float.
Proof. vm_compute. reflexivity. Qed.

(* ================================================================== *)
(** * Further properties of the calculator *)

(** The branches of [handleCalcBtn] for an arbitrary key. *)
Ltac key_cases val :=
  unfold handleCalcBtn;
  repeat match goal with
  | |- context [if JsString.eqb val ?k then _ else _] =>
      let H := fresh "Hkey" in destruct (JsString.eqb val k) eqn:H
  end.

Ltac split_ifs :=
  repeat match goal with
  | |- context [if ?b then _ else _] => destruct b
  | |- context [match ?x with Some _ => _ | None => _ end] =>
      let H := fresh "Hopt" in destruct x eqn:H
  | |- context [match ?x with Normal _ => _ | Throw => _ end] => destruct x
  end.

(** No key writes the history. *)
Lemma handle_keeps_history (E : Engine) (val : jsstring) (st : CalcState) :
  calcHistory (handleCalcBtn E val st) = calcHistory st.
Proof. key_cases val; split_ifs; reflexivity. Qed.

(** A key other than MC, MS and M+ leaves the memory as it is. *)
Lemma handle_keeps_memory (E : Engine) (val : jsstring) (st : CalcState) :
  writes_memory val = false -> calcMemory (handleCalcBtn E val st) = calcMemory st.
Proof.
  unfold writes_memory. intros H.
  apply orb_false_iff in H as [H HMplus]. apply orb_false_iff in H as [HMC HMS].
  key_cases val; try congruence; split_ifs;
    cbn [calcMemory with_display_expression]; congruence.
Qed.

(** The text of a number is never empty and never starts like [Error]. *)
Lemma render_nonempty (n k s : Z) : JsNumber.render n k s <> [].
Proof.
  unfold JsNumber.render.
  pose proof (digits_nonempty s) as Hd.
  destruct (JsNumber.digits s) as [|d ds] eqn:Hds; [contradiction|].
  split_ifs; try discriminate.
  - destruct (firstn (Z.to_nat n) (d :: ds)); discriminate.
Qed.

Lemma toString_pos_nonempty (x : number) (m : positive) (e : Z) :
  JsNumber.toString_pos x m e <> [].
Proof.
  unfold JsNumber.toString_pos.
  destruct (JsNumber.fraction_of m e) as [vn vd].
  destruct (JsNumber.shortest 17 x vn vd (JsNumber.decimal_exponent vn vd) 1)
    as [[n k] sd].
  apply render_nonempty.
Qed.

Lemma toString_nonempty (x : number) : JsNumber.toString x <> [].
Proof.
  unfold JsNumber.toString.
  destruct (Prim2SF x) as [s|s| |s m e]; try discriminate.
  - destruct s; discriminate.
  - intros H. apply app_eq_nil in H as [_ H].
    now apply toString_pos_nonempty in H.
Qed.

(** X1: whatever keys are pressed, in whatever state and on whatever
    engine, the history of the calculator is never written: a session
    that starts with an empty history keeps it empty. *)
Theorem history_never_written (E : Engine) (vals : list jsstring) (st : CalcState) :
  calcHistory (press E vals st) = calcHistory st
  /\ calcHistory (press E vals initial_calc) = [].
Proof.
  assert (H : forall s, calcHistory (press E vals s) = calcHistory s).
  { unfold press. induction vals as [|v vals IH]; intros s; simpl; [reflexivity|].
    rewrite IH. apply handle_keeps_history. }
  split; [apply H | now rewrite H].
Qed.

Lemma writes_memory_cases (val : jsstring) :
  writes_memory val = true -> val = js "MC" \/ val = js "MS" \/ val = js "M+".
Proof.
  unfold writes_memory. rewrite !orb_true_iff, !jsstring_eqb_eq. tauto.
Qed.

(** X2: the memory and the entry are separate: a key other than MC, MS
    and M+ never changes the memory, and MC, MS and M+ never change the
    display or the expression. *)
Theorem memory_keys_frame (E : Engine) (val : jsstring) (st : CalcState) :
  (writes_memory val = false -> calcMemory (handleCalcBtn E val st) = calcMemory st)
  /\ (writes_memory val = true ->
      calcDisplay (handleCalcBtn E val st) = calcDisplay st
      /\ calcExpression (handleCalcBtn E val st) = calcExpression st).
Proof.
  split; [apply handle_keeps_memory|].
  intros H. destruct (writes_memory_cases _ H) as [ -> | [ -> | -> ] ].
  - split; reflexivity.
  - change (handleCalcBtn E (js "MS") st)
      with (let value := JsNumber.parseFloat (calcDisplay st) in
            if negb (JsNumber.isNaN value) then with_memory st (Some value) else st).
    cbv zeta. destruct (negb _); split; reflexivity.
  - change (handleCalcBtn E (js "M+") st)
      with (let value := JsNumber.parseFloat (calcDisplay st) in
            if negb (JsNumber.isNaN value)
            then with_memory st (Some match calcMemory st with
                                      | Some prev => (prev + value)%float
                                      | None => value
                                      end)
            else st).
    cbv zeta. destruct (negb _); split; reflexivity.
Qed.

(** A digit leaves the memory alone; M+ leaves the display alone. *)
Lemma memory_keys_frame_witness :
  calcMemory (handleCalcBtn reference_engine (js "7") (with_memory initial_calc (Some 3%float)))
  = Some 3%float
  /\ calcDisplay (handleCalcBtn reference_engine (js "M+") after_zero) = js "0".
Proof.
  split.
  - exact (proj1 (memory_keys_frame reference_engine (js "7")
                    (with_memory initial_calc (Some 3%float))) eq_refl).
  - exact (proj1 (proj2 (memory_keys_frame reference_engine (js "M+") after_zero) eq_refl)).
Defined.

Lemma removelast_nonempty {A : Type} (l : list A) :
  (1 < List.length l)%nat -> removelast l <> [].
Proof.
  destruct l as [|a [|b l]]; simpl; intros H; try lia. discriminate.
Qed.

Lemma handle_display_nonblank (E : Engine) (val : jsstring) (st : CalcState) :
  val <> [] -> calcDisplay st <> [] -> calcDisplay (handleCalcBtn E val st) <> [].
Proof.
  intros Hval Hd. key_cases val.
  - discriminate.
  - cbn [calcDisplay with_display_expression].
    destruct (1 <? List.length (calcDisplay st))%nat eqn:Hl; [|discriminate].
    apply removelast_nonempty. now apply Nat.ltb_lt.
  - exact Hd.
  - destruct (calcMemory st); [|exact Hd]. apply toString_nonempty.
  - split_ifs; exact Hd.
  - split_ifs; exact Hd.
  - destruct (negb _); [|exact Hd]. cbn [calcDisplay with_display_expression].
    destruct (_ || _); [discriminate|].
    intros H. apply app_eq_nil in H as [H _]. contradiction.
  - destruct (equals_body E (calcExpression st)) as [text|] eqn:Heq; [|discriminate].
    cbn [calcDisplay with_display_expression].
    unfold equals_body, bind in Heq.
    destruct (existsb _ _); [discriminate|].
    destruct (run_eval E _) as [[r| | |]|]; try discriminate.
    injection Heq as <-. apply toString_nonempty.
  - destruct (_ && _); cbn [calcDisplay with_display_expression]; [exact Hval|].
    destruct (JsString.eqb (calcDisplay st) (js "Error")); [exact Hval|].
    intros H. apply app_eq_nil in H as [H _]. contradiction.
Qed.

(** X3: the display is never blank: from a state with a non-empty
    display, any sequence of non-empty keys, on any engine, leaves a
    non-empty display. *)
Theorem display_never_blank (E : Engine) (vals : list jsstring) (st : CalcState) :
  calcDisplay st <> [] ->
  Forall (fun val => val <> []) vals ->
  calcDisplay (press E vals st) <> [].
Proof.
  unfold press. revert st. induction vals as [|v vals IH]; intros st Hd Hvals; [exact Hd|].
  inversion Hvals as [|? ? Hv Hrest]; subst. simpl.
  apply IH; [|exact Hrest]. now apply handle_display_nonblank.
Qed.

(** Backspace pressed more often than there are characters. *)
Lemma display_never_blank_witness :
  calcDisplay (press reference_engine
                 [js "7"; js "Backspace"; js "Backspace"; js "="; js "Backspace"]
                 initial_calc) <> [].
Proof.
  apply display_never_blank; [discriminate|].
  repeat constructor; discriminate.
Defined.

Lemma removelast_snoc {A : Type} (l : list A) (a : A) : removelast (l ++ [a]) = l.
Proof. rewrite removelast_app by discriminate. simpl. apply app_nil_r. Qed.

Lemma handle_entry_unit (E : Engine) (c : JsString.code_unit) (st : CalcState) :
  entry_unit c = true ->
  handleCalcBtn E [c] st
  = if JsString.eqb (calcDisplay st) (js "0") && negb (is_operator [c])
    then with_display_expression st [c] [c]
    else with_display_expression st
           (if JsString.eqb (calcDisplay st) (js "Error") then [c]
            else calcDisplay st ++ [c])
           (calcExpression st ++ [c]).
Proof.
  unfold entry_unit. intros H. apply negb_true_iff in H.
  apply orb_false_iff in H as [H H61]. apply orb_false_iff in H as [H67 H46].
  unfold handleCalcBtn.
  assert (HC : JsString.eqb [c] (js "C") = false) by (simpl; now rewrite H67).
  assert (HP : JsString.eqb [c] (js ".") = false) by (simpl; now rewrite H46).
  assert (HE : JsString.eqb [c] (js "=") = false) by (simpl; now rewrite H61).
  assert (Hlong : forall k, (1 < List.length k)%nat -> JsString.eqb [c] k = false).
  { intros [|a [|b k]] Hk; simpl in *; try lia. }
  rewrite HC, HP, HE, !Hlong by (simpl; lia). reflexivity.
Qed.

(** X4: Backspace undoes an entry. On a display that is neither blank,
    nor [0], nor [Error], entering a character and pressing Backspace
    gives back the state as it was; on the display [0], entering a
    character that is not an operator and pressing Backspace has the
    effect of C. *)
Theorem backspace_undoes_entry (E : Engine) (c : JsString.code_unit) (st : CalcState) :
  entry_unit c = true ->
  (calcDisplay st <> [] -> calcDisplay st <> js "0" -> calcDisplay st <> js "Error" ->
   handleCalcBtn E (js "Backspace") (handleCalcBtn E [c] st) = st)
  /\ (calcDisplay st = js "0" -> is_operator [c] = false ->
      handleCalcBtn E (js "Backspace") (handleCalcBtn E [c] st)
      = handleCalcBtn E (js "C") st).
Proof.
  intros Hc. rewrite (handle_entry_unit E c st Hc). split.
  - intros Hne H0 Herr.
    destruct (JsString.eqb (calcDisplay st) (js "0")) eqn:Hz;
      [apply jsstring_eqb_eq in Hz; contradiction|].
    destruct (JsString.eqb (calcDisplay st) (js "Error")) eqn:He;
      [apply jsstring_eqb_eq in He; contradiction|].
    cbn [andb].
    change (handleCalcBtn E (js "Backspace") ?s)
      with (with_display_expression s
              (if (1 <? List.length (calcDisplay s))%nat
               then JsString.drop_last (calcDisplay s) else js "0")
              (JsString.drop_last (calcExpression s))).
    cbn [calcDisplay calcExpression with_display_expression].
    unfold JsString.drop_last. rewrite !removelast_snoc.
    assert (Hl : (1 <? List.length (calcDisplay st ++ [c]))%nat = true).
    { apply Nat.ltb_lt. rewrite length_app. simpl.
      destruct (calcDisplay st); [contradiction | simpl; lia]. }
    rewrite Hl. destruct st; reflexivity.
  - intros H0 Hop. rewrite H0, Hop. reflexivity.
Qed.

(** Typing 5 after 12 and erasing it; typing 5 on the fresh display
    and erasing it. *)
Lemma backspace_undoes_entry_witness :
  handleCalcBtn reference_engine (js "Backspace")
    (handleCalcBtn reference_engine (js "5")
       (with_display_expression initial_calc (js "12") (js "12")))
  = with_display_expression initial_calc (js "12") (js "12")
  /\ handleCalcBtn reference_engine (js "Backspace")
       (handleCalcBtn reference_engine (js "5") after_zero)
     = handleCalcBtn reference_engine (js "C") after_zero.
Proof.
  split.
  - apply (proj1 (backspace_undoes_entry reference_engine 53%N
                    (with_display_expression initial_calc (js "12") (js "12")) eq_refl));
      discriminate.
  - apply (proj2 (backspace_undoes_entry reference_engine 53%N after_zero eq_refl));
      reflexivity.
Defined.

Lemma handle_MS (E : Engine) (st : CalcState) :
  handleCalcBtn E (js "MS") st
  = if negb (JsNumber.isNaN (JsNumber.parseFloat (calcDisplay st)))
    then with_memory st (Some (JsNumber.parseFloat (calcDisplay st))) else st.
Proof. reflexivity. Qed.

Lemma handle_Mplus (E : Engine) (st : CalcState) :
  handleCalcBtn E (js "M+") st
  = if negb (JsNumber.isNaN (JsNumber.parseFloat (calcDisplay st)))
    then with_memory st
           (Some match calcMemory st with
                 | Some prev => (prev + JsNumber.parseFloat (calcDisplay st))%float
                 | None => JsNumber.parseFloat (calcDisplay st)
                 end)
    else st.
Proof. reflexivity. Qed.

Lemma handle_MR (E : Engine) (st : CalcState) :
  handleCalcBtn E (js "MR") st
  = match calcMemory st with
    | Some m => with_display_expression st (JsNumber.toString m) (JsNumber.toString m)
    | None => st
    end.
Proof. reflexivity. Qed.

(** X5: storing and recalling. When the display reads as a number [v],
    MS then MR puts the text of [v] on the display and in the expression
    and keeps [v] in memory; MS then M+ leaves [v + v] in memory; M+ on an
    empty memory stores like MS; and after MC, MR changes nothing. *)
Theorem memory_store_recall (E : Engine) (st : CalcState) :
  JsNumber.isNaN (JsNumber.parseFloat (calcDisplay st)) = false ->
  handleCalcBtn E (js "MR") (handleCalcBtn E (js "MS") st)
  = with_display_expression
      (with_memory st (Some (JsNumber.parseFloat (calcDisplay st))))
      (JsNumber.toString (JsNumber.parseFloat (calcDisplay st)))
      (JsNumber.toString (JsNumber.parseFloat (calcDisplay st)))
  /\ calcMemory (handleCalcBtn E (js "M+") (handleCalcBtn E (js "MS") st))
     = Some (JsNumber.parseFloat (calcDisplay st) + JsNumber.parseFloat (calcDisplay st))%float
  /\ handleCalcBtn E (js "M+") (handleCalcBtn E (js "MC") st)
     = handleCalcBtn E (js "MS") st
  /\ handleCalcBtn E (js "MR") (handleCalcBtn E (js "MC") st)
     = handleCalcBtn E (js "MC") st.
Proof.
  intros Hv.
  assert (HMS : handleCalcBtn E (js "MS") st
                = with_memory st (Some (JsNumber.parseFloat (calcDisplay st))))
    by (rewrite handle_MS, Hv; reflexivity).
  split; [|split; [|split]].
  - rewrite HMS, handle_MR. reflexivity.
  - rewrite HMS, handle_Mplus. cbn [calcDisplay calcMemory with_memory].
    rewrite Hv. reflexivity.
  - rewrite HMS, handle_Mplus.
    change (handleCalcBtn E (js "MC") st) with (with_memory st None).
    cbn [calcDisplay calcMemory with_memory]. rewrite Hv. reflexivity.
  - reflexivity.
Qed.

(** Storing 12 and recalling it. *)
Lemma memory_store_recall_witness :
  calcDisplay
    (press reference_engine [js "1"; js "2"; js "MS"; js "C"; js "MR"] initial_calc) = js "12"
  /\ handleCalcBtn reference_engine (js "MR")
       (handleCalcBtn reference_engine (js "MS")
          (with_display_expression initial_calc (js "12") (js "12")))
     = with_display_expression
         (with_memory (with_display_expression initial_calc (js "12") (js "12"))
            (Some 12%float))
         (js "12") (js "12").
Proof.
  split; [vm_compute; reflexivity|].
  exact (proj1 (memory_store_recall reference_engine
                  (with_display_expression initial_calc (js "12") (js "12")) eq_refl)).
Defined.

(** X6: a display that does not read as a number cannot be stored: MS
    and M+ then change nothing at all. This is so in the error state,
    whose display [Error] reads as NaN. *)
Theorem memory_ignores_unreadable_display (E : Engine) (st : CalcState) :
  (JsNumber.isNaN (JsNumber.parseFloat (calcDisplay st)) = true ->
   handleCalcBtn E (js "MS") st = st /\ handleCalcBtn E (js "M+") st = st)
  /\ handleCalcBtn E (js "MS") (error_state st) = error_state st
  /\ handleCalcBtn E (js "M+") (error_state st) = error_state st.
Proof.
  split; [|split; reflexivity].
  intros Hv. rewrite handle_MS, handle_Mplus, Hv. split; reflexivity.
Qed.

(** After the square-root key the display starts with a letter. *)
Lemma memory_ignores_unreadable_display_witness :
  handleCalcBtn reference_engine (js "MS") after_sqrt = after_sqrt.
Proof.
  exact (proj1 (proj1 (memory_ignores_unreadable_display reference_engine after_sqrt) eq_refl)).
Defined.

(* ================================================================== *)
(** * The keyboard *)

(** A key name that holds a digit is none of the command keys. *)
Lemma digit_key_not_command (key : jsstring) :
  existsb JsString.is_digit key = true ->
  Forall (fun k => JsString.eqb key k = false)
    [js "C"; js "Backspace"; js "MC"; js "MR"; js "MS"; js "M+"; js "."; js "="].
Proof.
  intros Hd.
  repeat (constructor;
          [destruct (JsString.eqb key _) eqn:Hk; [|reflexivity];
           apply jsstring_eqb_eq in Hk; subst key; discriminate Hd|]).
  constructor.
Qed.

(** The key handed to [handleCalcBtn] by the listener never writes the
    memory. *)
Lemma handleKeydown_keeps_memory (E : Engine) (targetIsInput : bool) (key : jsstring)
    (st : CalcState) :
  calcMemory (handleKeydown E targetIsInput key st) = calcMemory st.
Proof.
  unfold handleKeydown. destruct targetIsInput; [reflexivity|].
  destruct (existsb JsString.is_digit key) eqn:Hd.
  - apply handle_keeps_memory. unfold writes_memory.
    pose proof (digit_key_not_command key Hd) as Hf.
    repeat match goal with
           | H : Forall _ (_ :: _) |- _ => inversion H; clear H; subst
           end.
    repeat match goal with H : JsString.eqb key _ = false |- _ => rewrite H; clear H end.
    reflexivity.
  - split_ifs; try reflexivity; apply handle_keeps_memory; reflexivity.
Qed.

Lemma handleKeydown_keeps_history (E : Engine) (targetIsInput : bool) (key : jsstring)
    (st : CalcState) :
  calcHistory (handleKeydown E targetIsInput key st) = calcHistory st.
Proof.
  unfold handleKeydown. split_ifs; try reflexivity; apply handle_keeps_history.
Qed.

(** X7: the keyboard reaches the entry only: whatever key is pressed,
    wherever the focus is, the memory and the history of the calculator
    stay as they are, and with the focus in an input field nothing
    changes at all. *)
Theorem keyboard_keeps_memory (E : Engine) (targetIsInput : bool) (key : jsstring)
    (st : CalcState) :
  calcMemory (handleKeydown E targetIsInput key st) = calcMemory st
  /\ calcHistory (handleKeydown E targetIsInput key st) = calcHistory st
  /\ handleKeydown E true key st = st.
Proof.
  split; [apply handleKeydown_keeps_memory|].
  split; [apply handleKeydown_keeps_history | reflexivity].
Qed.

Lemma handle_digit_key (E : Engine) (key : jsstring) (st : CalcState) :
  existsb JsString.is_digit key = true ->
  handleCalcBtn E key st
  = if JsString.eqb (calcDisplay st) (js "0") && negb (is_operator key)
    then with_display_expression st key key
    else with_display_expression st
           (if JsString.eqb (calcDisplay st) (js "Error") then key
            else calcDisplay st ++ key)
           (calcExpression st ++ key).
Proof.
  intros Hd. pose proof (digit_key_not_command key Hd) as Hf.
  repeat match goal with
         | H : Forall _ (_ :: _) |- _ => inversion H; clear H; subst
         end.
  unfold handleCalcBtn.
  repeat match goal with H : JsString.eqb key _ = false |- _ => rewrite H; clear H end.
  reflexivity.
Qed.

(** X8: the listener's digit test is not anchored: a key whose name
    holds a digit is typed as it is named. When the name also holds a
    character that [=] does not accept (as in F5), the name ends up in
    the expression and the next [=] gives the error state, on every
    engine. *)
Theorem named_key_is_typed (E : Engine) (key : jsstring) (st : CalcState) :
  existsb JsString.is_digit key = true ->
  handleKeydown E false key st = handleCalcBtn E key st
  /\ JsString.includes (calcExpression (handleKeydown E false key st)) key = true
  /\ ((exists c, In c key /\ calc_char c = false
                 /\ c <> times_glyph /\ c <> divide_glyph) ->
      handleCalcBtn E (js "=") (handleKeydown E false key st)
      = error_state (handleKeydown E false key st)).
Proof.
  intros Hd.
  assert (Hk : handleKeydown E false key st = handleCalcBtn E key st)
    by (unfold handleKeydown; now rewrite Hd).
  assert (Hin : JsString.includes (calcExpression (handleCalcBtn E key st)) key = true).
  { rewrite (handle_digit_key E key st Hd).
    destruct (_ && _); cbn [calcExpression with_display_expression].
    - apply (includes_app_right [] key).
    - apply includes_app_right. }
  rewrite Hk. split; [reflexivity|]. split; [exact Hin|].
  intros [c [Hc [Hbad [Ht Hdv]]]].
  apply equals_illegal. apply existsb_exists. exists c. split.
  - apply cleanExpr_keeps; [|exact Ht|exact Hdv].
    apply (includes_In _ _ Hin), Hc.
  - now rewrite Hbad.
Qed.

(** The function key F5 on the fresh calculator. *)
Lemma named_key_is_typed_witness :
  calcDisplay (handleKeydown reference_engine false (js "F5") initial_calc) = js "F5"
  /\ calcDisplay
       (handleCalcBtn reference_engine (js "=")
          (handleKeydown reference_engine false (js "F5") initial_calc)) = js "Error".
Proof.
  destruct (named_key_is_typed reference_engine (js "F5") initial_calc eq_refl)
    as [Hk [_ Herr]].
  split; [rewrite Hk; reflexivity|].
  rewrite Herr; [reflexivity|].
  exists 70%N. repeat split; try discriminate. now left.
Defined.

(* ================================================================== *)
(** * Further properties of the rate pipeline *)

(** ** Zero in double arithmetic *)

Lemma finite_cases (r : number) :
  JsNumber.isFinite r = true ->
  (exists s, Prim2SF r = S754_zero s) \/ (exists s m e, Prim2SF r = S754_finite s m e).
Proof.
  unfold JsNumber.isFinite, is_finite. intros H.
  apply negb_true_iff, orb_false_iff in H as [Hnan Hinf].
  unfold Prim2SF. rewrite Hnan, Hinf.
  destruct (is_zero r); [left; eauto|].
  destruct (Z.frexp r) as [f e].
  destruct (shr_fexp prec emax _ _ _) as [shr e'].
  destruct (shr_m shr); [left | right | left]; eauto.
Qed.

Lemma zero_times_finite (r : number) :
  JsNumber.isFinite r = true -> exists s, Prim2SF (zero * r) = S754_zero s.
Proof.
  intros H. rewrite mul_spec.
  destruct (finite_cases r H) as [[s ->]|[s [m [e ->]]]]; simpl; eauto.
Qed.

Lemma zero_over_constant (x c : number) (s sc : bool) (mc : positive) (ec : Z) :
  Prim2SF x = S754_zero s -> Prim2SF c = S754_finite sc mc ec ->
  Prim2SF (x / c) = S754_zero (xorb s sc).
Proof. intros Hx Hc. rewrite div_spec, Hx, Hc. reflexivity. Qed.

Lemma toFixed_of_zero (x : number) (s : bool) :
  Prim2SF x = S754_zero s -> JsNumber.toFixed 6 x = js "0.000000".
Proof. intros H. unfold JsNumber.toFixed. rewrite H. reflexivity. Qed.

Lemma toString_of_zero (x : number) (s : bool) :
  Prim2SF x = S754_zero s -> JsNumber.toString x = js "0".
Proof. intros H. unfold JsNumber.toString. rewrite H. reflexivity. Qed.

(** [(0 * rate) / c] is shown as [0.000000], for a finite rate and the
    constants 100 and 1000. *)
Lemma zero_amount_shown (rate c : number) (sc : bool) (mc : positive) (ec : Z) :
  JsNumber.isFinite rate = true -> Prim2SF c = S754_finite sc mc ec ->
  JsNumber.toFixed 6 ((zero * rate) / c)%float = js "0.000000".
Proof.
  intros Hr Hc. destruct (zero_times_finite rate Hr) as [s Hs].
  eapply toFixed_of_zero, zero_over_constant; eauto.
Qed.

(** [x || 0] is never NaN and never the negative zero. *)
Lemma or_zero_regular (x : number) :
  Prim2SF (JsNumber.or_zero x) <> S754_nan
  /\ Prim2SF (JsNumber.or_zero x) <> S754_zero true.
Proof.
  unfold JsNumber.or_zero.
  destruct (is_nan x) eqn:Hnan; [split; discriminate|].
  destruct (is_zero x) eqn:Hz; [split; discriminate|]. cbn [orb].
  split; intros H.
  - unfold Prim2SF in H. rewrite Hnan in H.
    destruct (is_zero x); [discriminate|].
    destruct (is_infinity x); [discriminate|].
    destruct (Z.frexp x) as [f e].
    destruct (shr_fexp prec emax _ _ _) as [shr e'].
    destruct (shr_m shr); discriminate.
  - unfold is_zero in Hz. rewrite eqb_spec, H in Hz. discriminate.
Qed.

Lemma or_zero_unreadable (x : number) :
  JsNumber.isNaN x = true -> JsNumber.or_zero x = zero.
Proof. unfold JsNumber.isNaN, JsNumber.or_zero. now intros ->. Qed.

(** A zero added to a number that is not the negative zero gives the
    number, on either side. *)
Lemma zero_plus (z y : number) (s : bool) :
  Prim2SF z = S754_zero s -> Prim2SF y <> S754_zero true -> (z + y)%float = y.
Proof.
  intros Hz Hy. apply Prim2SF_inj. rewrite add_spec, Hz.
  destruct (Prim2SF y) as [sy|sy| |sy m e]; try reflexivity.
  destruct sy; [contradiction|]. now destruct s.
Qed.

Lemma plus_zero (y : number) : Prim2SF y <> S754_zero true -> (y + zero)%float = y.
Proof.
  intros Hy. apply Prim2SF_inj. rewrite add_spec.
  change (Prim2SF zero) with (S754_zero false).
  destruct (Prim2SF y) as [sy|sy| |sy m e]; try reflexivity.
  destruct sy; [contradiction | reflexivity].
Qed.

(** ** Fields that do not read as numbers *)

Lemma read_zero_text : JsNumber.or_zero (JsNumber.parseFloat (js "0")) = zero.
Proof. vm_compute. reflexivity. Qed.

Lemma sum_of_unreadable (a b : jsstring) :
  unreadable a -> unreadable b -> withoutPgaAmount a b = js "0".
Proof.
  unfold unreadable, withoutPgaAmount. intros Ha Hb.
  rewrite (or_zero_unreadable _ Ha), (or_zero_unreadable _ Hb). reflexivity.
Qed.

Lemma bond_of_unreadable (config : Settings) (a b : jsstring) :
  JsNumber.isFinite (pgaMultiplier config) = true ->
  unreadable a -> unreadable b ->
  withPgaBuyBondValue config a b = js "0" /\ withPgaSellBondValue config a b = js "0".
Proof.
  unfold unreadable, withPgaBuyBondValue, withPgaSellBondValue. intros Hp Ha Hb.
  rewrite (or_zero_unreadable _ Ha), (or_zero_unreadable _ Hb).
  destruct (zero_times_finite _ Hp) as [s Hs].
  rewrite (zero_plus (zero * pgaMultiplier config) zero Hs) by discriminate.
  split; reflexivity.
Qed.

(** X9: an empty form shows zero. For every configuration whose rates
    and multiplier are finite, on either tab, a form in which no field
    reads as a number (in particular the form just cleared by
    [handleClear]) shows buy [0.000000], sell [0.000000] and no
    warning. *)
Theorem unreadable_form_shows_zero (activeTab : Tab) (config : Settings) (inputs : Inputs) :
  finite_rates config ->
  (nothing_readable inputs ->
   shown_buy activeTab config inputs = js "0.000000"
   /\ shown_sell activeTab config inputs = js "0.000000"
   /\ shown_warning activeTab config inputs = None)
  /\ shown_buy activeTab config (handleClear inputs) = js "0.000000"
  /\ shown_sell activeTab config (handleClear inputs) = js "0.000000"
  /\ shown_warning activeTab config (handleClear inputs) = None.
Proof.
  intros [Hsell [Hbuy Hpga]].
  assert (Hgen : forall i, nothing_readable i ->
            shown_buy activeTab config i = js "0.000000"
            /\ shown_sell activeTab config i = js "0.000000"
            /\ shown_warning activeTab config i = None).
  { intros i [H1 [H2 [H3 [H4 [H5 H6]]]]].
    unfold shown_buy, shown_sell, shown_warning.
    destruct activeTab.
    - rewrite (@sum_of_unreadable _ _ H1 H2).
      unfold withoutPgaResults. rewrite read_zero_text.
      cbn [buy sell sellWarning].
      change (0 <? zero)%float with false. cbn [andb].
      repeat split; eapply zero_amount_shown; eauto; reflexivity.
    - destruct (@bond_of_unreadable config _ _ Hpga H4 H3) as [-> _].
      destruct (@bond_of_unreadable config _ _ Hpga H6 H5) as [_ ->].
      unfold withPgaBuyResults, withPgaSellResults. rewrite read_zero_text.
      cbn [pga_buy pga_sell pga_sellWarning].
      change (0 <? zero)%float with false. cbn [andb].
      repeat split; eapply zero_amount_shown; eauto; reflexivity. }
  split; [exact (Hgen inputs)|].
  apply Hgen. repeat split; reflexivity.
Qed.

(** The default configuration, the fields holding letters. *)
Lemma unreadable_form_shows_zero_witness :
  shown_sell TabWith DEFAULT_SETTINGS
    {| invoiceWithoutPga := js "abc"; dutiesWithoutPga := [];
       buyInvoiceWithoutPga := js "-"; buyInvoiceWithPga := js ".";
       sellInvoiceWithoutPga := js "e5"; sellInvoiceWithPga := js "$12";
       inputsLoading := false |}
  = js "0.000000".
Proof.
  refine (proj1 (proj2 (proj1 (@unreadable_form_shows_zero TabWith DEFAULT_SETTINGS _ _) _))).
  - repeat split; reflexivity.
  - repeat split; reflexivity.
Defined.

(** X10: the two tabs agree when there is no PGA value. For every
    configuration with a finite PGA multiplier and every invoice text,
    the PGA entry with an unreadable (or empty) with-PGA field shows the
    buy amount, the sell amount and the warning that the standard entry
    shows for the same invoice with unreadable (or empty) duties. *)
Theorem pga_entry_without_pga_value (config : Settings) (invoice blank duties : jsstring) :
  JsNumber.isFinite (pgaMultiplier config) = true ->
  unreadable blank -> unreadable duties ->
  withPgaBuyBondValue config blank invoice = withoutPgaAmount invoice duties
  /\ withPgaSellBondValue config blank invoice = withoutPgaAmount invoice duties
  /\ pga_buy (withPgaBuyResults config (withPgaBuyBondValue config blank invoice))
     = buy (withoutPgaResults config (withoutPgaAmount invoice duties))
  /\ pga_sell (withPgaSellResults config (withPgaSellBondValue config blank invoice))
     = sell (withoutPgaResults config (withoutPgaAmount invoice duties))
  /\ pga_sellWarning (withPgaSellResults config (withPgaSellBondValue config blank invoice))
     = sellWarning (withoutPgaResults config (withoutPgaAmount invoice duties)).
Proof.
  intros Hp Hb Hd.
  assert (Hbond : withPgaBuyBondValue config blank invoice = withoutPgaAmount invoice duties).
  { unfold withPgaBuyBondValue, withoutPgaAmount.
    rewrite (@or_zero_unreadable _ Hb), (@or_zero_unreadable _ Hd).
    destruct (@zero_times_finite _ Hp) as [s Hs].
    destruct (or_zero_regular (JsNumber.parseFloat invoice)) as [_ Hy].
    now rewrite (@zero_plus _ _ _ Hs Hy), (@plus_zero _ Hy). }
  assert (Hsame : withPgaSellBondValue config blank invoice
                  = withPgaBuyBondValue config blank invoice) by reflexivity.
  rewrite Hsame, Hbond. repeat split; reflexivity.
Qed.

(** An invoice of 2500 and nothing else, on the default configuration. *)
Lemma pga_entry_without_pga_value_witness :
  pga_sell (withPgaSellResults DEFAULT_SETTINGS
              (withPgaSellBondValue DEFAULT_SETTINGS [] (js "2500")))
  = sell (withoutPgaResults DEFAULT_SETTINGS (withoutPgaAmount (js "2500") [])).
Proof.
  exact (proj1 (proj2 (proj2 (proj2
           (@pga_entry_without_pga_value DEFAULT_SETTINGS (js "2500") [] []
              eq_refl eq_refl eq_refl))))).
Defined.

(* ================================================================== *)
(** * Further properties of the admin panel *)

(** The validator as a test on the text of the formula. *)
Lemma validateFormula_textual (E : Engine) (formula : jsstring) (requiredVars : list jsstring) :
  validateFormula E formula requiredVars
  = forallb (JsString.includes formula) requiredVars.
Proof.
  unfold validateFormula. rewrite all_included_forallb.
  destruct (forallb (JsString.includes formula) requiredVars); [|reflexivity].
  cbn [negb].
  pose proof (evaluateFormula_finite E formula (testVars requiredVars)) as Hf.
  now rewrite Hf, (finite_not_nan _ Hf).
Qed.

Lemma all_four_valid_textual (E : Engine) (draft : Settings) :
  all_four_valid E draft = names_present draft.
Proof.
  unfold all_four_valid, names_present. rewrite !validateFormula_textual.
  cbn [forallb]. rewrite !andb_true_r, !andb_assoc. reflexivity.
Qed.

Lemma first_invalid_engine_free (E1 E2 : Engine) (vs : list Validation) :
  first_invalid E1 vs = first_invalid E2 vs.
Proof.
  induction vs as [|v vs IH]; simpl; [reflexivity|].
  rewrite !validateFormula_textual, IH. reflexivity.
Qed.

(** X11: a commit is decided by the text of the formulas alone. The
    draft is committed exactly when each formula mentions its two
    variable names; neither the numeric parameters, nor whether the
    formula can be evaluated, nor the engine has any part in it: every
    engine gives the same state after [saveSettings]. *)
Theorem commit_is_textual (E : Engine) (st : AdminState) :
  (names_present (tempSettings st) = true ->
   adminSettings (saveSettings E st) = tempSettings st
   /\ stored (saveSettings E st) = Some (tempSettings st)
   /\ showAdminPanel (saveSettings E st) = false)
  /\ (names_present (tempSettings st) = false ->
      adminSettings (saveSettings E st) = adminSettings st
      /\ showAdminPanel (saveSettings E st) = showAdminPanel st)
  /\ (forall E' : Engine, saveSettings E' st = saveSettings E st).
Proof.
  split; [|split].
  - intros H. rewrite <- (all_four_valid_textual E) in H.
    apply first_invalid_all_four in H. unfold saveSettings. rewrite H. auto.
  - intros H. rewrite <- (all_four_valid_textual E) in H.
    unfold saveSettings.
    destruct (first_invalid E (validations (tempSettings st))) eqn:Hf; [auto|].
    apply first_invalid_all_four in Hf. congruence.
  - intros E'. unfold saveSettings.
    now rewrite (first_invalid_engine_free E' E).
Qed.

(** A draft whose standard-buy formula cannot be evaluated, and whose
    minimum is negative, is committed. *)
Lemma commit_is_textual_witness :
  adminSettings
    (saveSettings reference_engine
       {| adminSettings := DEFAULT_SETTINGS;
          tempSettings :=
            {| logo := []; minBilling := -1; sellRatePercent := 0;
               buyRateMultiplier := 0; pgaMultiplier := 0;
               standardBuyFormula := js "invoice_value duties ((";
               standardSellFormula := standardSellFormula DEFAULT_SETTINGS;
               pgaBuyFormula := pgaBuyFormula DEFAULT_SETTINGS;
               pgaSellFormula := pgaSellFormula DEFAULT_SETTINGS |};
          stored := None; showAdminPanel := true; isLoading := false; alerts := [] |})
  <> DEFAULT_SETTINGS.
Proof.
  match goal with
  | |- adminSettings (saveSettings _ ?st) <> _ =>
      rewrite (proj1 (proj1 (@commit_is_textual reference_engine st) eq_refl))
  end.
  cbn [tempSettings]. intros H. apply (f_equal logo) in H. discriminate H.
Defined.

(** X12: saving twice is saving once. After a commit that succeeded, a
    second [saveSettings] leaves the whole admin state as the first one
    left it. *)
Theorem saveSettings_idempotent (E : Engine) (st : AdminState) :
  names_present (tempSettings st) = true ->
  saveSettings E (saveSettings E st) = saveSettings E st.
Proof.
  intros H. rewrite <- (all_four_valid_textual E) in H.
  apply first_invalid_all_four in H.
  unfold saveSettings at 2 3. rewrite H.
  unfold saveSettings. cbn [tempSettings adminSettings stored alerts]. rewrite H.
  reflexivity.
Qed.

(** The default configuration saved twice. *)
Lemma saveSettings_idempotent_witness :
  saveSettings reference_engine
    (saveSettings reference_engine (resetToDefault true editing_state))
  = saveSettings reference_engine (resetToDefault true editing_state).
Proof.
  exact (@saveSettings_idempotent reference_engine (resetToDefault true editing_state) eq_refl).
Defined.

(** X13: a factory reset followed by a commit always succeeds. On every
    engine and from every admin state, confirming [resetToDefault] and
    saving makes the built-in defaults the active and the stored
    configuration; the reset alone leaves the active configuration as it
    is, and a reset that is not confirmed changes nothing. *)
Theorem reset_then_save_restores_defaults (E : Engine) (st : AdminState) :
  adminSettings (saveSettings E (resetToDefault true st)) = DEFAULT_SETTINGS
  /\ stored (saveSettings E (resetToDefault true st)) = Some DEFAULT_SETTINGS
  /\ alerts (saveSettings E (resetToDefault true st)) = alerts st
  /\ adminSettings (resetToDefault true st) = adminSettings st
  /\ resetToDefault false st = st.
Proof.
  assert (H : first_invalid E (validations (tempSettings (resetToDefault true st))) = None).
  { apply first_invalid_all_four. rewrite all_four_valid_textual. reflexivity. }
  unfold saveSettings. rewrite H. repeat split; reflexivity.
Qed.

(** X14: the password prompt. The password field is emptied by every
    attempt; a wrong password changes neither the panel, nor the draft,
    nor the active or stored configuration, and is answered by one
    alert; the password 332 opens the panel on a draft that is a copy of
    the active configuration, so that saving at once, on any engine,
    leaves the active configuration as it was. *)
Theorem password_prompt (E : Engine) (p : PanelState) :
  adminPassword (checkPassword p) = []
  /\ (adminPassword p <> js "332" ->
      showAdminPanel (panel (checkPassword p)) = showAdminPanel (panel p)
      /\ tempSettings (panel (checkPassword p)) = tempSettings (panel p)
      /\ adminSettings (panel (checkPassword p)) = adminSettings (panel p)
      /\ stored (panel (checkPassword p)) = stored (panel p)
      /\ alerts (panel (checkPassword p))
         = alerts (panel p) ++ [js "Unauthorized access attempt logged."])
  /\ (adminPassword p = js "332" ->
      showAdminPanel (panel (checkPassword p)) = true
      /\ tempSettings (panel (checkPassword p)) = adminSettings (panel p)
      /\ adminSettings (saveSettings E (panel (checkPassword p))) = adminSettings (panel p)).
Proof.
  unfold checkPassword. split; [|split].
  - destruct (JsString.eqb (adminPassword p) (js "332")); reflexivity.
  - intros H.
    destruct (JsString.eqb (adminPassword p) (js "332")) eqn:Hp;
      [apply jsstring_eqb_eq in Hp; contradiction|].
    repeat split; reflexivity.
  - intros H. apply jsstring_eqb_eq in H. rewrite H.
    cbn [panel showAdminPanel tempSettings].
    split; [reflexivity|]. split; [reflexivity|].
    unfold saveSettings. cbn [tempSettings adminSettings].
    destruct (first_invalid E (validations (adminSettings (panel p)))); reflexivity.
Qed.

(** A wrong and a right password on the default configuration. *)
Lemma password_prompt_witness :
  showAdminPanel
    (panel (checkPassword
              {| panel := saveSettings reference_engine (resetToDefault true editing_state);
                 adminPassword := js "admin"; showPasswordPrompt := true |})) = false
  /\ showAdminPanel
       (panel (checkPassword
                 {| panel := saveSettings reference_engine (resetToDefault true editing_state);
                    adminPassword := js "332"; showPasswordPrompt := true |})) = true.
Proof.
  split.
  - match goal with
    | |- showAdminPanel (panel (checkPassword ?p)) = _ =>
        rewrite (proj1 (proj1 (proj2 (@password_prompt reference_engine p))
                          ltac:(discriminate)))
    end.
    reflexivity.
  - match goal with
    | |- showAdminPanel (panel (checkPassword ?p)) = _ =>
        exact (proj1 (proj2 (proj2 (@password_prompt reference_engine p)) eq_refl))
    end.
Defined.

(** ** Blank formulas *)

Lemma strip_spaces_blank (s : jsstring) :
  forallb JsString.is_space s = true -> strip_spaces s = [].
Proof.
  induction s as [|c s IH]; simpl; [reflexivity|].
  intros H. apply andb_true_iff in H as [Hc Hs]. rewrite Hc. simpl. now apply IH.
Qed.

(** X15: an empty or blank formula is stopped at the gate: with no
    variable to substitute, [evaluateFormula] returns 0 on every engine
    without handing anything to it. *)
Theorem blank_formula (E : Engine) (formula : jsstring) :
  forallb JsString.is_space formula = true ->
  evaluateFormula E formula JsObject.empty = zero
  /\ evaluated_expression E formula JsObject.empty = None.
Proof.
  intros H.
  assert (He : evaluated_expression E formula JsObject.empty = None).
  { unfold evaluated_expression.
    change (substitute E formula (JsObject.entries JsObject.empty)) with (Normal formula).
    cbv iota. now rewrite (strip_spaces_blank _ H). }
  split; [|exact He].
  rewrite evaluateFormula_cases, He. reflexivity.
Qed.

(** The empty formula and a formula of two spaces. *)
Lemma blank_formula_witness :
  evaluateFormula reference_engine [] JsObject.empty = zero
  /\ evaluateFormula reference_engine (js "  ") JsObject.empty = zero.
Proof.
  split.
  - exact (proj1 (@blank_formula reference_engine [] eq_refl)).
  - exact (proj1 (@blank_formula reference_engine (js "  ") eq_refl)).
Defined.

(* ================================================================== *)
(** * What the formulas are used for *)

(** X16: the formula texts of the configuration are validated but never
    evaluated for a result: two configurations with the same four
    numeric parameters show the same buy amount, sell amount and warning
    for every form on either tab, and the same sandbox preview, whatever
    their four formulas and their logo. *)
Theorem formulas_never_used (c1 c2 : Settings) (activeTab : Tab) (inputs : Inputs) :
  same_numbers c1 c2 ->
  shown_buy activeTab c1 inputs = shown_buy activeTab c2 inputs
  /\ shown_sell activeTab c1 inputs = shown_sell activeTab c2 inputs
  /\ shown_warning activeTab c1 inputs = shown_warning activeTab c2 inputs
  /\ testResults c1 = testResults c2.
Proof.
  intros [Hmin [Hsell [Hbuy Hpga]]].
  unfold shown_buy, shown_sell, shown_warning, testResults,
    withoutPgaResults, withPgaBuyResults, withPgaSellResults,
    withPgaBuyBondValue, withPgaSellBondValue, warning_text.
  cbn [buy sell sellWarning pga_buy pga_sell pga_sellWarning].
  rewrite Hmin, Hsell, Hbuy, Hpga.
  destruct activeTab; repeat split; reflexivity.
Qed.

(** The default configuration against one whose formulas are replaced. *)
Lemma formulas_never_used_witness :
  testResults
    {| logo := logo DEFAULT_SETTINGS;
       minBilling := minBilling DEFAULT_SETTINGS;
       sellRatePercent := sellRatePercent DEFAULT_SETTINGS;
       buyRateMultiplier := buyRateMultiplier DEFAULT_SETTINGS;
       pgaMultiplier := pgaMultiplier DEFAULT_SETTINGS;
       standardBuyFormula := js "invoice_value + duties";
       standardSellFormula := js "invoice_value - duties";
       pgaBuyFormula := js "invoice_value_with_pga * invoice_value_without_pga";
       pgaSellFormula := js "invoice_value_with_pga / invoice_value_without_pga" |}
  = testResults DEFAULT_SETTINGS.
Proof.
  match goal with
  | |- testResults ?c = _ =>
      refine (proj2 (proj2 (proj2
        (@formulas_never_used c DEFAULT_SETTINGS TabWithout (handleClear
           {| invoiceWithoutPga := []; dutiesWithoutPga := [];
              buyInvoiceWithoutPga := []; buyInvoiceWithPga := [];
              sellInvoiceWithoutPga := []; sellInvoiceWithPga := [];
              inputsLoading := false |}) _))))
  end.
  repeat split; reflexivity.
Defined.

(** X17: a rejected commit names the first formula that fails, in the
    order standard buy, standard sell, PGA buy, PGA sell, and raises one
    alert only, however many formulas fail. *)
Theorem rejection_names_first_failure (E : Engine) (st : AdminState) :
  let draft := tempSettings st in
  let std := [js "invoice_value"; js "duties"] in
  let pga := [js "invoice_value_with_pga"; js "invoice_value_without_pga"] in
  (forallb (JsString.includes (standardBuyFormula draft)) std = false ->
   alerts (saveSettings E st) = alerts st ++ [invalid_message (js "Standard Buy Formula")])
  /\ (forallb (JsString.includes (standardBuyFormula draft)) std = true ->
      forallb (JsString.includes (standardSellFormula draft)) std = false ->
      alerts (saveSettings E st) = alerts st ++ [invalid_message (js "Standard Sell Formula")])
  /\ (forallb (JsString.includes (standardBuyFormula draft)) std = true ->
      forallb (JsString.includes (standardSellFormula draft)) std = true ->
      forallb (JsString.includes (pgaBuyFormula draft)) pga = false ->
      alerts (saveSettings E st) = alerts st ++ [invalid_message (js "PGA Buy Formula")])
  /\ (forallb (JsString.includes (standardBuyFormula draft)) std = true ->
      forallb (JsString.includes (standardSellFormula draft)) std = true ->
      forallb (JsString.includes (pgaBuyFormula draft)) pga = true ->
      forallb (JsString.includes (pgaSellFormula draft)) pga = false ->
      alerts (saveSettings E st) = alerts st ++ [invalid_message (js "PGA Sell Formula")])
  /\ (List.length (alerts (saveSettings E st)) <= S (List.length (alerts st)))%nat.
Proof.
  cbv zeta. unfold saveSettings, validations, first_invalid.
  cbv beta iota delta [formula vars name].
  rewrite !validateFormula_textual.
  repeat split.
  - intros ->. reflexivity.
  - intros -> ->. reflexivity.
  - intros -> -> ->. reflexivity.
  - intros -> -> -> ->. reflexivity.
  - repeat (destruct (forallb _ _); cbn [negb alerts];
            [|rewrite length_app; simpl; lia]).
    lia.
Qed.

(** The standard-buy formula of the draft lacks [duties]. *)
Lemma rejection_names_first_failure_witness :
  alerts (saveSettings reference_engine editing_state)
  = [invalid_message (js "Standard Buy Formula")].
Proof.
  exact (proj1 (@rejection_names_first_failure reference_engine editing_state) eq_refl).
Defined.
